(** * kflash: flash orchestration engine

    A shallow embedding of the orchestration core of kflash
    (src/kflash/discovery.py, bootloader.py, flasher.py, tui.py,
    service.py, flash.py) together with the properties of the
    specification that concern it.

    Conventions of the embedding.
    - Python [str] is [string]; [str.lower] acts on the ASCII letters.
    - Durations and readings of [time.monotonic()] are integers ([Z]) in
      milliseconds.
    - The outside world (clock, directory listings, child processes, the
      operator) is an oracle: each answer is a function of the history of
      events so far.  Every effectful function threads that history, and
      with it the objects that the Python code shares by reference.
    - A [while] loop that polls the clock is given a fuel argument; running
      out of fuel is the distinguished result [Diverge], never confused with
      a value the Python code returns. *)

From Stdlib Require Import ZArith Ascii String DecimalString Lia Bool.
From stdpp Require Import base strings list gmap sorting.

Open Scope string_scope.
Open Scope list_scope.

(* ===================================================================== *)
(** * Strings *)
(* ===================================================================== *)

Module Str.

(** [c] is an ASCII upper-case letter. *)
Definition is_upper (c : ascii) : bool :=
  let n := nat_of_ascii c in (65 <=? n)%nat && (n <=? 90)%nat.

Definition is_lower (c : ascii) : bool :=
  let n := nat_of_ascii c in (97 <=? n)%nat && (n <=? 122)%nat.

Definition is_digit (c : ascii) : bool :=
  let n := nat_of_ascii c in (48 <=? n)%nat && (n <=? 57)%nat.

(** [[a-zA-Z0-9]] *)
Definition is_alnum (c : ascii) : bool :=
  is_upper c || is_lower c || is_digit c.

(** [[A-Fa-f0-9]] *)
Definition is_hex (c : ascii) : bool :=
  let n := nat_of_ascii c in
  is_digit c || ((65 <=? n)%nat && (n <=? 70)%nat)
             || ((97 <=? n)%nat && (n <=? 102)%nat).

Definition lower_char (c : ascii) : ascii :=
  if is_upper c then ascii_of_nat (nat_of_ascii c + 32) else c.

(** [s.lower()] *)
Fixpoint lower (s : string) : string :=
  match s with
  | EmptyString => EmptyString
  | String c r => String (lower_char c) (lower r)
  end.

(** [s.startswith(p)] *)
Fixpoint startswith (s p : string) {struct p} : bool :=
  match p, s with
  | EmptyString, _ => true
  | String a p', String b s' => Ascii.eqb a b && startswith s' p'
  | String _ _, EmptyString => false
  end.

(** [s[n:]] *)
Fixpoint drop (n : nat) (s : string) : string :=
  match n, s with
  | O, _ => s
  | S k, String _ r => drop k r
  | S _, EmptyString => EmptyString
  end.

(** [c in s] for a one-character [c]. *)
Fixpoint contains (c : ascii) (s : string) : bool :=
  match s with
  | EmptyString => false
  | String d r => Ascii.eqb c d || contains c r
  end.

(** [x in xs] for a list of strings. *)
Definition mem (x : string) (xs : list string) : bool :=
  existsb (String.eqb x) xs.

(** [os.path.basename]: what follows the last slash. *)
Fixpoint basename_aux (acc s : string) : string :=
  match s with
  | EmptyString => acc
  | String c r => if Ascii.eqb c "/" then basename_aux r r else basename_aux acc r
  end.

Definition basename (p : string) : string := basename_aux p p.

Fixpoint rev_onto (s acc : string) : string :=
  match s with
  | EmptyString => acc
  | String c r => rev_onto r (String c acc)
  end.

Definition rev (s : string) : string := rev_onto s EmptyString.

(** The characters [str.strip()] removes: space and \t \n \v \f \r. *)
Definition is_space (c : ascii) : bool :=
  let n := nat_of_ascii c in
  (n =? 32)%nat || ((9 <=? n)%nat && (n <=? 13)%nat).

Fixpoint lstrip (s : string) : string :=
  match s with
  | EmptyString => EmptyString
  | String c r => if is_space c then lstrip r else s
  end.

(** [s.strip()] *)
Definition strip (s : string) : string := rev (lstrip (rev (lstrip s))).

(** [a or b] on strings: the first one unless it is empty. *)
Definition or_else (a b : string) : string :=
  match a with EmptyString => b | _ => a end.

(** [x or b] for an optional string [x]. *)
Definition opt_or (x : option string) (b : string) : string :=
  match x with Some a => or_else a b | None => b end.

Definition endswith_slash (s : string) : bool :=
  match rev s with String "/"%char _ => true | _ => false end.

(** [str(n)] for an integer. *)
Definition of_Z (z : Z) : string := NilZero.string_of_int (Z.to_int z).

End Str.

(* ===================================================================== *)
(** * fnmatch (library behaviour used by discovery.py and tui.py) *)
(* ===================================================================== *)

Module Fnmatch.

(** What [fnmatch.translate] turns a pattern into, element by element. *)
Inductive tok : Type :=
| TStar                                   (* `*`  *)
| TAny                                    (* `?`  *)
| TLit (c : ascii)                        (* any other character *)
| TClass (negate : bool) (body : list ascii).  (* `[seq]`, `[!seq]` *)

(** Characters up to the closing bracket and how many were consumed,
    the bracket included; [None] when the bracket is never closed. *)
Fixpoint until_rbracket (s : string) : option (list ascii * nat) :=
  match s with
  | EmptyString => None
  | String c r =>
      if Ascii.eqb c "]" then Some ([], 1%nat)
      else match until_rbracket r with
           | Some (b, n) => Some (c :: b, S n)
           | None => None
           end
  end.

(** The text after an opening bracket: optional `!`, an optional literal
    `]` in first position, then everything up to the next `]`. *)
Definition parse_class (s : string) : option (bool * list ascii * nat) :=
  let '(neg, s1, k) :=
    match s with
    | String "!"%char r => (true, r, 1%nat)
    | _ => (false, s, 0%nat)
    end in
  match s1 with
  | String "]"%char r =>
      match until_rbracket r with
      | Some (b, n) => Some (neg, "]"%char :: b, k + 1 + n)%nat
      | None => None
      end
  | _ =>
      match until_rbracket s1 with
      | Some (b, n) => Some (neg, b, k + n)%nat
      | None => None
      end
  end.

(** The scan of [translate]; [skip] counts the characters of a class that
    the index has already moved past. *)
Fixpoint translate_from (skip : nat) (pat : string) : list tok :=
  match pat with
  | EmptyString => []
  | String c r =>
      match skip with
      | S k => translate_from k r
      | O =>
          if Ascii.eqb c "*" then TStar :: translate_from 0 r
          else if Ascii.eqb c "?" then TAny :: translate_from 0 r
          else if Ascii.eqb c "[" then
            match parse_class r with
            | Some (neg, body, n) => TClass neg body :: translate_from n r
            | None => TLit c :: translate_from 0 r
            end
          else TLit c :: translate_from 0 r
      end
  end.

Definition translate (pat : string) : list tok := translate_from 0 pat.

Definition ascii_le (a b : ascii) : bool :=
  (nat_of_ascii a <=? nat_of_ascii b)%nat.

(** Membership in a bracket expression: [lo-hi] ranges and single
    characters. *)
Fixpoint class_mem (c : ascii) (body : list ascii) : bool :=
  match body with
  | lo :: "-"%char :: hi :: rest =>
      (ascii_le lo c && ascii_le c hi) || class_mem c rest
  | x :: rest => Ascii.eqb c x || class_mem c rest
  | [] => false
  end.

(** Whole-string match of the translated pattern. *)
Fixpoint matches (ts : list tok) (s : string) {struct ts} : bool :=
  match ts with
  | [] => match s with EmptyString => true | _ => false end
  | TStar :: ts' =>
      (fix star (s : string) : bool :=
         matches ts' s ||
         match s with
         | EmptyString => false
         | String _ r => star r
         end) s
  | TAny :: ts' =>
      match s with
      | String _ r => matches ts' r
      | EmptyString => false
      end
  | TLit c :: ts' =>
      match s with
      | String d r => Ascii.eqb c d && matches ts' r
      | EmptyString => false
      end
  | TClass neg body :: ts' =>
      match s with
      | String d r => xorb neg (class_mem d body) && matches ts' r
      | EmptyString => false
      end
  end.

(** [fnmatch.fnmatch(name, pat)] on a POSIX host, where
    [os.path.normcase] is the identity. *)
Definition fnmatch (name pat : string) : bool := matches (translate pat) name.

End Fnmatch.

(* ===================================================================== *)
(** * models.py *)
(* ===================================================================== *)

Record GlobalConfig : Type := {
  klipper_dir : string;
  katapult_dir : string;
  stagger_delay : Z;
  can_stagger_delay : Z
}.

Record DeviceEntry : Type := {
  key : string;
  name : string;
  mcu : string;
  serial_pattern : option string;
  flash_command : option string;
  bootloader_method : option string;
  canbus_uuid : option string;
  canbus_interface : option string;
  uf2_mount_path : option string;
  sdcard_board : option string;
  role : option string
}.

Definition is_can_device (e : DeviceEntry) : bool :=
  match canbus_uuid e with Some _ => true | None => false end.

Record DiscoveredDevice : Type := {
  path : string;
  filename : string
}.

Record FlashResult : Type := {
  fr_success : bool;
  fr_method : string;
  fr_elapsed_seconds : Z;
  fr_error_message : option string
}.

Record BatchDeviceResult : Type := {
  device_key : string;
  device_name : string;
  config_ok : bool;
  build_ok : bool;
  bootloader_ok : bool;
  flash_ok : bool;
  verify_ok : bool;
  error_message : option string;
  firmware_name : string
}.

Record BootloaderResult : Type := {
  br_success : bool;
  br_device_path : option string;
  br_error_message : option string;
  br_elapsed_seconds : Z
}.

(* ===================================================================== *)
(** * The outside world *)
(* ===================================================================== *)

(** Python exceptions that the modelled code raises, catches or lets
    through. *)
Inductive Exn : Type :=
| ServiceError (msg : string)
| DiscoveryError (msg : string)
| TimeoutExpired
| OSError (msg : string)
| EOFError
| KeyboardInterrupt
| OtherException (msg : string).

(** [isinstance(e, Exception)]: of the above only [KeyboardInterrupt]
    derives from [BaseException] directly. *)
Definition is_Exception (e : Exn) : bool :=
  match e with
  | KeyboardInterrupt => false
  | _ => true
  end.

(** [e.__class__.__name__] *)
Definition exn_name (e : Exn) : string :=
  match e with
  | ServiceError _ => "ServiceError"
  | DiscoveryError _ => "DiscoveryError"
  | TimeoutExpired => "TimeoutExpired"
  | OSError _ => "OSError"
  | EOFError => "EOFError"
  | KeyboardInterrupt => "KeyboardInterrupt"
  | OtherException _ => "Exception"
  end.

(** [str(e)] *)
Definition exn_str (e : Exn) : string :=
  match e with
  | ServiceError m | DiscoveryError m | OSError m | OtherException m => m
  | TimeoutExpired => "timed out"
  | EOFError | KeyboardInterrupt => ""
  end.

Record CompletedProcess : Type := {
  returncode : Z;
  stdout : string;
  stderr : string
}.

(** How a call of [subprocess.run] ends. *)
Inductive ProcOutcome : Type :=
| Completed (p : CompletedProcess)
| RunRaises (e : Exn).

(** How a call of [input()] ends. *)
Inductive InputOutcome : Type :=
| Line (s : string)
| InputRaises (e : Exn).

(** What the program does to, or learns from, its environment. *)
Inductive Event : Type :=
| EClock (t : Z)                                   (* time.monotonic() *)
| ESleep (ms : Z)                                  (* time.sleep *)
| EListdir (dir : string) (r : option (list string))
| EStat (what : string) (p : string) (r : bool)    (* exists / is_file / is_dir *)
| ERun (argv : list string) (r : ProcOutcome)      (* subprocess.run *)
| EInput (r : InputOutcome)                        (* input() *)
| ECopy (src dst : string) (r : option Exn)        (* shutil.copy *)
| EOut (kind : string) (text : list string)        (* out.* and print *)
| EConfirm (prompt : string) (r : bool)            (* out.confirm *)
| ERealpath (p : string) (r : string)              (* os.path.realpath *)
| ERegistryUpdate (k : string) (r : option Exn).   (* registry.update_device *)

Definition History := list Event.

(** The oracle.  The pure fields model path arithmetic and number
    formatting, which have no effect and no behaviour of interest here. *)
Record World : Type := {
  monotonic : History -> Z;
  listdir : History -> string -> option (list string);
  stat : History -> string -> string -> bool;
  run : History -> list string -> ProcOutcome;
  input : History -> InputOutcome;
  copy : History -> string -> string -> option Exn;
  confirm : History -> string -> bool;
  update_device : History -> string -> option Exn;
  getuser : string;
  expanduser : string -> string;
  resolve : string -> string;
  realpath : History -> string -> string;
  parent : string -> string;
  show_seconds : Z -> string
}.

(** ** Objects shared by reference *)

(** service.py: the object that [klipper_service_stopped] yields.  It is
    created on entry, handed to the body of the [with] statement, and
    written to again when the scope is left; the caller reads it after. *)
Record ServiceState : Type := {
  was_active : bool;
  will_restart : bool;
  restart_succeeded : option bool
}.

(** What a computation can see and change: the history of events and the
    [ServiceState] objects, addressed by number. *)
Record State : Type := {
  hist : History;
  svc_heap : nat -> ServiceState;
  svc_next : nat
}.

Definition log (s : State) (e : Event) : State :=
  {| hist := hist s ++ [e]; svc_heap := svc_heap s; svc_next := svc_next s |}.

(** ** Computations *)

Inductive Res (A : Type) : Type :=
| Ok (a : A)
| Raise (e : Exn)
| Diverge.

Arguments Ok {A} a.
Arguments Raise {A} e.
Arguments Diverge {A}.

Definition M (A : Type) : Type := State -> Res A * State.

Definition ret {A} (a : A) : M A := fun s => (Ok a, s).

Definition bind {A B} (c : M A) (k : A -> M B) : M B :=
  fun s =>
    match c s with
    | (Ok a, s') => k a s'
    | (Raise e, s') => (Raise e, s')
    | (Diverge, s') => (Diverge, s')
    end.

Definition raise {A} (e : Exn) : M A := fun s => (Raise e, s).

Definition diverge {A} : M A := fun s => (Diverge, s).

Definition emit (e : Event) : M unit := fun s => (Ok tt, log s e).

Notation "'let*' x := c 'in' k" := (bind c (fun x => k))
  (at level 10, x pattern, c at level 200, k at level 200).
Notation "c ;;; k" := (bind c (fun _ => k))
  (at level 100, k at level 200, right associativity).

(** [try: c  except <those e with handler e = Some k>: k] *)
Definition try_except {A} (c : M A) (handler : Exn -> option (M A)) : M A :=
  fun s =>
    match c s with
    | (Raise e, s') =>
        match handler e with
        | Some k => k s'
        | None => (Raise e, s')
        end
    | r => r
    end.

(** [try: c  finally: f].  The clean-up runs on return and on every
    exception; what it raises itself replaces the pending outcome. *)
Definition try_finally {A} (c : M A) (f : M unit) : M A :=
  fun s =>
    match c s with
    | (Diverge, s') => (Diverge, s')
    | (r, s') =>
        match f s' with
        | (Ok _, s'') => (r, s'')
        | (Raise e, s'') => (Raise e, s'')
        | (Diverge, s'') => (Diverge, s'')
        end
    end.

Definition when (b : bool) (c : M unit) : M unit := if b then c else ret tt.

(** An oracle answer: ask the world, record the question and the answer,
    and return or raise accordingly. *)
Definition ask {R A} (answer : History -> R) (ev : R -> Event)
    (k : R -> Res A) : M A :=
  fun s => let r := answer (hist s) in (k r, log s (ev r)).

Section Primitives.
Context (W : World).

Definition now : M Z := ask (monotonic W) EClock Ok.

Definition sleep (ms : Z) : M unit := emit (ESleep ms).

(** [os.listdir(d)]; [None] stands for the [OSError] it may raise. *)
Definition os_listdir (d : string) : M (option (list string)) :=
  ask (fun h => listdir W h d) (EListdir d) Ok.

Definition path_exists (p : string) : M bool :=
  ask (fun h => stat W h "exists" p) (EStat "exists" p) Ok.

Definition is_file (p : string) : M bool :=
  ask (fun h => stat W h "is_file" p) (EStat "is_file" p) Ok.

Definition is_dir (p : string) : M bool :=
  ask (fun h => stat W h "is_dir" p) (EStat "is_dir" p) Ok.

Definition subprocess_run (argv : list string) : M CompletedProcess :=
  ask (fun h => run W h argv) (ERun argv)
    (fun r => match r with Completed p => Ok p | RunRaises e => Raise e end).

Definition py_input : M string :=
  ask (input W) EInput
    (fun r => match r with Line l => Ok l | InputRaises e => Raise e end).

Definition shutil_copy (src dst : string) : M unit :=
  ask (fun h => copy W h src dst) (ECopy src dst)
    (fun r => match r with None => Ok tt | Some e => Raise e end).

(** [out.phase], [out.info], [out.warn], [out.error],
    [out.error_with_recovery], [out.success] and [print]: never raise. *)
Definition say (kind : string) (text : list string) : M unit :=
  emit (EOut kind text).

Definition out_confirm (prompt : string) : M bool :=
  ask (fun h => confirm W h prompt) (EConfirm prompt) Ok.

Definition os_realpath (p : string) : M string :=
  ask (fun h => realpath W h p) (ERealpath p) Ok.

Definition registry_update_device (k : string) : M unit :=
  ask (fun h => update_device W h k) (ERegistryUpdate k)
    (fun r => match r with None => Ok tt | Some e => Raise e end).

End Primitives.

(* ===================================================================== *)
(** * discovery.py *)
(* ===================================================================== *)

Definition SERIAL_BY_ID : string := "/dev/serial/by-id".

Definition _prefix_variants (pattern : string) : list string :=
  let lower := Str.lower pattern in
  let klipper_prefix := "usb-klipper_" in
  let katapult_prefix := "usb-katapult_" in
  if Str.startswith lower "usb-klipper_" then
    let alt := katapult_prefix +:+ Str.drop (String.length klipper_prefix) pattern in
    [pattern; alt]
  else if Str.startswith lower "usb-katapult_" then
    let alt := "usb-Klipper_" +:+ Str.drop (String.length katapult_prefix) pattern in
    [pattern; alt]
  else [pattern].

(** [any(fnmatch.fnmatch(name, v) for v in variants)] *)
Definition any_variant_matches (name : string) (variants : list string) : bool :=
  existsb (Fnmatch.fnmatch name) variants.

Definition match_devices (pattern : string) (devices : list DiscoveredDevice)
  : list DiscoveredDevice :=
  let variants := _prefix_variants pattern in
  List.filter (fun device => any_variant_matches (filename device) variants) devices.

Definition match_device (pattern : string) (devices : list DiscoveredDevice)
  : option DiscoveredDevice :=
  match match_devices pattern devices with
  | d :: _ => Some d
  | [] => None
  end.

(** Does [s], from its first character, read [-if\d+] and then end, or end
    after one final newline (Python's [$])?  The answer carries what is left
    over after the match: nothing, or that newline. *)
Fixpoint digits_to_end (s : string) : option string :=
  match s with
  | EmptyString => Some EmptyString
  | String c r =>
      if Str.is_digit c then digits_to_end r
      else if Ascii.eqb c "010" then
        match r with EmptyString => Some s | _ => None end
      else None
  end.

Definition if_suffix_here (s : string) : option string :=
  match s with
  | String "-"%char (String "i"%char (String "f"%char (String d r))) =>
      if Str.is_digit d then digits_to_end r else None
  | _ => None
  end.

(** [re.sub(r"-if\d+$", "", filename)]: the leftmost match is removed. *)
Fixpoint strip_if_suffix (s : string) : string :=
  match if_suffix_here s with
  | Some rest => rest
  | None =>
      match s with
      | EmptyString => EmptyString
      | String c r => String c (strip_if_suffix r)
      end
  end.

Definition generate_serial_pattern (filename : string) : string :=
  let base := strip_if_suffix filename in
  base +:+ "*".

(* ===================================================================== *)
(** * safety.py *)
(* ===================================================================== *)

Definition should_restart_service (was_active : bool) : bool := was_active.

(** [os.path.join(a, b)] *)
Definition path_join (a b : string) : string :=
  if Str.startswith b "/" then b
  else match a with
       | EmptyString => b
       | _ => if Str.endswith_slash a then a +:+ b else a +:+ "/" +:+ b
       end.

Section Safety.
Context (W : World).

Definition discover_python_path (venv_dir : string) : M (option string) :=
  let candidate := path_join (path_join venv_dir "bin") "python3" in
  let* ok := is_file W candidate in
  if ok then ret (Some candidate) else ret None.

End Safety.

(* ===================================================================== *)
(** * bootloader.py *)
(* ===================================================================== *)

Definition TIMEOUT_BOOTLOADER_CMD : Z := 10.
Definition TIMEOUT_REENUMERATION : Z := 10000.
Definition POLL_INTERVAL : Z := 1000.
Definition SERIAL_DIR : string := "/dev/serial/by-id".
Definition DEFAULT_MOONRAKER_VENV : string := "~/moonraker-env".

(** The longest prefix of [s] whose characters satisfy [p], and the rest. *)
Fixpoint span (p : ascii -> bool) (s : string) : string * string :=
  match s with
  | EmptyString => (EmptyString, EmptyString)
  | String c r =>
      if p c then let '(a, b) := span p r in (String c a, b)
      else (EmptyString, s)
  end.

(** [_SIGNATURE_RE] matched at the first character of [s]:
    [usb-(?:Klipper|katapult)_([a-zA-Z0-9]+)_([A-Fa-f0-9]+)].
    Both groups are greedy and what follows the first one is not an
    alphanumeric character, so each group is a longest run. *)
Definition signature_here (s : string) : option (string * string) :=
  let after :=
    if Str.startswith s "usb-Klipper_" then Some (Str.drop 12 s)
    else if Str.startswith s "usb-katapult_" then Some (Str.drop 13 s)
    else None in
  match after with
  | None => None
  | Some r =>
      let '(g1, r1) := span Str.is_alnum r in
      match g1, r1 with
      | String _ _, String "_"%char r2 =>
          let '(g2, _) := span Str.is_hex r2 in
          match g2 with
          | String _ _ => Some (g1, g2)
          | EmptyString => None
          end
      | _, _ => None
      end
  end.

(** [_SIGNATURE_RE.search]: the leftmost position where it matches. *)
Fixpoint signature_search (s : string) : option (string * string) :=
  match signature_here s with
  | Some g => Some g
  | None =>
      match s with
      | EmptyString => None
      | String _ r => signature_search r
      end
  end.

Definition extract_device_signature (filename : string) : option (string * string) :=
  match signature_search filename with
  | None => None
  | Some (g1, g2) => Some (Str.lower g1, g2)
  end.

(** [sig is not None and original_sig is not None and sig == original_sig] *)
Definition same_signature (sig original_sig : option (string * string)) : bool :=
  match sig, original_sig with
  | Some (a, b), Some (c, d) => String.eqb a c && String.eqb b d
  | _, _ => false
  end.

Definition failed (msg : string) : BootloaderResult :=
  {| br_success := false; br_device_path := None;
     br_error_message := Some msg; br_elapsed_seconds := 0 |}.

Definition entered (p : option string) : BootloaderResult :=
  {| br_success := true; br_device_path := p;
     br_error_message := None; br_elapsed_seconds := 0 |}.

Definition with_elapsed (r : BootloaderResult) (t : Z) : BootloaderResult :=
  {| br_success := br_success r; br_device_path := br_device_path r;
     br_error_message := br_error_message r; br_elapsed_seconds := t |}.

(** [repr] of a string without quotes or backslashes in it. *)
Definition py_repr (s : string) : string := "'" +:+ s +:+ "'".

(** The first name in the listing with the original signature. *)
Fixpoint first_with_signature (original_sig : option (string * string))
    (filenames : list string) : option string :=
  match filenames with
  | [] => None
  | fname :: rest =>
      if same_signature (extract_device_signature fname) original_sig
      then Some fname
      else first_with_signature original_sig rest
  end.

(** In the handlers [out] tells whether an output object was passed
    ([out is not None]); [stagger] is [stagger_delay]. *)
Section Bootloader.
Context (W : World).

Definition _get_klippy_env_python (klipper_dir : string) : M string :=
  let klipper_path := resolve W (expanduser W klipper_dir) in
  let python3 := parent W klipper_path +:+ "/klippy-env/bin/python3" in
  let* ok := is_file W python3 in
  if ok then ret python3 else ret "python3".

Definition _get_moonraker_env_python (klipper_dir : string) : M string :=
  let klipper_path := resolve W (expanduser W klipper_dir) in
  let moonraker_env := parent W klipper_path +:+ "/moonraker-env" in
  let* discovered := discover_python_path W moonraker_env in
  match discovered with
  | Some p => ret p
  | None =>
      let default_venv := expanduser W DEFAULT_MOONRAKER_VENV in
      let* discovered := discover_python_path W default_venv in
      ret (match discovered with Some p => p | None => "python3" end)
  end.

(** The default [scan_fn]: the listing, or nothing when it cannot be
    read. *)
Definition default_scan_fn : M (list string) :=
  let* r := os_listdir W SERIAL_DIR in
  ret (match r with Some names => names | None => [] end).

(** Phase 1 of [_poll_for_reenumeration].  [true]: the loop was left by
    [break]; [false]: its [else] branch ran. *)
Fixpoint wait_disappear (fuel : nat) (scan_fn : M (list string))
    (original_filename : string) (deadline interval : Z) : M bool :=
  match fuel with
  | O => diverge
  | S fuel' =>
      let* t := now W in
      if (t <? deadline)%Z then
        let* filenames := scan_fn in
        if negb (Str.mem original_filename filenames) then ret true
        else
          when (0 <? interval)%Z (sleep interval) ;;;
          wait_disappear fuel' scan_fn original_filename deadline interval
      else ret false
  end.

(** Phase 2 of [_poll_for_reenumeration]. *)
Fixpoint wait_reappear (fuel : nat) (scan_fn : M (list string))
    (original_sig : option (string * string)) (deadline interval : Z)
  : M (option string) :=
  match fuel with
  | O => diverge
  | S fuel' =>
      let* t := now W in
      if (t <? deadline)%Z then
        let* filenames := scan_fn in
        match first_with_signature original_sig filenames with
        | Some fname => ret (Some (path_join SERIAL_DIR fname))
        | None =>
            when (0 <? interval)%Z (sleep interval) ;;;
            wait_reappear fuel' scan_fn original_sig deadline interval
        end
      else ret None
  end.

Definition _poll_for_reenumeration (fuel : nat) (original_path serial_pattern : string)
    (timeout interval : Z) (scan_fn : M (list string)) : M (option string) :=
  let original_filename := Str.basename original_path in
  let original_sig := extract_device_signature original_filename in
  let* t0 := now W in
  let deadline := (t0 + timeout)%Z in
  let* gone := wait_disappear fuel scan_fn original_filename deadline interval in
  if gone then wait_reappear fuel scan_fn original_sig deadline interval
  else ret None.

Definition pattern_of (e : DeviceEntry) : string :=
  match serial_pattern e with Some p => p | None => "" end.

Definition _enter_none (device_path : string) (device_entry : DeviceEntry)
    (klipper_dir katapult_dir : string) (stagger : Z) (out : bool)
  : M BootloaderResult :=
  let* ok := path_exists W device_path in
  if negb ok then ret (failed ("Device not found: " +:+ device_path))
  else ret (entered (Some device_path)).

(** What the three polling handlers do once the mode change was issued. *)
Definition poll_and_settle (fuel : nat) (device_path : string)
    (device_entry : DeviceEntry) (stagger : Z) (how : string) : M BootloaderResult :=
  let* new_path :=
    _poll_for_reenumeration fuel device_path (pattern_of device_entry)
      TIMEOUT_REENUMERATION POLL_INTERVAL default_scan_fn in
  match new_path with
  | None =>
      ret (failed ("Device did not re-enumerate after " +:+ how +:+ " bootloader entry"))
  | Some p =>
      when (0 <? stagger)%Z (sleep stagger) ;;;
      ret (entered (Some p))
  end.

Definition _enter_usb (fuel : nat) (device_path : string) (device_entry : DeviceEntry)
    (klipper_dir katapult_dir : string) (stagger : Z) (out : bool)
  : M BootloaderResult :=
  let* python_path := _get_klippy_env_python klipper_dir in
  let klipper_path := resolve W (expanduser W klipper_dir) in
  let scripts_dir := klipper_path +:+ "/scripts" in
  let script :=
    "import sys; sys.path.insert(0, " +:+ py_repr scripts_dir +:+ "); "
    +:+ "from flash_usb import enter_bootloader; "
    +:+ "enter_bootloader(" +:+ py_repr device_path +:+ ")" in
  let* early :=
    try_except
      (subprocess_run W [python_path; "-c"; script] ;;; ret None)
      (fun e =>
         match e with
         | TimeoutExpired =>
             Some (ret (Some (failed "USB bootloader entry timed out (10s)")))
         | OSError exc =>
             Some (ret (Some (failed ("Failed to run USB bootloader entry: " +:+ exc))))
         | _ => None
         end) in
  match early with
  | Some r => ret r
  | None => poll_and_settle fuel device_path device_entry stagger "USB"
  end.

Definition _enter_serial (fuel : nat) (device_path : string) (device_entry : DeviceEntry)
    (klipper_dir katapult_dir : string) (stagger : Z) (out : bool)
  : M BootloaderResult :=
  let katapult_path := expanduser W katapult_dir in
  let flashtool := katapult_path +:+ "/scripts/flashtool.py" in
  let* present := path_exists W flashtool in
  if negb present then
    ret (failed ("Katapult flashtool not found: " +:+ flashtool))
  else
    let* python_path := _get_moonraker_env_python klipper_dir in
    let* early :=
      try_except
        (subprocess_run W [python_path; flashtool; "-r"; "-d"; device_path] ;;; ret None)
        (fun e =>
           match e with
           | TimeoutExpired =>
               Some (ret (Some (failed "Serial bootloader entry timed out (10s)")))
           | OSError exc =>
               Some (ret (Some (failed ("Failed to run flashtool.py: " +:+ exc))))
           | _ => None
           end) in
    match early with
    | Some r => ret r
    | None => poll_and_settle fuel device_path device_entry stagger "serial"
    end.

Definition _enter_manual (fuel : nat) (device_path : string) (device_entry : DeviceEntry)
    (klipper_dir katapult_dir : string) (stagger : Z) (out : bool)
  : M BootloaderResult :=
  when out
    (say "info" ["Manual Bootloader";
                 "Put '" +:+ name device_entry +:+ "' into bootloader mode, then press Enter."]) ;;;
  let* early :=
    try_except
      (py_input W ;;; ret None)
      (fun e =>
         match e with
         | EOFError | KeyboardInterrupt =>
             Some (ret (Some (failed "Manual bootloader entry cancelled")))
         | _ => None
         end) in
  match early with
  | Some r => ret r
  | None =>
      if decide (flash_command device_entry = Some "uf2_mount") then
        ret (entered None)
      else poll_and_settle fuel device_path device_entry stagger "manual"
  end.

Definition _enter_can (device_path : string) (device_entry : DeviceEntry)
    (klipper_dir katapult_dir : string) (stagger : Z) (out : bool)
  : M BootloaderResult :=
  let katapult_path := expanduser W katapult_dir in
  let flashtool := katapult_path +:+ "/scripts/flashtool.py" in
  let* present := path_exists W flashtool in
  if negb present then
    ret (failed ("Katapult flashtool not found: " +:+ flashtool))
  else
    let interface := Str.opt_or (canbus_interface device_entry) "can0" in
    let uuid := Str.opt_or (canbus_uuid device_entry) "" in
    let* r :=
      try_except
        (let* p := subprocess_run W ["python3"; flashtool; "-i"; interface; "-r"; "-u"; uuid] in
         ret (inl p))
        (fun e =>
           match e with
           | TimeoutExpired =>
               Some (ret (inr (failed "CAN bootloader entry timed out (10s)")))
           | OSError exc =>
               Some (ret (inr (failed ("Failed to run flashtool.py: " +:+ exc))))
           | _ => None
           end) in
    match r with
    | inr early => ret early
    | inl result =>
        if negb (returncode result =? 0)%Z then
          let error_detail :=
            Str.or_else (Str.strip (stderr result)) (Str.strip (stdout result)) in
          ret (failed ("CAN bootloader entry failed: " +:+ error_detail))
        else
          when (0 <? stagger)%Z (sleep stagger) ;;;
          ret (entered None)
    end.

(** The dispatch table of [enter_bootloader]. *)
Definition dispatch (fuel : nat) (method : string)
  : option (string -> DeviceEntry -> string -> string -> Z -> bool -> M BootloaderResult) :=
  if decide (method = "usb") then Some (_enter_usb fuel)
  else if decide (method = "serial") then Some (_enter_serial fuel)
  else if decide (method = "manual") then Some (_enter_manual fuel)
  else if decide (method = "none") then Some _enter_none
  else if decide (method = "can") then Some _enter_can
  else None.

Definition enter_bootloader (fuel : nat) (device_path : string)
    (device_entry : DeviceEntry) (klipper_dir katapult_dir : string)
    (stagger : Z) (out : bool) : M BootloaderResult :=
  let* start := now W in
  let method := Str.opt_or (bootloader_method device_entry) "none" in
  match dispatch fuel method with
  | None =>
      let* t := now W in
      ret (with_elapsed (failed ("Unknown bootloader method: " +:+ method)) (t - start))
  | Some handler =>
      let* result := handler device_path device_entry klipper_dir katapult_dir stagger out in
      let* result :=
        if negb (br_success result) && out && negb (String.eqb method "none") then
          let* should_retry := out_confirm W "Device not found. Try again?" in
          if should_retry then
            handler device_path device_entry klipper_dir katapult_dir stagger out
          else ret result
        else ret result in
      let* t := now W in
      ret (with_elapsed result (t - start))
  end.

End Bootloader.

(* ===================================================================== *)
(** * flasher.py *)
(* ===================================================================== *)

Definition TIMEOUT_FLASH : Z := 60000.
Definition TIMEOUT_CAN_FLASH : Z := 120000.
Definition CAN_RETRY_ATTEMPTS : nat := 3.

Definition flash_ok_result (method : string) (elapsed : Z) : FlashResult :=
  {| fr_success := true; fr_method := method;
     fr_elapsed_seconds := elapsed; fr_error_message := None |}.

Definition flash_failure (method : string) (elapsed : Z) (msg : string) : FlashResult :=
  {| fr_success := false; fr_method := method;
     fr_elapsed_seconds := elapsed; fr_error_message := Some msg |}.

(** A time-out in whole seconds, as the messages print it. *)
Definition seconds (ms : Z) : string := Str.of_Z (ms / 1000).

(** How one pass through the body of the retry loop of
    [flash_katapult_can] ends. *)
Inductive Attempt : Type :=
| Returned (r : FlashResult)      (* return from inside the loop *)
| Break (last_error : string)     (* break *)
| Next (last_error : string).     (* fall through to the pause *)

Section Flasher.
Context (W : World).

(** The shape shared by the three strategies that run one command.
    [argv] is run once; the four endings are told apart as the source
    does, each strategy with its own messages. *)
Definition run_once (method : string) (start timeout : Z) (argv : list string)
    (nonzero_msg timeout_msg : string) (oserror_msg : string -> string)
  : M FlashResult :=
  try_except
    (let* result := subprocess_run W argv in
     let* t := now W in
     let elapsed := (t - start)%Z in
     if (returncode result =? 0)%Z then ret (flash_ok_result method elapsed)
     else ret (flash_failure method elapsed nonzero_msg))
    (fun e =>
       match e with
       | TimeoutExpired => Some (ret (flash_failure method timeout timeout_msg))
       | OSError exc =>
           Some (let* t := now W in
                 ret (flash_failure method (t - start) (oserror_msg exc)))
       | _ => None
       end).

Definition flash_katapult (device_path firmware_path katapult_dir klipper_dir : string)
    (timeout : Z) : M FlashResult :=
  let* start := now W in
  let flashtool := expanduser W katapult_dir +:+ "/scripts/flashtool.py" in
  let* present := path_exists W flashtool in
  if negb present then
    let* t := now W in
    ret (flash_failure "katapult" (t - start)
           ("Katapult flashtool not found: " +:+ flashtool))
  else
    try_except
      (let* python_path := _get_klippy_env_python W klipper_dir in
       let* result :=
         subprocess_run W [python_path; flashtool; "-d"; device_path; "-f"; firmware_path] in
       let* t := now W in
       let elapsed := (t - start)%Z in
       if (returncode result =? 0)%Z then ret (flash_ok_result "katapult" elapsed)
       else ret (flash_failure "katapult" elapsed
                   "flashtool.py returned non-zero exit code"))
      (fun e =>
         match e with
         | TimeoutExpired =>
             Some (ret (flash_failure "katapult" timeout
                          ("Flash timeout (" +:+ seconds timeout +:+ "s)")))
         | OSError exc =>
             Some (let* t := now W in
                   ret (flash_failure "katapult" (t - start)
                          ("Failed to run flashtool.py: " +:+ exc)))
         | _ => None
         end).

Definition flash_make (device_path klipper_dir : string) (timeout : Z) : M FlashResult :=
  let* start := now W in
  run_once "make_flash" start timeout
    ["make"; "FLASH_DEVICE=" +:+ device_path; "flash"]
    "make flash returned non-zero exit code"
    ("Flash timeout (" +:+ seconds timeout +:+ "s)")
    (fun exc => "Failed to run make flash: " +:+ exc).

Definition flash_sdcard (device_path firmware_path klipper_dir board_name : string)
    (timeout : Z) : M FlashResult :=
  let* start := now W in
  if decide (board_name = "") then
    let* t := now W in
    ret (flash_failure "flash_sdcard" (t - start)
           "flash_sdcard requires board_name (sdcard_board not configured)")
  else
    let klipper_path := expanduser W klipper_dir in
    let script := klipper_path +:+ "/scripts/flash-sdcard.sh" in
    let* present := path_exists W script in
    if negb present then
      let* t := now W in
      ret (flash_failure "flash_sdcard" (t - start)
             ("flash-sdcard.sh not found: " +:+ script))
    else
      let failed_for := "flash_sdcard failed for board " +:+ board_name +:+ ": " in
      run_once "flash_sdcard" start timeout
        [script; device_path; board_name]
        (failed_for +:+ "non-zero exit code")
        (failed_for +:+ "timeout (" +:+ seconds timeout +:+ "s)")
        (fun exc => failed_for +:+ exc).

(** The first directory of [paths] that exists. *)
Fixpoint first_dir (paths : list string) : M (option string) :=
  match paths with
  | [] => ret None
  | p :: rest =>
      let* ok := is_dir W p in
      if ok then ret (Some p) else first_dir rest
  end.

Definition _find_uf2_mount (uf2_mount_path : option string) (username : string)
  : M (option string) :=
  let* explicit :=
    match uf2_mount_path with
    | Some p =>
        if decide (p = "") then ret None
        else let* ok := is_dir W p in ret (if ok then Some p else None)
    | None => ret None
    end in
  match explicit with
  | Some p => ret (Some p)
  | None =>
      let labels := ["RPI-RP2"; "RP2040"] in
      let paths :=
        flat_map (fun label =>
                    ["/media/" +:+ username +:+ "/" +:+ label;
                     "/media/" +:+ label;
                     "/run/media/" +:+ username +:+ "/" +:+ label;
                     "/mnt/" +:+ label]) labels in
      first_dir paths
  end.

(** The polling loop of [flash_uf2]: the mount point, or [None] when the
    deadline passed first. *)
Fixpoint wait_uf2_mount (fuel : nat) (mount_path : option string) (username : string)
    (deadline : Z) : M (option string) :=
  match fuel with
  | O => diverge
  | S fuel' =>
      let* t := now W in
      if (t <? deadline)%Z then
        let* uf2_mount := _find_uf2_mount mount_path username in
        match uf2_mount with
        | Some m => ret (Some m)
        | None => sleep 500 ;;; wait_uf2_mount fuel' mount_path username deadline
        end
      else ret None
  end.

Definition flash_uf2 (fuel : nat) (firmware_path : string) (mount_path : option string)
    (timeout : Z) : M FlashResult :=
  let* start := now W in
  let username := getuser W in
  let* t0 := now W in
  let deadline := (t0 + Z.max 0 timeout)%Z in
  let* uf2_mount := wait_uf2_mount fuel mount_path username deadline in
  match uf2_mount with
  | None =>
      let* t := now W in
      ret (flash_failure "uf2_mount" (t - start)
             "UF2 mass storage not found (RPI-RP2 not mounted)")
  | Some uf2_mount =>
      let* present := is_file W firmware_path in
      if negb present then
        let* t := now W in
        ret (flash_failure "uf2_mount" (t - start)
               ("Firmware file not found: " +:+ firmware_path))
      else
        try_except
          (let filename := Str.basename firmware_path in
           let dest_path := path_join uf2_mount filename in
           shutil_copy W firmware_path dest_path ;;;
           say "print" ["Copied " +:+ filename +:+ " to " +:+ uf2_mount] ;;;
           let* t := now W in
           ret (flash_ok_result "uf2_mount" (t - start)))
          (fun e =>
             match e with
             | OSError exc =>
                 Some (let* t := now W in
                       ret (flash_failure "uf2_mount" (t - start)
                              ("Failed to copy firmware to UF2 mount: " +:+ exc)))
             | _ => None
             end)
  end.

(** The body of the [for attempt in range(1, max_retries + 1)] loop, up
    to the pause. *)
Definition can_attempt (start timeout : Z) (argv : list string) : M Attempt :=
  try_except
    (let* result := subprocess_run W argv in
     if (returncode result =? 0)%Z then
       let* t := now W in
       ret (Returned (flash_ok_result "katapult_can" (t - start)))
     else ret (Next "flashtool.py returned non-zero exit code"))
    (fun e =>
       match e with
       | TimeoutExpired =>
           Some (ret (Next ("CAN flash timeout (" +:+ seconds timeout +:+ "s)")))
       | OSError exc =>
           Some (ret (Break ("Failed to run flashtool.py: " +:+ exc)))
       | _ => None
       end).

(** The loop over the attempt numbers still to come; [inl] is a return
    from inside the loop, [inr] the value of [last_error] when the loop
    is over. *)
Fixpoint can_attempts (attempts : list nat) (max_retries : nat) (start timeout : Z)
    (argv : list string) (last_error : string) : M (FlashResult + string) :=
  match attempts with
  | [] => ret (inr last_error)
  | attempt :: rest =>
      let* a := can_attempt start timeout argv in
      match a with
      | Returned r => ret (inl r)
      | Break e => ret (inr e)
      | Next e =>
          when (attempt <? max_retries)%nat (sleep 2000) ;;;
          can_attempts rest max_retries start timeout argv e
      end
  end.

Definition flash_katapult_can (uuid interface firmware_path katapult_dir : string)
    (timeout : Z) (max_retries : nat) : M FlashResult :=
  let* start := now W in
  let flashtool := expanduser W katapult_dir +:+ "/scripts/flashtool.py" in
  let* present := path_exists W flashtool in
  if negb present then
    let* t := now W in
    ret (flash_failure "katapult_can" (t - start)
           ("Katapult flashtool not found: " +:+ flashtool))
  else
    let argv := ["python3"; flashtool; "-i"; interface; "-u"; uuid; "-f"; firmware_path] in
    let* r := can_attempts (seq 1 max_retries) max_retries start timeout argv "" in
    match r with
    | inl result => ret result
    | inr last_error =>
        let* t := now W in
        ret (flash_failure "katapult_can" (t - start)
               (last_error +:+ " (after " +:+ Str.of_Z (Z.of_nat max_retries)
                +:+ " attempts)"))
    end.

Definition execute_flash (fuel : nat) (entry : DeviceEntry)
    (device_path firmware_path : string) (config : GlobalConfig) (timeout : Z)
  : M FlashResult :=
  match flash_command entry with
  | None =>
      ret (flash_failure "unknown" 0 "No flash_command configured for device")
  | Some flash_command =>
      if decide (flash_command = "katapult") then
        flash_katapult device_path firmware_path
          (katapult_dir config) (klipper_dir config) timeout
      else if decide (flash_command = "make_flash") then
        if is_can_device entry then
          ret (flash_failure "make_flash" 0
                 "CAN devices cannot use make_flash; configure Katapult CAN")
        else flash_make device_path (klipper_dir config) timeout
      else if decide (flash_command = "flash_sdcard") then
        flash_sdcard device_path firmware_path (klipper_dir config)
          (Str.opt_or (sdcard_board entry) "") 120000
      else if decide (flash_command = "uf2_mount") then
        flash_uf2 fuel firmware_path (uf2_mount_path entry) 15000
      else if decide (flash_command = "katapult_can") then
        if negb (is_can_device entry) then
          ret (flash_failure "katapult_can" 0
                 "katapult_can requires a CAN device UUID configuration")
        else
          let uuid := Str.strip (Str.opt_or (canbus_uuid entry) "") in
          if decide (uuid = "") then
            ret (flash_failure "katapult_can" 0
                   "katapult_can requires a non-empty CAN UUID")
          else
            flash_katapult_can uuid (Str.opt_or (canbus_interface entry) "can0")
              firmware_path (katapult_dir config) TIMEOUT_CAN_FLASH CAN_RETRY_ATTEMPTS
      else
        ret (flash_failure flash_command 0
               ("Unknown flash command: " +:+ flash_command))
  end.

End Flasher.

(* ===================================================================== *)
(** * discovery.py: scanning *)
(* ===================================================================== *)

(** [sorted] on names: insertion into an ordered list. *)
Fixpoint insert_sorted (x : string) (l : list string) : list string :=
  match l with
  | [] => [x]
  | y :: r => if String.leb x y then x :: l else y :: insert_sorted x r
  end.

Definition sorted (l : list string) : list string :=
  fold_right insert_sorted [] l.

Section Scanning.
Context (W : World).

Definition scan_serial_devices : M (list DiscoveredDevice) :=
  let* ok := is_dir W SERIAL_BY_ID in
  if negb ok then ret []
  else
    let* r := os_listdir W SERIAL_BY_ID in
    match r with
    | None => raise (OSError "iterdir")
    | Some names =>
        ret (map (fun entry =>
                    {| path := SERIAL_BY_ID +:+ "/" +:+ entry; filename := entry |})
                 (sorted names))
    end.

End Scanning.

(* ===================================================================== *)
(** * tui.py: post-flash verification *)
(* ===================================================================== *)

(** The 3-tuple [(success, device_path, error_reason)]. *)
Definition Verdict : Type := bool * option string * option string.

(** [if p:] for an optional string. *)
Definition truthy (p : option string) : bool :=
  match p with
  | Some EmptyString | None => false
  | Some _ => true
  end.

Section Tui.
Context (W : World).

(** The [for device in devices] loop of one poll: [inl] is a [return]
    from inside it, [inr] carries [found_katapult] and
    [last_katapult_path] out of it.  [out] tells whether an output
    object was passed. *)
Fixpoint inspect_devices (serial_pattern : option string) (out : bool)
    (devices : list DiscoveredDevice) (found_katapult : bool)
    (last_katapult_path : option string)
  : M (Verdict + bool * option string) :=
  match devices with
  | [] => ret (inr (found_katapult, last_katapult_path))
  | device :: rest =>
      match serial_pattern with
      | None => raise (OtherException "AttributeError")
      | Some pattern =>
          let variants := _prefix_variants pattern in
          if any_variant_matches (filename device) variants then
            let filename_lower := Str.lower (filename device) in
            if Str.startswith filename_lower "usb-klipper_" then
              when (negb out) (say "print" [""]) ;;;
              ret (inl (true, Some (path device), None))
            else if Str.startswith filename_lower "usb-katapult_" then
              inspect_devices serial_pattern out rest true (Some (path device))
            else
              when (negb out) (say "print" [""]) ;;;
              ret (inl (false, Some (path device),
                        Some ("Unexpected device prefix: " +:+ filename device)))
          else inspect_devices serial_pattern out rest found_katapult last_katapult_path
      end
  end.

(** The [while time.monotonic() - start < timeout] loop. *)
Fixpoint poll_devices (fuel : nat) (serial_pattern : option string)
    (timeout interval : Z) (out : bool) (start last_dot_time : Z)
    (last_katapult_path : option string) : M Verdict :=
  match fuel with
  | O => diverge
  | S fuel' =>
      let* t := now W in
      if (t - start <? timeout)%Z then
        let* now_ := now W in
        let dot := negb out && (2000 <=? now_ - last_dot_time)%Z in
        when dot (say "print" ["."]) ;;;
        let last_dot_time := if dot then now_ else last_dot_time in
        let* devices := scan_serial_devices W in
        let* r := inspect_devices serial_pattern out devices false last_katapult_path in
        match r with
        | inl verdict => ret verdict
        | inr (found_katapult, last_katapult_path) =>
            let last_katapult_path :=
              if negb found_katapult && truthy last_katapult_path then None
              else last_katapult_path in
            sleep interval ;;;
            poll_devices fuel' serial_pattern timeout interval out start
              last_dot_time last_katapult_path
        end
      else
        when (negb out) (say "print" [""]) ;;;
        if truthy last_katapult_path then
          ret (false, last_katapult_path, Some "Device in bootloader mode (katapult)")
        else
          ret (false, None,
               Some ("Timeout after " +:+ seconds timeout +:+ "s waiting for device"))
  end.

Definition wait_for_device (fuel : nat) (serial_pattern : option string)
    (timeout interval : Z) (out : bool) : M Verdict :=
  let* start := now W in
  let last_dot_time := start in
  let last_katapult_path := None in
  when (negb out) (say "print" ["Verifying"]) ;;;
  poll_devices fuel serial_pattern timeout interval out start
    last_dot_time last_katapult_path.

End Tui.

(* ===================================================================== *)
(** * service.py *)
(* ===================================================================== *)

Definition TIMEOUT_SERVICE : Z := 30000.

(** errors.py: the head line of [format_error]; context and recovery text
    are laid out below it and are not modelled. *)
Definition format_error (error_type message : string) : string :=
  "[FAIL] " +:+ error_type +:+ ": " +:+ message.

Definition service_stop_failed : string * string :=
  ("Service error", "Failed to stop Klipper service").

Definition service_start_failed : string * string :=
  ("Service error", "Failed to restart Klipper service after flash").

Definition systemctl_is_active : list string := ["systemctl"; "is-active"; "klipper"].
Definition systemctl_stop : list string := ["sudo"; "-n"; "systemctl"; "stop"; "klipper"].
Definition systemctl_start : list string := ["sudo"; "-n"; "systemctl"; "start"; "klipper"].

(** [state.restart_succeeded = b] *)
Definition set_restart_succeeded (b : bool) (st : ServiceState) : ServiceState :=
  {| was_active := was_active st; will_restart := will_restart st;
     restart_succeeded := Some b |}.

(** [ServiceState(...)]: a new object, and the reference to it. *)
Definition new_service_state (st : ServiceState) : M nat :=
  fun s =>
    let r := svc_next s in
    (Ok r, {| hist := hist s;
              svc_heap := fun i => if decide (i = r) then st else svc_heap s i;
              svc_next := S r |}).

(** Reading the object behind a reference. *)
Definition read_service_state (r : nat) : M ServiceState :=
  fun s => (Ok (svc_heap s r), s).

(** Updating the object behind a reference in place. *)
Definition modify_service_state (r : nat) (f : ServiceState -> ServiceState) : M unit :=
  fun s =>
    (Ok tt, {| hist := hist s;
               svc_heap := fun i => if decide (i = r) then f (svc_heap s i) else svc_heap s i;
               svc_next := svc_next s |}).

Section Service.
Context (W : World).

Definition _is_service_active : M bool :=
  try_except
    (let* result := subprocess_run W systemctl_is_active in
     ret (String.eqb (Str.strip (stdout result)) "active"))
    (fun e => if is_Exception e then Some (ret true) else None).

Definition _stop_klipper (timeout : Z) : M unit :=
  try_except
    (let* result := subprocess_run W systemctl_stop in
     if negb (returncode result =? 0)%Z then
       raise (ServiceError (format_error (fst service_stop_failed)
                              (snd service_stop_failed)))
     else ret tt)
    (fun e =>
       match e with
       | TimeoutExpired =>
           Some (raise (ServiceError
                          (format_error (fst service_stop_failed)
                             ("Timeout (" +:+ seconds timeout
                              +:+ "s) stopping Klipper service"))))
       | _ => None
       end).

Definition verify_passwordless_sudo : M bool :=
  try_except
    (let* result := subprocess_run W ["sudo"; "-n"; "true"] in
     ret (returncode result =? 0)%Z)
    (fun e => if is_Exception e then Some (ret false) else None).

Definition acquire_sudo : M bool :=
  let* first :=
    try_except
      (let* result := subprocess_run W ["sudo"; "-v"] in
       ret (returncode result =? 0)%Z)
      (fun e => if is_Exception e then Some (ret false) else None) in
  if negb first then ret false
  else
    try_except
      (let* check := subprocess_run W ["sudo"; "-n"; "true"] in
       ret (returncode check =? 0)%Z)
      (fun e => if is_Exception e then Some (ret false) else None).

(** The report of [_start_klipper]: through [out] when there is one,
    printed otherwise. *)
Definition report_start_failure (out : bool) (message : string) : M unit :=
  if out then say "error_with_recovery" [fst service_start_failed; message]
  else say "print" [format_error (fst service_start_failed) message].

Definition _start_klipper (timeout : Z) (out : bool) : M bool :=
  try_except
    (let* result := subprocess_run W systemctl_start in
     if negb (returncode result =? 0)%Z then
       report_start_failure out (snd service_start_failed) ;;;
       ret false
     else ret true)
    (fun e =>
       match e with
       | TimeoutExpired =>
           Some (report_start_failure out
                   ("Timeout (" +:+ seconds timeout +:+ "s) starting Klipper service") ;;;
                 ret false)
       | _ =>
           Some (let detail := Str.or_else (Str.strip (exn_str e)) (exn_name e) in
                 report_start_failure out ("Error starting Klipper: " +:+ detail) ;;;
                 ret false)
       end).

(** [with klipper_service_stopped(timeout, out) as state: body state].
    What precedes [yield] runs first and may raise, in which case the
    body never runs; the body runs under [try]; the [finally] block runs
    however the body ends.  The result pairs the reference bound by [as]
    with the value of the body. *)
Definition klipper_service_stopped {A} (timeout : Z) (out : bool)
    (body : nat -> M A) : M (nat * A) :=
  let* was_active := _is_service_active in
  let will_restart := should_restart_service was_active in
  let* state :=
    new_service_state {| was_active := was_active; will_restart := will_restart;
                         restart_succeeded := None |} in
  when was_active (_stop_klipper timeout) ;;;
  try_finally
    (let* a := body state in ret (state, a))
    (if will_restart then
       let* ok := _start_klipper timeout out in
       modify_service_state state (set_restart_succeeded ok)
     else if out then
       say "phase" ["Service"; "Klipper was not running -- skipping restart"]
     else
       say "print" ["[Service] Klipper was not running -- skipping restart"]).

End Service.

(* ===================================================================== *)
(** * flash.py: the flash phase of cmd_flash *)
(* ===================================================================== *)

(** What the body of the [with] statement of [cmd_flash] leaves behind:
    [flash_result], [verified], [device_path_new], [error_reason]. *)
Definition Flashed : Type := FlashResult * bool * option string * option string.

(** [str(x)] of an optional string inside an f-string. *)
Definition show_opt (x : option string) : string :=
  match x with Some v => v | None => "None" end.

Section CmdFlash.
Context (W : World).

(** Collaborator from discovery.py.  Nothing below depends on what it
    does: it may report either way, raise, or not return. *)
Context (verify_can_device_after_flash :
           option string -> string -> string -> M (bool * option string)).

(** flasher.py *)
Definition verify_device_path (device_path : string) : M unit :=
  let* ok := path_exists W device_path in
  if negb ok then
    raise (DiscoveryError (format_error "Device disconnected"
                             "Device no longer connected after build"))
  else ret tt.

(** The body of [with klipper_service_stopped(out=out) as svc_state].
    [inl code] is a [return code] from inside the block. *)
Definition cmd_flash_guarded (fuel : nat) (entry : DeviceEntry)
    (device_path firmware_path : string) (global_config : GlobalConfig)
  : M (Z + Flashed) :=
  let* boot :=
    if decide (bootloader_method entry = Some "none") then
      say "phase" ["Bootloader"; "Skipped (method: none)"] ;;;
      ret (inr (Some device_path))
    else
      say "phase" ["Bootloader";
                   "Entering " +:+ show_opt (bootloader_method entry) +:+ " bootloader..."] ;;;
      let bootloader_stagger :=
        if is_can_device entry then can_stagger_delay global_config
        else stagger_delay global_config in
      let* boot_result :=
        enter_bootloader W fuel device_path entry (klipper_dir global_config)
          (katapult_dir global_config) bootloader_stagger true in
      if negb (br_success boot_result) then
        say "error" ["Bootloader entry failed: "
                     +:+ show_opt (br_error_message boot_result)] ;;;
        ret (inl 1%Z)
      else
        let boot_device_path := br_device_path boot_result in
        let elapsed := show_seconds W (br_elapsed_seconds boot_result) in
        (if truthy boot_device_path then
           say "phase" ["Bootloader";
                        "Entered (" +:+ elapsed +:+ "s) -- "
                        +:+ Str.basename (show_opt boot_device_path)]
         else say "phase" ["Bootloader"; "Entered (" +:+ elapsed +:+ "s)"]) ;;;
        ret (inr boot_device_path) in
  match boot with
  | inl code => ret (inl code)
  | inr boot_device_path =>
      say "phase" ["Flash"; "Flashing firmware..."] ;;;
      let flash_timeout :=
        if is_can_device entry then TIMEOUT_CAN_FLASH else TIMEOUT_FLASH in
      let* flash_result :=
        execute_flash W fuel entry (Str.opt_or boot_device_path "") firmware_path
          global_config flash_timeout in
      if fr_success flash_result then
        if is_can_device entry then
          say "phase" ["Verify"; "Querying CAN bus for device..."] ;;;
          let* (verified, error_reason) :=
            verify_can_device_after_flash (canbus_uuid entry)
              (Str.opt_or (canbus_interface entry) "can0")
              (katapult_dir global_config) in
          ret (inr (flash_result, verified, None, error_reason))
        else
          say "phase" ["Verify"; "Waiting for device to reappear..."] ;;;
          let* (verified, device_path_new, error_reason) :=
            wait_for_device W fuel (serial_pattern entry) 30000 500 true in
          ret (inr (flash_result, verified, device_path_new, error_reason))
      else
        ret (inr (flash_result, false, None, fr_error_message flash_result))
  end.

(** The [try] block of [cmd_flash]: the guarded scope, the report on
    the restart that follows it, and the [except Exception] clause.
    [inl code] is a [return code]; [inr] carries what the scope left
    behind and [service_restart_failed]. *)
Definition cmd_flash_scope (fuel : nat) (device_key : string) (entry : DeviceEntry)
    (device_path firmware_path : string) (global_config : GlobalConfig)
  : M (Z + Flashed * bool) :=
  try_except
    (let* (svc_state, r) :=
       klipper_service_stopped W TIMEOUT_SERVICE true
         (fun _ => cmd_flash_guarded fuel entry device_path firmware_path
                     global_config) in
     match r with
     | inl code => ret (inl code)
     | inr flashed =>
         let* st := read_service_state svc_state in
         if will_restart st
            && match restart_succeeded st with Some true => true | _ => false end
         then
           say "phase" ["Service"; "Klipper restarted"] ;;;
           ret (inr (flashed, false))
         else if will_restart st
                 && match restart_succeeded st with Some false => true | _ => false end
         then
           say "error_with_recovery"
             [fst service_start_failed; snd service_start_failed] ;;;
           ret (inr (flashed, true))
         else ret (inr (flashed, false))
     end)
    (fun e =>
       if is_Exception e then
         Some (say "error_with_recovery"
                 ["Flash failed"; "Flash operation error: " +:+ exn_str e] ;;;
               ret (inl 1%Z))
       else None).

(** The summary of [cmd_flash], after the [try] block. *)
Definition cmd_flash_summary (device_key : string) (entry : DeviceEntry)
    (flash_start : Z) (flashed : Flashed) (service_restart_failed : bool) : M Z :=
  let '(flash_result, verified, device_path_new, error_reason) := flashed in
  let* t := now W in
  let flash_elapsed := (t - flash_start)%Z in
  if service_restart_failed then ret 1%Z
  else if fr_success flash_result && verified then
    registry_update_device W device_key ;;;
    say "success" ["Flashed " +:+ name entry +:+ " via " +:+ fr_method flash_result
                   +:+ " in " +:+ show_seconds W flash_elapsed +:+ "s"] ;;;
    (if truthy device_path_new then
       say "phase" ["Verify"; "Device confirmed at: " +:+ show_opt device_path_new]
     else if is_can_device entry then
       say "phase" ["Verify"; "Device confirmed on CAN bus ["
                              +:+ show_opt (canbus_uuid entry) +:+ "]"]
     else ret tt) ;;;
    ret 0%Z
  else if fr_success flash_result && negb verified then
    say "warn" ["Device verification failed: " +:+ show_opt error_reason] ;;;
    (if is_can_device entry then
       say "error_with_recovery"
         ["CAN verification timeout";
          "Device " +:+ show_opt (canbus_uuid entry) +:+ " did not return on CAN bus"]
     else if truthy device_path_new then
       say "error_with_recovery" ["verification_wrong_prefix"]
     else
       say "error_with_recovery" ["verification_timeout"]) ;;;
    ret 1%Z
  else
    say "error_with_recovery"
      ["Flash failed"; "Could not flash firmware to " +:+ device_key] ;;;
    ret 1%Z.

(** [cmd_flash] from [flash_start = time.monotonic()] on. *)
Definition cmd_flash_run (fuel : nat) (device_key : string) (entry : DeviceEntry)
    (device_path firmware_path : string) (global_config : GlobalConfig) : M Z :=
  let* flash_start := now W in
  let* guarded :=
    cmd_flash_scope fuel device_key entry device_path firmware_path global_config in
  match guarded with
  | inl code => ret code
  | inr (flashed, service_restart_failed) =>
      cmd_flash_summary device_key entry flash_start flashed service_restart_failed
  end.

(** [cmd_flash] from "Phase 4: Flash" to its end: the device is known,
    the firmware is built.  The result is the exit code. *)
Definition cmd_flash (fuel : nat) (device_key : string) (entry : DeviceEntry)
    (device_path firmware_path : string) (global_config : GlobalConfig) : M Z :=
  let* connected :=
    if is_can_device entry then
      say "phase" ["Flash"; "CAN device -- skipping USB path verification"] ;;;
      ret true
    else
      say "phase" ["Flash"; "Verifying device connection..."] ;;;
      try_except
        (verify_device_path device_path ;;; ret true)
        (fun e =>
           match e with
           | DiscoveryError msg =>
               Some (say "error_with_recovery" ["Device disconnected"; msg] ;;;
                     ret false)
           | _ => None
           end) in
  if negb connected then ret 1%Z
  else
    let* active := _is_service_active W in
    let* sudo_ok :=
      if active then
        let* passwordless := verify_passwordless_sudo W in
        if negb passwordless then
          say "phase" ["Flash"; "Sudo authentication required for service management"] ;;;
          let* acquired := acquire_sudo W in
          if negb acquired then
            say "error" ["Failed to acquire sudo credentials. Cannot manage Klipper service."] ;;;
            ret false
          else ret true
        else ret true
      else ret true in
    if negb sudo_ok then ret 1%Z
    else
      let* active := _is_service_active W in
      when active (say "phase" ["Flash"; "Stopping Klipper..."]) ;;;
      cmd_flash_run fuel device_key entry device_path firmware_path global_config.

End CmdFlash.

(* ===================================================================== *)
(** * flash.py: the flash stage of cmd_flash_all *)
(* ===================================================================== *)

Definition set_error_message (msg : string) (r : BatchDeviceResult) : BatchDeviceResult :=
  {| device_key := device_key r; device_name := device_name r;
     config_ok := config_ok r; build_ok := build_ok r;
     bootloader_ok := bootloader_ok r; flash_ok := flash_ok r;
     verify_ok := verify_ok r; error_message := Some msg;
     firmware_name := firmware_name r |}.

Definition set_bootloader_ok (b : bool) (r : BatchDeviceResult) : BatchDeviceResult :=
  {| device_key := device_key r; device_name := device_name r;
     config_ok := config_ok r; build_ok := build_ok r;
     bootloader_ok := b; flash_ok := flash_ok r;
     verify_ok := verify_ok r; error_message := error_message r;
     firmware_name := firmware_name r |}.

Definition set_flash_ok (b : bool) (r : BatchDeviceResult) : BatchDeviceResult :=
  {| device_key := device_key r; device_name := device_name r;
     config_ok := config_ok r; build_ok := build_ok r;
     bootloader_ok := bootloader_ok r; flash_ok := b;
     verify_ok := verify_ok r; error_message := error_message r;
     firmware_name := firmware_name r |}.

Definition set_verify_ok (b : bool) (r : BatchDeviceResult) : BatchDeviceResult :=
  {| device_key := device_key r; device_name := device_name r;
     config_ok := config_ok r; build_ok := build_ok r;
     bootloader_ok := bootloader_ok r; flash_ok := flash_ok r;
     verify_ok := b; error_message := error_message r;
     firmware_name := firmware_name r |}.

Definition _should_apply_flash_all_stagger (previous_result : option BatchDeviceResult)
  : bool :=
  match previous_result with
  | None => false
  | Some r =>
      if bootloader_ok r || flash_ok r then true
      else
        let msg := Str.lower (Str.strip (Str.opt_or (error_message r) "")) in
        Str.startswith msg "bootloader:"
  end.

(** What the loop over [built_results] reads and writes.  The result
    objects are the second components of [built_results], in order; the
    loop changes them in place. *)
Record Batch : Type := {
  usb_devices : list DiscoveredDevice;
  used_paths : gset string;
  preflight_cache : gmap (option string) bool;
  can_preflight_cache : gmap string bool;
  results : list BatchDeviceResult
}.

Definition with_usb_devices (d : list DiscoveredDevice) (b : Batch) : Batch :=
  {| usb_devices := d; used_paths := used_paths b;
     preflight_cache := preflight_cache b;
     can_preflight_cache := can_preflight_cache b; results := results b |}.

Definition with_used_path (p : string) (b : Batch) : Batch :=
  {| usb_devices := usb_devices b; used_paths := {[ p ]} ∪ used_paths b;
     preflight_cache := preflight_cache b;
     can_preflight_cache := can_preflight_cache b; results := results b |}.

Definition with_preflight (k : option string) (v : bool) (b : Batch) : Batch :=
  {| usb_devices := usb_devices b; used_paths := used_paths b;
     preflight_cache := <[ k := v ]> (preflight_cache b);
     can_preflight_cache := can_preflight_cache b; results := results b |}.

Definition with_can_preflight (k : string) (v : bool) (b : Batch) : Batch :=
  {| usb_devices := usb_devices b; used_paths := used_paths b;
     preflight_cache := preflight_cache b;
     can_preflight_cache := <[ k := v ]> (can_preflight_cache b);
     results := results b |}.

(** [result.<field> = ...] on the result object of position [idx]. *)
Definition update_result (idx : nat) (f : BatchDeviceResult -> BatchDeviceResult)
    (b : Batch) : Batch :=
  {| usb_devices := usb_devices b; used_paths := used_paths b;
     preflight_cache := preflight_cache b;
     can_preflight_cache := can_preflight_cache b;
     results := alter f idx (results b) |}.

(** The first loop of the guarded scope: the keys of the registrations
    whose pattern matches more than one attached endpoint. *)
Fixpoint find_ambiguous_keys (entries : list DeviceEntry)
    (usb : list DiscoveredDevice) (ambiguous_keys : gset string) : gset string :=
  match entries with
  | [] => ambiguous_keys
  | entry :: rest =>
      let ambiguous_keys :=
        match serial_pattern entry with
        | Some pattern =>
            let matches := match_devices pattern usb in
            if (1 <? length matches)%nat then {[ key entry ]} ∪ ambiguous_keys
            else ambiguous_keys
        | None => ambiguous_keys
        end in
      find_ambiguous_keys rest usb ambiguous_keys
  end.

Section CmdFlashAll.
Context (W : World).

(** Collaborators.  Nothing below depends on what they do. *)
Context (verify_can_device_after_flash :
           option string -> string -> string -> M (bool * option string))
        (preflight_can_interface : string -> M (bool * string))
        (_get_device_flash_config_issue : DeviceEntry -> option (string * string))
        (_preflight_flash : string -> string -> option string -> M bool)
        (extract_mcu_from_serial : string -> option string).

Context (global_config : GlobalConfig) (temp_dir : string).

(** [ (flash_idx/flash_total)] at the end of the progress lines. *)
Definition progress (flash_idx flash_total : nat) : string :=
  " (" +:+ Str.of_Z (Z.of_nat flash_idx) +:+ "/"
  +:+ Str.of_Z (Z.of_nat flash_total) +:+ ")".

Definition firmware_of (idx : nat) (b : Batch) : string :=
  match results b !! idx with
  | Some r => firmware_name r
  | None => "klipper.bin"
  end.

(** [method = entry.flash_command] looked up in [preflight_cache], filled
    on first use. *)
Definition cached_preflight (entry : DeviceEntry) (st : Batch) : M (bool * Batch) :=
  let method := flash_command entry in
  match preflight_cache st !! method with
  | Some ok => ret (ok, st)
  | None =>
      let* ok := _preflight_flash (klipper_dir global_config)
                   (katapult_dir global_config) method in
      ret (ok, with_preflight method ok st)
  end.

(** The CAN branch of the loop body. *)
Definition flash_all_can (fuel idx flash_idx flash_total : nat)
    (entry : DeviceEntry) (st : Batch) : M Batch :=
  let iface := Str.opt_or (canbus_interface entry) "can0" in
  let* pre :=
    match can_preflight_cache st !! iface with
    | None =>
        let* (ok, error) := preflight_can_interface iface in
        let st := with_can_preflight iface ok st in
        if negb ok then
          say "print" ["  X " +:+ name entry +:+ " CAN preflight failed"
                       +:+ progress flash_idx flash_total] ;;;
          ret (inl (update_result idx
                      (set_error_message ("CAN preflight failed: " +:+ error)) st))
        else ret (inr st)
    | Some false =>
        say "print" ["  X " +:+ name entry +:+ " CAN interface unavailable"
                     +:+ progress flash_idx flash_total] ;;;
        ret (inl (update_result idx
                    (set_error_message ("CAN interface " +:+ iface +:+ " failed preflight"))
                    st))
    | Some true => ret (inr st)
    end in
  match pre with
  | inl st => ret st
  | inr st =>
      match _get_device_flash_config_issue entry with
      | Some (error_type, detail) =>
          say "print" ["  X " +:+ name entry +:+ " invalid config"
                       +:+ progress flash_idx flash_total] ;;;
          ret (update_result idx (set_error_message (error_type +:+ ": " +:+ detail)) st)
      | None =>
          let* (ok, st) := cached_preflight entry st in
          if negb ok then
            say "print" ["  X " +:+ name entry +:+ " preflight failed"
                         +:+ progress flash_idx flash_total] ;;;
            ret (update_result idx
                   (set_error_message ("Preflight failed for flash command: "
                                       +:+ show_opt (flash_command entry))) st)
          else
            say "phase" ["Bootloader";
                         "Entering CAN bootloader for " +:+ name entry +:+ "..."] ;;;
            let* boot_result :=
              enter_bootloader W fuel "" entry (klipper_dir global_config)
                (katapult_dir global_config) (can_stagger_delay global_config) false in
            if negb (br_success boot_result) then
              say "print" ["  X " +:+ name entry +:+ " bootloader failed"
                           +:+ progress flash_idx flash_total] ;;;
              ret (update_result idx
                     (set_error_message ("Bootloader: "
                                         +:+ show_opt (br_error_message boot_result)))
                     (update_result idx (set_bootloader_ok false) st))
            else
              let st := update_result idx (set_bootloader_ok true) st in
              say "phase" ["Bootloader";
                           "Entered (" +:+ show_seconds W (br_elapsed_seconds boot_result)
                           +:+ "s)"] ;;;
              let fw_path :=
                path_join (path_join temp_dir (key entry)) (firmware_of idx st) in
              let* flash_result :=
                execute_flash W fuel entry "" fw_path global_config TIMEOUT_CAN_FLASH in
              if fr_success flash_result then
                let st := update_result idx (set_flash_ok true) st in
                say "phase" ["Verify"; "Querying CAN bus for " +:+ name entry +:+ "..."] ;;;
                let* (verified, error_reason) :=
                  verify_can_device_after_flash
                    (Some (Str.opt_or (canbus_uuid entry) "")) iface
                    (katapult_dir global_config) in
                if verified : bool then
                  let st := update_result idx (set_verify_ok true) st in
                  registry_update_device W (key entry) ;;;
                  say "print" ["  OK " +:+ name entry +:+ " flashed and verified"
                               +:+ progress flash_idx flash_total] ;;;
                  ret st
                else
                  say "print" ["  FAIL " +:+ name entry +:+ " flash OK but CAN verify failed"
                               +:+ progress flash_idx flash_total] ;;;
                  ret (update_result idx
                         (set_error_message
                            (Str.opt_or error_reason "CAN verification failed")) st)
              else
                say "print" ["  FAIL " +:+ name entry +:+ " flash failed"
                             +:+ progress flash_idx flash_total] ;;;
                ret (update_result idx
                       (set_error_message
                          (Str.opt_or (fr_error_message flash_result) "Flash failed")) st)
      end
  end.

(** The USB branch of the loop body, after the ambiguity guard. *)
Definition flash_all_usb_found (fuel idx flash_idx flash_total : nat)
    (entry : DeviceEntry) (usb_device : DiscoveredDevice) (st : Batch) : M Batch :=
  let* real_path := os_realpath W (path usb_device) in
  if decide (real_path ∈ used_paths st) then
    say "warn" ["Skipping " +:+ name entry +:+ ": duplicate USB path"] ;;;
    ret (update_result idx
           (set_error_message "USB path already targeted by prior device") st)
  else
    let st := with_used_path real_path st in
    let usb_mcu := extract_mcu_from_serial (filename usb_device) in
    let mismatch :=
      match usb_mcu with
      | Some m =>
          if String.eqb (Str.lower m) (Str.lower (mcu entry)) then None else Some m
      | None => None
      end in
    match mismatch with
    | Some m =>
        let msg := "MCU mismatch: USB='" +:+ m +:+ "', registry='" +:+ mcu entry +:+ "'" in
        say "warn" ["Skipping " +:+ name entry +:+ ": " +:+ msg] ;;;
        ret (update_result idx (set_error_message msg) st)
    | None =>
        match _get_device_flash_config_issue entry with
        | Some (error_type, detail) =>
            say "print" ["  X " +:+ name entry +:+ " invalid config"
                         +:+ progress flash_idx flash_total] ;;;
            ret (update_result idx
                   (set_error_message (error_type +:+ ": " +:+ detail)) st)
        | None =>
            let* (ok, st) := cached_preflight entry st in
            if negb ok then
              say "print" ["  X " +:+ name entry +:+ " preflight failed"
                           +:+ progress flash_idx flash_total] ;;;
              ret (update_result idx
                     (set_error_message ("Preflight failed for flash command: "
                                         +:+ show_opt (flash_command entry))) st)
            else
              let* boot :=
                if decide (bootloader_method entry = Some "none") then
                  say "phase" ["Bootloader"; "Skipped (method: none)"] ;;;
                  ret (inr (path usb_device, update_result idx (set_bootloader_ok true) st))
                else
                  say "phase" ["Bootloader";
                               "Entering " +:+ show_opt (bootloader_method entry) +:+ "..."] ;;;
                  let* boot_result :=
                    enter_bootloader W fuel (path usb_device) entry
                      (klipper_dir global_config) (katapult_dir global_config)
                      (stagger_delay global_config) false in
                  if negb (br_success boot_result) then
                    say "print" ["  X " +:+ name entry +:+ " bootloader failed"
                                 +:+ progress flash_idx flash_total] ;;;
                    ret (inl (update_result idx
                                (set_error_message
                                   ("Bootloader: "
                                    +:+ show_opt (br_error_message boot_result)))
                                (update_result idx (set_bootloader_ok false) st)))
                  else
                    say "phase" ["Bootloader";
                                 "Entered ("
                                 +:+ show_seconds W (br_elapsed_seconds boot_result)
                                 +:+ "s)"] ;;;
                    ret (inr (Str.opt_or (br_device_path boot_result) "",
                              update_result idx (set_bootloader_ok true) st)) in
              match boot with
              | inl st => ret st
              | inr (boot_device_path, st) =>
                  let fw_path :=
                    path_join (path_join temp_dir (key entry)) (firmware_of idx st) in
                  let* flash_result :=
                    execute_flash W fuel entry boot_device_path fw_path global_config
                      TIMEOUT_FLASH in
                  if fr_success flash_result then
                    let st := update_result idx (set_flash_ok true) st in
                    let* (verified, _, error_reason) :=
                      wait_for_device W fuel (serial_pattern entry) 30000 500 true in
                    let* st :=
                      if verified : bool then
                        let st := update_result idx (set_verify_ok true) st in
                        registry_update_device W (key entry) ;;;
                        say "print" ["  OK " +:+ name entry +:+ " flashed and verified"
                                     +:+ progress flash_idx flash_total] ;;;
                        ret st
                      else
                        say "print" ["  FAIL " +:+ name entry
                                     +:+ " flash OK but verify failed"
                                     +:+ progress flash_idx flash_total] ;;;
                        ret (update_result idx
                               (set_error_message
                                  (Str.opt_or error_reason "Verification failed")) st) in
                    let* rescanned := scan_serial_devices W in
                    ret (with_usb_devices rescanned st)
                  else
                    say "print" ["  FAIL " +:+ name entry +:+ " flash failed"
                                 +:+ progress flash_idx flash_total] ;;;
                    ret (update_result idx
                           (set_error_message
                              (Str.opt_or (fr_error_message flash_result) "Flash failed"))
                           st)
              end
        end
    end.

(** The USB branch of the loop body. *)
Definition flash_all_usb (fuel idx flash_idx flash_total : nat)
    (ambiguous_keys : gset string) (entry : DeviceEntry) (st : Batch) : M Batch :=
  if decide (key entry ∈ ambiguous_keys) then
    say "warn" ["Skipping " +:+ name entry +:+ ": ambiguous USB pattern"] ;;;
    ret (update_result idx
           (set_error_message "Pattern matches multiple connected USB devices") st)
  else
    match serial_pattern entry with
    | None => raise (OtherException "AttributeError")
    | Some pattern =>
        match match_device pattern (usb_devices st) with
        | None =>
            say "print" ["  FAIL " +:+ name entry +:+ " not found"
                         +:+ progress flash_idx flash_total] ;;;
            ret (update_result idx (set_error_message "Device not found on USB") st)
        | Some usb_device =>
            flash_all_usb_found fuel idx flash_idx flash_total entry usb_device st
        end
    end.

(** One pass through the body of
    [for idx, (entry, result) in enumerate(built_results)]. *)
Definition flash_all_device (fuel idx flash_total : nat)
    (ambiguous_keys : gset string) (entry : DeviceEntry) (st : Batch) : M Batch :=
  let flash_idx := (idx + 1)%nat in
  (if (0 <? idx)%nat then
     say "device_divider" [Str.of_Z (Z.of_nat flash_idx);
                           Str.of_Z (Z.of_nat flash_total); name entry] ;;;
     let previous_result := results st !! (idx - 1)%nat in
     when (_should_apply_flash_all_stagger previous_result)
          (sleep (if is_can_device entry then can_stagger_delay global_config
                  else stagger_delay global_config))
   else ret tt) ;;;
  if is_can_device entry then flash_all_can fuel idx flash_idx flash_total entry st
  else flash_all_usb fuel idx flash_idx flash_total ambiguous_keys entry st.

(** The loop, from position [idx] on. *)
Fixpoint flash_all_loop (fuel idx flash_total : nat) (ambiguous_keys : gset string)
    (entries : list DeviceEntry) (st : Batch) : M Batch :=
  match entries with
  | [] => ret st
  | entry :: rest =>
      let* st := flash_all_device fuel idx flash_total ambiguous_keys entry st in
      flash_all_loop fuel (S idx) flash_total ambiguous_keys rest st
  end.

(** The body of [with klipper_service_stopped(out=out) as svc_state]. *)
Definition cmd_flash_all_guarded (fuel : nat) (entries : list DeviceEntry)
    (built : list BatchDeviceResult) : M Batch :=
  let* usb := scan_serial_devices W in
  let ambiguous_keys := find_ambiguous_keys entries usb ∅ in
  flash_all_loop fuel 0 (length entries) ambiguous_keys entries
    {| usb_devices := usb; used_paths := ∅; preflight_cache := ∅;
       can_preflight_cache := ∅; results := built |}.

(** Stage 4 of [cmd_flash_all]: [entries] and [built] are the two
    components of [built_results].  [inl code] is a [return code]; [inr]
    carries the result objects and [service_restart_failed]. *)
Definition cmd_flash_all_stage4 (fuel : nat) (entries : list DeviceEntry)
    (built : list BatchDeviceResult) : M (Z + list BatchDeviceResult * bool) :=
  say "phase" ["Flash All";
               "Flashing " +:+ Str.of_Z (Z.of_nat (length entries)) +:+ " device(s)..."] ;;;
  let* active := _is_service_active W in
  let* sudo_ok :=
    if active then
      let* passwordless := verify_passwordless_sudo W in
      if negb passwordless then
        say "phase" ["Flash All"; "Sudo authentication required for service management"] ;;;
        let* acquired := acquire_sudo W in
        if negb acquired then
          say "error" ["Failed to acquire sudo credentials. Cannot manage Klipper service."] ;;;
          ret false
        else ret true
      else ret true
    else ret true in
  if negb sudo_ok then ret (inl 1%Z)
  else
    let* (svc_state, st) :=
      klipper_service_stopped W TIMEOUT_SERVICE true
        (fun _ => cmd_flash_all_guarded fuel entries built) in
    let* ss := read_service_state svc_state in
    if will_restart ss
       && match restart_succeeded ss with Some true => true | _ => false end
    then
      say "phase" ["Service"; "Klipper restarted"] ;;;
      ret (inr (results st, false))
    else if will_restart ss
            && match restart_succeeded ss with Some false => true | _ => false end
    then
      say "error_with_recovery"
        ["Service error"; "Failed to restart Klipper service after flash"] ;;;
      ret (inr (results st, true))
    else ret (inr (results st, false)).

End CmdFlashAll.

(* ===================================================================== *)
(** * Sample worlds *)
(* ===================================================================== *)

(** An empty start: no event yet, no object yet. *)
Definition start_state : State :=
  {| hist := [];
     svc_heap := fun _ => {| was_active := false; will_restart := false;
                             restart_succeeded := None |};
     svc_next := 0 |}.

(** A host described by its directory listing and by how its commands
    end.  The clock gains one second per event; every path exists; the
    operator presses Enter and declines to retry. *)
Definition sample_world (ls : History -> list string)
    (proc : History -> list string -> ProcOutcome) : World :=
  {| monotonic := fun h => (1000 * Z.of_nat (length h))%Z;
     listdir := fun h _ => Some (ls h);
     stat := fun _ _ _ => true;
     run := proc;
     input := fun _ => Line "";
     copy := fun _ _ _ => None;
     confirm := fun _ _ => false;
     update_device := fun _ _ => None;
     getuser := "pi";
     expanduser := fun p => p;
     resolve := fun p => p;
     realpath := fun _ p => p;
     parent := fun p => p;
     show_seconds := Str.of_Z |}.

Definition exits (rc : Z) (out : string) : ProcOutcome :=
  Completed {| returncode := rc; stdout := out; stderr := "" |}.

(** A quiet host: the directory always lists [names] and every command
    exits with [rc]. *)
Definition quiet_world (names : list string) (rc : Z) : World :=
  sample_world (fun _ => names) (fun _ _ => exits rc "").

(* ===================================================================== *)
(** * Vocabulary of the statements *)
(* ===================================================================== *)

(** The statement of prefix-agnostic matching for the board whose name
    reads [rest] after the prefix: the pattern generated under either
    prefix selects the endpoint that carries the other one. *)
Definition prefix_agnostic (rest : string) : Prop :=
  forall p : string,
    match_devices (generate_serial_pattern ("usb-Klipper_" +:+ rest))
      [{| path := p; filename := "usb-katapult_" +:+ rest |}]
    = [{| path := p; filename := "usb-katapult_" +:+ rest |}]
    /\
    match_devices (generate_serial_pattern ("usb-katapult_" +:+ rest))
      [{| path := p; filename := "usb-Klipper_" +:+ rest |}]
    = [{| path := p; filename := "usb-Klipper_" +:+ rest |}].

(** The clock has passed [t] once [n] events are on record. *)
Definition clock_passes (W : World) (t : Z) (n : nat) : Prop :=
  forall h : History, (n <= length h)%nat -> (t <= monotonic W h)%Z.

(** Every listing taken right after a clock reading below [deadline]
    shows [original]. *)
Definition present_until (W : World) (original : string) (deadline : Z) : Prop :=
  forall (h : History) (t : Z),
    (t < deadline)%Z ->
    exists names, listdir W (h ++ [EClock t]) SERIAL_DIR = Some names
                  /\ Str.mem original names = true.

(** What a listing that cannot be read counts as. *)
Definition listed (r : option (list string)) : list string :=
  match r with Some names => names | None => [] end.

(** A board that reboots: the listing shows [before] until [n] events are
    on record and [after] from then on. *)
Definition rebooting_world (n : nat) (before after : list string) : World :=
  sample_world (fun h => if (length h <? n)%nat then before else after)
               (fun _ _ => exits 0 "").

Definition usb_entry (pattern : string) (boot flash : string) : DeviceEntry :=
  {| key := "board"; name := "Board"; mcu := "rp2040";
     serial_pattern := Some pattern; flash_command := Some flash;
     bootloader_method := Some boot; canbus_uuid := None;
     canbus_interface := None; uf2_mount_path := None; sdcard_board := None;
     role := None |}.





(** The commands on record, with how each ended. *)
Definition commands (h : History) : list (list string * ProcOutcome) :=
  omap (fun e => match e with ERun a o => Some (a, o) | _ => None end) h.

(** How the retry loop of [flash_katapult_can] is left. *)
Inductive Finish : Type :=
| Flashed_                          (* return from inside the loop *)
| GaveUp (last_error : string)      (* the loop is over, or was broken *)
| Propagated (e : Exn).             (* an exception nobody catches *)

(** [attempt_run timeout last_error n made fin]: with [n] attempts left
    the loop makes the attempts [made], which end as listed, and is left
    as [fin] tells. *)
Inductive attempt_run (timeout : Z) : string -> nat -> list ProcOutcome -> Finish -> Prop :=
| run_exhausted last_error :
    attempt_run timeout last_error 0 [] (GaveUp last_error)
| run_zero last_error n p :
    returncode p = 0%Z ->
    attempt_run timeout last_error (S n) [Completed p] Flashed_
| run_nonzero last_error n p rest fin :
    returncode p <> 0%Z ->
    attempt_run timeout "flashtool.py returned non-zero exit code" n rest fin ->
    attempt_run timeout last_error (S n) (Completed p :: rest) fin
| run_timeout last_error n rest fin :
    attempt_run timeout ("CAN flash timeout (" +:+ seconds timeout +:+ "s)") n rest fin ->
    attempt_run timeout last_error (S n) (RunRaises TimeoutExpired :: rest) fin
| run_oserror last_error n msg :
    attempt_run timeout last_error (S n) [RunRaises (OSError msg)]
      (GaveUp ("Failed to run flashtool.py: " +:+ msg))
| run_raise last_error n e :
    e <> TimeoutExpired -> (forall msg, e <> OSError msg) ->
    attempt_run timeout last_error (S n) [RunRaises e] (Propagated e).

(** The command line of the CAN transfer. *)
Definition can_flash_argv (W : World) (uuid interface firmware_path katapult_dir : string)
  : list string :=
  ["python3"; expanduser W katapult_dir +:+ "/scripts/flashtool.py";
   "-i"; interface; "-u"; uuid; "-f"; firmware_path].

(** A host on which the [n]-th command (counting from 0) ends as
    [outcomes] says, and every later one exits with 0. *)
Definition scripted_world (outcomes : list ProcOutcome) : World :=
  sample_world (fun _ => [])
    (fun h _ => match outcomes !! length (commands h) with
                | Some o => o
                | None => exits 0 ""
                end).

(** ** Footprints *)

(** [obeys P Q c]: whatever [c] puts on record satisfies [P], and whatever
    it returns satisfies [Q]. *)
Definition obeys {A} (P : Event -> Prop) (Q : A -> Prop) (c : M A) : Prop :=
  forall s r s',
    c s = (r, s') ->
    (exists added, hist s' = hist s ++ added /\ Forall P added)
    /\ (forall a, r = Ok a -> Q a).

Definition anything {A} : A -> Prop := fun _ => True.

(** An action that moves firmware: a command, or a file copy. *)
Inductive Transfer : Type :=
| TRun (argv : list string)
| TCopy (src dst : string).

Definition transfer_of (e : Event) : option Transfer :=
  match e with
  | ERun argv _ => Some (TRun argv)
  | ECopy src dst _ => Some (TCopy src dst)
  | _ => None
  end.

(** The transfer actions on record. *)
Definition transfers (h : History) : list Transfer := omap transfer_of h.

(** No command and no copy. *)
Definition quiet (e : Event) : Prop := transfer_of e = None.

(** No command and no copy other than [t]. *)
Definition quiet_or (t : Transfer) (e : Event) : Prop :=
  transfer_of e = None \/ transfer_of e = Some t.

(** Every transfer action of [c] is one and the same. *)
Definition single_action {A} (c : M A) : Prop :=
  forall s r s',
    c s = (r, s') ->
    exists t n, transfers (hist s') = transfers (hist s) ++ replicate n t.

(** The flash-strategy tags that [execute_flash] knows. *)
Definition recognized_flash_commands : list string :=
  ["katapult"; "katapult_can"; "make_flash"; "flash_sdcard"; "uf2_mount"].

Definition can_entry (uuid : string) (boot flash : string) : DeviceEntry :=
  {| key := "toolhead"; name := "Toolhead"; mcu := "stm32g0b1";
     serial_pattern := None; flash_command := Some flash;
     bootloader_method := Some boot; canbus_uuid := Some uuid;
     canbus_interface := Some "can0"; uf2_mount_path := None; sdcard_board := None;
     role := None |}.

Definition sample_config : GlobalConfig :=
  {| klipper_dir := "~/klipper"; katapult_dir := "~/katapult";
     stagger_delay := 2000; can_stagger_delay := 5000 |}.

(** ** Post-flash verification *)

(** The endpoint's name satisfies the pattern under one of its prefix
    variants. *)
Definition matching (pattern : string) (d : DiscoveredDevice) : bool :=
  any_variant_matches (filename d) (_prefix_variants pattern).

(** The name has the normal-mode prefix. *)
Definition normal_mode (d : DiscoveredDevice) : bool :=
  Str.startswith (Str.lower (filename d)) "usb-klipper_".

(** The name has the bootloader-mode prefix. *)
Definition bootloader_mode (d : DiscoveredDevice) : bool :=
  negb (normal_mode d) && Str.startswith (Str.lower (filename d)) "usb-katapult_".

(** An endpoint that does not end the poll: it does not match, or it
    matches and is in bootloader mode. *)
Definition undecisive (pattern : string) (d : DiscoveredDevice) : bool :=
  negb (matching pattern d) || bootloader_mode d.

(** [last_katapult_path] after a listing of undecisive endpoints. *)
Definition last_bootloader (pattern : string) (devices : list DiscoveredDevice)
    (last_katapult_path : option string) : option string :=
  fold_left (fun acc d => if matching pattern d then Some (path d) else acc)
    devices last_katapult_path.

(** The state in which one round of [wait_for_device] scans: two clock
    readings, and a progress dot when one is due. *)
Definition before_scan (W : World) (out : bool) (last_dot_time : Z) (s : State) : State :=
  let s1 := log s (EClock (monotonic W (hist s))) in
  let now_ := monotonic W (hist s1) in
  let s2 := log s1 (EClock now_) in
  if negb out && (2000 <=? now_ - last_dot_time)%Z
  then log s2 (EOut "print" ["."]) else s2.

(** [last_dot_time] after that. *)
Definition next_dot_time (W : World) (out : bool) (last_dot_time : Z) (s : State) : Z :=
  let s1 := log s (EClock (monotonic W (hist s))) in
  let now_ := monotonic W (hist s1) in
  if negb out && (2000 <=? now_ - last_dot_time)%Z then now_ else last_dot_time.

(** The verdict at the deadline. *)
Definition deadline_verdict (timeout : Z) (last_katapult_path : option string) : Verdict :=
  if truthy last_katapult_path then
    (false, last_katapult_path, Some "Device in bootloader mode (katapult)")
  else
    (false, None, Some ("Timeout after " +:+ seconds timeout +:+ "s waiting for device")).

(** ** The service guard *)

(** Whether a start command that ended as [o] counts as a restart. *)
Definition start_ok (o : ProcOutcome) : bool :=
  match o with
  | Completed p => (returncode p =? 0)%Z
  | RunRaises _ => false
  end.

(** A message to the operator. *)
Definition is_message (e : Event) : Prop :=
  match e with EOut _ _ => True | _ => False end.

(** What leaving the guarded scope makes of the outcome of its body. *)
Definition scope_outcome {A} (ref : nat) (rb : Res A) : Res (nat * A) :=
  match rb with
  | Ok a => Ok (ref, a)
  | Raise e => Raise e
  | Diverge => Diverge
  end.

(** A host with a running Klipper service that stops on request and whose
    start command exits with [start_rc]; the directory lists [names]. *)
Definition service_world (names : list string) (start_rc : Z) : World :=
  sample_world (fun _ => names)
    (fun _ argv =>
       if decide (argv = systemctl_is_active) then exits 0 "active"
       else if decide (argv = systemctl_start) then exits start_rc ""
       else exits 0 "").

(** ** Reporting a flash *)

(** [svc_state.will_restart and svc_state.restart_succeeded is False] *)
Definition restart_failed (st : ServiceState) : bool :=
  will_restart st && match restart_succeeded st with Some false => true | _ => false end.

(** The report of a failed restart. *)
Definition restart_failure_report : Event :=
  EOut "error_with_recovery"
    ["Service error"; "Failed to restart Klipper service after flash"].

(** C3 as stated, for one run of [cmd_flash] from its [try] block on: a
    guarded scope that ends with a successful and verified flash makes the
    command record the time of the flash and exit with 0. *)
Definition success_is_reported (W : World)
    (verify_can : option string -> string -> string -> M (bool * option string))
    (fuel : nat) (device_key : string) (entry : DeviceEntry)
    (device_path firmware_path : string) (config : GlobalConfig) (s : State) : Prop :=
  forall ref fr device_path_new error_reason s1,
    klipper_service_stopped W TIMEOUT_SERVICE true
      (fun _ => cmd_flash_guarded W verify_can fuel entry device_path firmware_path config)
      (log s (EClock (monotonic W (hist s))))
    = (Ok (ref, inr (fr, true, device_path_new, error_reason)), s1) ->
    fr_success fr = true ->
    exists s',
      cmd_flash_run W verify_can fuel device_key entry device_path firmware_path config s
      = (Ok 0%Z, s')
      /\ ERegistryUpdate device_key None ∈ hist s'.

(** A CAN verification that always succeeds. *)
Definition can_verified : option string -> string -> string -> M (bool * option string) :=
  fun _ _ _ => ret (true, None).

(** ** The batch sequencer *)

(** The registration's pattern matches more than one of the endpoints. *)
Definition ambiguous (entry : DeviceEntry) (usb : list DiscoveredDevice) : Prop :=
  exists pattern,
    serial_pattern entry = Some pattern
    /\ (1 < length (match_devices pattern usb))%nat.

(** What the sequencer writes on the result of a registration it finds
    ambiguous. *)
Definition AMBIGUOUS_PATTERN : string := "Pattern matches multiple connected USB devices".

(** The state in which the loop over the devices starts. *)
Definition first_batch (usb : list DiscoveredDevice) (built : list BatchDeviceResult)
  : Batch :=
  {| usb_devices := usb; used_paths := ∅; preflight_cache := ∅;
     can_preflight_cache := ∅; results := built |}.

(** What the loop does between two devices: the divider line, and the
    stagger delay when the previous device was touched. *)
Definition interlude (config : GlobalConfig) (idx flash_total : nat)
    (entry : DeviceEntry) (st : Batch) : list Event :=
  if (0 <? idx)%nat then
    EOut "device_divider" [Str.of_Z (Z.of_nat (idx + 1));
                           Str.of_Z (Z.of_nat flash_total); name entry]
    :: (if _should_apply_flash_all_stagger (results st !! (idx - 1)%nat)
        then [ESleep (if is_can_device entry then can_stagger_delay config
                      else stagger_delay config)]
        else [])
  else [].

(** Several events put on record. *)
Definition log_all (s : State) (events : list Event) : State :=
  fold_left log events s.

(** Collaborators that find nothing wrong. *)
Definition can_interface_ready : string -> M (bool * string) := fun _ => ret (true, "").
Definition no_config_issue : DeviceEntry -> option (string * string) := fun _ => None.
Definition preflight_passes : string -> string -> option string -> M bool :=
  fun _ _ _ => ret true.
Definition mcu_unknown : string -> option string := fun _ => None.

Definition fresh_result (entry : DeviceEntry) : BatchDeviceResult :=
  {| device_key := key entry; device_name := name entry;
     config_ok := true; build_ok := true; bootloader_ok := false;
     flash_ok := false; verify_ok := false; error_message := None;
     firmware_name := "klipper.bin" |}.

(* ===================================================================== *)
(** * discovery.py: supported devices and the registry cross-reference *)
(* ===================================================================== *)

Definition SUPPORTED_PREFIXES : list string := ["usb-klipper_"; "usb-katapult_"].

Definition is_supported_device (filename : string) : bool :=
  let lower := Str.lower filename in
  existsb (fun prefix => Str.startswith lower prefix) SUPPORTED_PREFIXES.

#[global] Instance DiscoveredDevice_eq_dec : EqDecision DiscoveredDevice.
Proof. solve_decision. Defined.

(** [l.remove(x)] for an [x] that is in [l]: the first equal element
    goes. *)
Fixpoint remove_first (x : DiscoveredDevice) (l : list DiscoveredDevice)
  : list DiscoveredDevice :=
  match l with
  | [] => []
  | y :: r => if decide (y = x) then r else y :: remove_first x r
  end.

(** The inner loop of [find_registered_devices]: the first device that one
    of the variants matches, at which the loop [break]s. *)
Fixpoint first_matching (variants : list string) (devices : list DiscoveredDevice)
  : option DiscoveredDevice :=
  match devices with
  | [] => None
  | device :: rest =>
      if any_variant_matches (filename device) variants then Some device
      else first_matching variants rest
  end.

(** The outer loop, over [registry_devices.values()] in the order of the
    dictionary. *)
Fixpoint find_registered_from (entries : list DeviceEntry)
    (devices : list DiscoveredDevice)
    (matched : list (DeviceEntry * DiscoveredDevice))
    (unmatched_devices : list DiscoveredDevice)
  : list (DeviceEntry * DiscoveredDevice) * list DiscoveredDevice :=
  match entries with
  | [] => (matched, unmatched_devices)
  | entry :: rest =>
      match serial_pattern entry with
      | None => find_registered_from rest devices matched unmatched_devices
      | Some pattern =>
          let variants := _prefix_variants pattern in
          match first_matching variants devices with
          | Some device =>
              find_registered_from rest devices (matched ++ [(entry, device)])
                (if decide (device ∈ unmatched_devices)
                 then remove_first device unmatched_devices
                 else unmatched_devices)
          | None => find_registered_from rest devices matched unmatched_devices
          end
      end
  end.

Definition find_registered_devices (devices : list DiscoveredDevice)
    (registry_devices : list DeviceEntry)
  : list (DeviceEntry * DiscoveredDevice) * list DiscoveredDevice :=
  find_registered_from registry_devices devices [] devices.

(* ===================================================================== *)
(** * flash.py: blocked devices *)
(* ===================================================================== *)

Definition DEFAULT_BLOCKED_DEVICES : list (string * option string) :=
  [("usb-beacon_*", Some "Beacon probe (not a Klipper MCU)")].

Definition _normalize_pattern (pattern : string) : string :=
  Str.lower (Str.strip pattern).

(** [registry_data.blocked_devices] is given as the list of its
    [(pattern, reason)] pairs. *)
Definition _build_blocked_list (blocked_devices : list (string * option string))
  : list (string * option string) :=
  DEFAULT_BLOCKED_DEVICES ++ blocked_devices.

(** The loop of [_blocked_reason_for_filename] over the blocked list. *)
Fixpoint blocked_reason_of_name (name : string)
    (blocked_list : list (string * option string)) : option string :=
  match blocked_list with
  | [] => None
  | (pattern, reason) :: rest =>
      if Fnmatch.fnmatch name (_normalize_pattern pattern)
      then Some (Str.opt_or reason "Blocked by policy")
      else blocked_reason_of_name name rest
  end.

Definition _blocked_reason_for_filename (filename : string)
    (blocked_list : list (string * option string)) : option string :=
  let name := Str.lower filename in
  blocked_reason_of_name name blocked_list.

(** The loop of [_blocked_reason_for_entry] over the blocked list. *)
Fixpoint blocked_reason_of_pattern (serial_pattern : string)
    (blocked_list : list (string * option string)) : option string :=
  match blocked_list with
  | [] => None
  | (pattern, reason) :: rest =>
      let normalized := _normalize_pattern pattern in
      if Fnmatch.fnmatch serial_pattern normalized
         || Fnmatch.fnmatch normalized serial_pattern
      then Some (Str.opt_or reason "Blocked by policy")
      else blocked_reason_of_pattern serial_pattern rest
  end.

Definition _blocked_reason_for_entry (entry : DeviceEntry)
    (blocked_list : list (string * option string)) : option string :=
  match serial_pattern entry with
  | None => None
  | Some p =>
      let serial_pattern := Str.lower p in
      match blocked_reason_of_pattern serial_pattern blocked_list with
      | Some reason => Some reason
      | None =>
          if negb (existsb (fun prefix => Str.startswith serial_pattern prefix)
                     SUPPORTED_PREFIXES)
          then Some "Unsupported USB device"
          else None
      end
  end.

(* ===================================================================== *)
(** * flash.py: the order of a batch *)
(* ===================================================================== *)

(** [l.sort(key=lambda e: e.key)]: the stable sort by key, as insertion
    from the right. *)
Fixpoint insert_by_key (x : DeviceEntry) (l : list DeviceEntry) : list DeviceEntry :=
  match l with
  | [] => [x]
  | y :: r => if String.leb (key x) (key y) then x :: l else y :: insert_by_key x r
  end.

Definition sort_by_key (l : list DeviceEntry) : list DeviceEntry :=
  fold_right insert_by_key [] l.

(** [getattr(entry, "role", None) if is_can else None] *)
Definition batch_role (entry : DeviceEntry) : option string :=
  if is_can_device entry then role entry else None.

(** The loop of [_sort_flash_all_devices] that fills [toolheads],
    [middle] and [bridges]. *)
Fixpoint group_by_role (devices toolheads middle bridges : list DeviceEntry)
  : list DeviceEntry * list DeviceEntry * list DeviceEntry :=
  match devices with
  | [] => (toolheads, middle, bridges)
  | entry :: rest =>
      let role := batch_role entry in
      if decide (role = Some "toolhead") then
        group_by_role rest (toolheads ++ [entry]) middle bridges
      else if decide (role = Some "bridge") then
        group_by_role rest toolheads middle (bridges ++ [entry])
      else
        group_by_role rest toolheads (middle ++ [entry]) bridges
  end.

Definition _sort_flash_all_devices (devices : list DeviceEntry) : list DeviceEntry :=
  let '(toolheads, middle, bridges) := group_by_role devices [] [] [] in
  sort_by_key toolheads ++ sort_by_key middle ++ sort_by_key bridges.

(** The loop of [_dedupe_flash_all_devices], with the keys [seen] so
    far. *)
Fixpoint dedupe_from (seen : gset string) (devices : list DeviceEntry)
  : list DeviceEntry :=
  match devices with
  | [] => []
  | entry :: rest =>
      if decide (key entry ∈ seen) then dedupe_from seen rest
      else entry :: dedupe_from ({[ key entry ]} ∪ seen) rest
  end.

Definition _dedupe_flash_all_devices (devices : list DeviceEntry) : list DeviceEntry :=
  dedupe_from ∅ devices.

(** ** Vocabulary *)

(** The place of a device in a batch: CAN toolheads, then the devices
    without a role that counts, then CAN bridges. *)
Definition batch_rank (entry : DeviceEntry) : nat :=
  if decide (batch_role entry = Some "toolhead") then 0
  else if decide (batch_role entry = Some "bridge") then 2
  else 1.

(** The order of a batch: by place, and by key within a place. *)
Definition batch_le (a b : DeviceEntry) : Prop :=
  (batch_rank a < batch_rank b)%nat
  \/ (batch_rank a = batch_rank b /\ String.leb (key a) (key b) = true).

(** ** What a computation may put on record *)

(** Looking and waiting: the clock, a pause, a directory listing, a test
    of a path. *)
Definition observation (e : Event) : Prop :=
  match e with
  | EClock _ | ESleep _ | EListdir _ _ | EStat _ _ _ => True
  | _ => False
  end.

(** What a poll of the directory puts on record. *)
Definition poll_event (e : Event) : Prop :=
  match e with
  | EClock _ | ESleep _ | EListdir _ _ => True
  | _ => False
  end.

(** Looking, waiting and telling the operator. *)
Definition observation_or_message (e : Event) : Prop :=
  match e with
  | EClock _ | ESleep _ | EListdir _ _ | EStat _ _ _ | EOut _ _ => True
  | _ => False
  end.

(** A request to change the mode of a board: a command, or a line asked
    of the operator. *)
Definition is_request (e : Event) : bool :=
  match e with
  | ERun _ _ | EInput _ => true
  | _ => false
  end.

Definition requests (h : History) : nat := length (List.filter is_request h).

Definition is_confirm (e : Event) : bool :=
  match e with EConfirm _ _ => true | _ => false end.

(** [within n c]: [c] makes at most [n] requests and asks for no
    confirmation. *)
Definition within {A} (n : nat) (c : M A) : Prop :=
  forall s r s',
    c s = (r, s') ->
    exists added,
      hist s' = hist s ++ added
      /\ (requests added <= n)%nat
      /\ Forall (fun e => is_confirm e = false) added.

(** The method tags of the dispatch table of [enter_bootloader]. *)
Definition bootloader_methods : list string := ["usb"; "serial"; "manual"; "none"; "can"].

(** The host [W] with an operator who agrees to every retry. *)
Definition agreeing (W : World) : World :=
  {| monotonic := monotonic W; listdir := listdir W; stat := stat W; run := run W;
     input := input W; copy := copy W; confirm := fun _ _ => true;
     update_device := update_device W; getuser := getuser W;
     expanduser := expanduser W; resolve := resolve W; realpath := realpath W;
     parent := parent W; show_seconds := show_seconds W |}.

(** A host with a running Klipper service that does not stop: the stop
    command ends as [stop] says. *)
Definition stubborn_world (names : list string) (stop : ProcOutcome) : World :=
  sample_world (fun _ => names)
    (fun _ argv =>
       if decide (argv = systemctl_is_active) then exits 0 "active"
       else if decide (argv = systemctl_stop) then stop
       else exits 0 "").

(** A stop command that failed as the code tells it: it ran to a non-zero
    exit code, or it ran out of time. *)
Definition stop_failed (o : ProcOutcome) : Prop :=
  match o with
  | Completed p => returncode p <> 0%Z
  | RunRaises TimeoutExpired => True
  | RunRaises _ => False
  end.

(** ** Flash results *)

(** A result that says one thing only: a success without an error
    message, or a failure with one. *)
Definition consistent (fr : FlashResult) : Prop :=
  match fr_error_message fr with
  | None => fr_success fr = true
  | Some _ => fr_success fr = false
  end.

(** A transfer that worked: a command that exited with 0, or a copy that
    raised nothing. *)
Definition transfer_worked (e : Event) : Prop :=
  match e with
  | ERun _ (Completed p) => returncode p = 0%Z
  | ECopy _ _ None => True
  | _ => False
  end.

(** [grounded ok c]: whenever [c] returns a value that satisfies [ok], a
    transfer that worked is among the events that [c] put on record. *)
Definition grounded {A} (ok : A -> Prop) (c : M A) : Prop :=
  forall s r s',
    c s = (r, s') ->
    exists added,
      hist s' = hist s ++ added
      /\ forall a, r = Ok a -> ok a -> Exists transfer_worked added.

(** ** Results of a batch *)

(** [returns Q c]: whatever [c] returns satisfies [Q]. *)
Definition returns {A} (Q : A -> Prop) (c : M A) : Prop :=
  forall s a s', c s = (Ok a, s') -> Q a.

(** [st'] has the results of [st] but for the one of position [idx]. *)
Definition same_others (idx : nat) (st st' : Batch) : Prop :=
  length (results st') = length (results st)
  /\ forall j, j <> idx -> results st' !! j = results st !! j.

(** ** The registry *)

(** Anything but a write to the registry. *)
Definition not_registry (e : Event) : Prop :=
  match e with
  | ERegistryUpdate _ _ => False
  | _ => True
  end.

(** What the batch loop writes on the result of a registration whose
    device node was already flashed through. *)
Definition DUPLICATE_PATH : string := "USB path already targeted by prior device".

(** What [flashtool.exists()] answers to a call of [flash_katapult_can]
    that starts in state [s]: the question is put after the reading of the
    clock that opens the call. *)
Definition flashtool_present (W : World) (katapult_dir : string) (s : State) : bool :=
  stat W (hist s ++ [EClock (monotonic W (hist s))]) "exists"
    (expanduser W katapult_dir +:+ "/scripts/flashtool.py").

(** The verdicts as the specification words them, for one round of the
    poll taken before the deadline: every listed endpoint that matches the
    pattern decides the round by its own prefix, wherever it stands in the
    listing. *)
Definition every_match_decides (W : World) (pattern : string)
    (timeout interval : Z) (out : bool) (start : Z) (fuel : nat)
    (last_dot_time : Z) (last_katapult_path : option string) (s : State) : Prop :=
  forall devices s3 d,
    (monotonic W (hist s) - start < timeout)%Z ->
    scan_serial_devices W (before_scan W out last_dot_time s) = (Ok devices, s3) ->
    d ∈ devices ->
    matching pattern d = true ->
    (normal_mode d = true ->
     exists s',
       poll_devices W (S fuel) (Some pattern) timeout interval out start
         last_dot_time last_katapult_path s
       = (Ok (true, Some (path d), None), s'))
    /\ (normal_mode d = false -> bootloader_mode d = false ->
        exists s',
          poll_devices W (S fuel) (Some pattern) timeout interval out start
            last_dot_time last_katapult_path s
          = (Ok (false, Some (path d),
                 Some ("Unexpected device prefix: " +:+ filename d)), s')).

(** A write to the registry, and the line [out.success] prints. *)
Definition is_registry_update (e : Event) : bool :=
  match e with ERegistryUpdate _ _ => true | _ => false end.

Definition is_success_report (e : Event) : bool :=
  match e with
  | EOut kind _ => String.eqb kind "success"
  | _ => false
  end.


(** A host on which the directory lists [first] until a command has been
    run and [later] from then on; every command exits with 0. *)
Definition hotplug_world (first later : list string) : World :=
  sample_world
    (fun h => if (0 <? length (commands h))%nat then later else first)
    (fun _ _ => exits 0 "").

(** A mainboard registered under its full name. *)
Definition mainboard_entry : DeviceEntry :=
  {| key := "mainboard"; name := "Mainboard"; mcu := "stm32f446";
     serial_pattern := Some "usb-Klipper_stm32f446xx_11*";
     flash_command := Some "make_flash"; bootloader_method := Some "none";
     canbus_uuid := None; canbus_interface := None; uf2_mount_path := None;
     sdcard_board := None; role := None |}.

(* ===================================================================== *)
(** * Properties *)
(* ===================================================================== *)

#[local] Arguments String.append !s1 s2 : simpl nomatch.

(* ===================================================================== *)
(** * Identity and matching *)
(* ===================================================================== *)

Module MatchingFacts.
Import Fnmatch.

Lemma append_assoc (a b c : string) : (a +:+ b) +:+ c = a +:+ (b +:+ c).
Proof. induction a as [|x a IH]; [reflexivity | simpl; f_equal; exact IH]. Qed.

Lemma append_empty_r (a : string) : a +:+ "" = a.
Proof. induction a as [|x a IH]; [reflexivity | simpl; f_equal; exact IH]. Qed.

Lemma contains_append c a b :
  Str.contains c (a +:+ b) = Str.contains c a || Str.contains c b.
Proof.
  induction a as [|x a IH]; simpl; [reflexivity|].
  rewrite IH. now rewrite orb_assoc.
Qed.

(** A star matches whatever is left. *)
Lemma matches_star_all (s : string) : matches [TStar] s = true.
Proof. induction s as [|c s IH]; simpl in *; [reflexivity | exact IH]. Qed.

(** A star may take exactly one character. *)
Lemma matches_star_one ts c s :
  matches ts s = true -> matches (TStar :: ts) (String c s) = true.
Proof.
  intros H. simpl. apply orb_true_iff. right.
  destruct s; rewrite H; reflexivity.
Qed.

(** A pattern without an opening bracket matches itself, whatever
    follows, as long as the rest of the pattern matches the rest of the
    text. *)
Lemma translate_from_cons c r :
  translate_from 0 (String c r) =
  if Ascii.eqb c "*" then TStar :: translate_from 0 r
  else if Ascii.eqb c "?" then TAny :: translate_from 0 r
  else if Ascii.eqb c "[" then
    match parse_class r with
    | Some (neg, body, n) => TClass neg body :: translate_from n r
    | None => TLit c :: translate_from 0 r
    end
  else TLit c :: translate_from 0 r.
Proof. reflexivity. Qed.

Lemma contains_cons c d s :
  Str.contains c (String d s) = Ascii.eqb c d || Str.contains c s.
Proof. reflexivity. Qed.

Lemma append_cons c a b : String c a +:+ b = String c (a +:+ b).
Proof. reflexivity. Qed.

Lemma matches_lit c ts d r :
  matches (TLit c :: ts) (String d r) = Ascii.eqb c d && matches ts r.
Proof. reflexivity. Qed.

Lemma matches_any ts d r : matches (TAny :: ts) (String d r) = matches ts r.
Proof. reflexivity. Qed.

Lemma matches_self_prefix (p q s : string) :
  Str.contains "[" p = false ->
  matches (translate q) s = true ->
  matches (translate (p +:+ q)) (p +:+ s) = true.
Proof.
  unfold translate. intros Hp Hq.
  induction p as [|c p IH]; [exact Hq|].
  rewrite contains_cons in Hp.
  apply orb_false_iff in Hp as [Hc Hp]. specialize (IH Hp).
  rewrite !append_cons, translate_from_cons.
  destruct (Ascii.eqb c "*") eqn:E1.
  { apply matches_star_one, IH. }
  destruct (Ascii.eqb c "?") eqn:E2.
  { rewrite matches_any. exact IH. }
  destruct (Ascii.eqb c "[") eqn:E3.
  { rewrite Ascii.eqb_sym in Hc. congruence. }
  rewrite matches_lit, Ascii.eqb_refl. exact IH.
Qed.

(** After [-if] and digits, with no newline about, the match of
    [-if\d+$] reaches the end of the text. *)
Lemma digits_to_end_no_newline s r :
  Str.contains "010" s = false -> digits_to_end s = Some r -> r = "".
Proof.
  induction s as [|c s IH]; intros Hn H.
  - simpl in H. congruence.
  - rewrite contains_cons in Hn. apply orb_false_iff in Hn as [Hc Hn].
    cbn [digits_to_end] in H.
    destruct (Str.is_digit c); [now apply IH|].
    rewrite Ascii.eqb_sym in Hc. rewrite Hc in H. discriminate.
Qed.

Lemma if_suffix_here_no_newline s r :
  Str.contains "010" s = false -> if_suffix_here s = Some r -> r = "".
Proof.
  intros Hn H. unfold if_suffix_here in H.
  repeat match type of H with
         | match ?x with _ => _ end = _ => destruct x eqn:?; try discriminate
         end.
  subst. rewrite !contains_cons in Hn.
  repeat (apply orb_false_iff in Hn as [_ Hn]).
  eapply digits_to_end_no_newline; eauto.
Qed.

(** Stripping the interface suffix leaves a prefix of the name. *)
Lemma strip_if_suffix_prefix s :
  Str.contains "010" s = false ->
  exists tail, s = strip_if_suffix s +:+ tail.
Proof.
  induction s as [|c s IH]; intros Hn.
  - exists "". reflexivity.
  - cbn [strip_if_suffix].
    destruct (if_suffix_here (String c s)) as [r|] eqn:E.
    + apply if_suffix_here_no_newline in E; [|exact Hn]. subst r.
      exists (String c s). reflexivity.
    + rewrite contains_cons in Hn. apply orb_false_iff in Hn as [_ Hn].
      destruct (IH Hn) as [tail Ht]. exists tail.
      rewrite append_cons, <- Ht. reflexivity.
Qed.

Lemma strip_if_suffix_no_bracket s :
  Str.contains "[" s = false ->
  Str.contains "010" s = false ->
  Str.contains "[" (strip_if_suffix s) = false.
Proof.
  intros Hb Hn. destruct (strip_if_suffix_prefix s Hn) as [tail Ht].
  rewrite Ht, contains_append in Hb. now apply orb_false_iff in Hb as [Hb _].
Qed.

Lemma strip_klipper rest :
  strip_if_suffix ("usb-Klipper_" +:+ rest) = "usb-Klipper_" +:+ strip_if_suffix rest.
Proof. reflexivity. Qed.

Lemma strip_katapult rest :
  strip_if_suffix ("usb-katapult_" +:+ rest) = "usb-katapult_" +:+ strip_if_suffix rest.
Proof. reflexivity. Qed.

Lemma variants_klipper stem :
  _prefix_variants ("usb-Klipper_" +:+ stem) =
  ["usb-Klipper_" +:+ stem; "usb-katapult_" +:+ stem].
Proof. reflexivity. Qed.

Lemma variants_katapult stem :
  _prefix_variants ("usb-katapult_" +:+ stem) =
  ["usb-katapult_" +:+ stem; "usb-Klipper_" +:+ stem].
Proof. reflexivity. Qed.

(** The pattern generated from a name matches every name that continues
    the stripped name, under a literal prefix [pre]. *)
Lemma fnmatch_generated (pre rest : string) :
  Str.contains "[" pre = false ->
  Str.contains "[" rest = false ->
  Str.contains "010" rest = false ->
  fnmatch (pre +:+ rest) (pre +:+ strip_if_suffix rest +:+ "*") = true.
Proof.
  intros Hpre Hb Hn.
  destruct (strip_if_suffix_prefix rest Hn) as [tail Ht].
  pose proof (strip_if_suffix_no_bracket rest Hb Hn) as Hs.
  unfold fnmatch. set (stem := strip_if_suffix rest) in *.
  rewrite Ht, <- !append_assoc.
  apply matches_self_prefix.
  - now rewrite contains_append, Hpre, Hs.
  - apply matches_star_all.
Qed.

End MatchingFacts.

(** C5, as stated, fails: a name with a bracket in it yields a pattern in
    which the bracket opens a character class, and that pattern does not
    match the name under the other prefix. *)
Lemma prefix_agnostic_bracket_counterexample :
  ~ prefix_agnostic "rp2040_30[1]-if00".
Proof.
  intros H. destruct (H "/dev/serial/by-id/usb-katapult_rp2040_30[1]-if00") as [H1 _].
  vm_compute in H1. discriminate.
Qed.

(** C5, amended: for every name without an opening bracket and without a
    newline after the prefix, the pattern generated from the name under one
    prefix selects the endpoint with the same name under the other prefix,
    in both directions. *)
Theorem match_devices_prefix_agnostic (rest : string) :
  Str.contains "[" rest = false ->
  Str.contains "010" rest = false ->
  prefix_agnostic rest.
Proof.
  intros Hb Hn p. unfold generate_serial_pattern, match_devices.
  rewrite MatchingFacts.strip_klipper, MatchingFacts.strip_katapult.
  rewrite !MatchingFacts.append_assoc.
  rewrite MatchingFacts.variants_klipper, MatchingFacts.variants_katapult.
  unfold any_variant_matches. cbn [List.filter filename existsb].
  pose proof (MatchingFacts.fnmatch_generated "usb-katapult_" rest eq_refl Hb Hn) as H1.
  pose proof (MatchingFacts.fnmatch_generated "usb-Klipper_" rest eq_refl Hb Hn) as H2.
  rewrite H1, H2. rewrite !orb_true_r. split; reflexivity.
Qed.

Lemma match_devices_prefix_agnostic_witness :
  Str.contains "[" "stm32h723xx_29001A001151313531383332-if00" = false /\
  Str.contains "010" "stm32h723xx_29001A001151313531383332-if00" = false /\
  prefix_agnostic "stm32h723xx_29001A001151313531383332-if00".
Proof.
  split; [reflexivity|]. split; [reflexivity|].
  apply match_devices_prefix_agnostic; reflexivity.
Defined.

(* ===================================================================== *)
(** * Two-phase re-enumeration polling *)
(* ===================================================================== *)

Section PollFacts.
Context (W : World).

Lemma default_scan_fn_eq s :
  default_scan_fn W s =
  (Ok (listed (listdir W (hist s) SERIAL_DIR)),
   log s (EListdir SERIAL_DIR (listdir W (hist s) SERIAL_DIR))).
Proof. reflexivity. Qed.

Lemma wait_disappear_S fuel scan original deadline interval s :
  wait_disappear W (S fuel) scan original deadline interval s =
  let t := monotonic W (hist s) in
  let s1 := log s (EClock t) in
  if (t <? deadline)%Z then
    match scan s1 with
    | (Ok filenames, s2) =>
        if negb (Str.mem original filenames) then (Ok true, s2)
        else wait_disappear W fuel scan original deadline interval
               (if (0 <? interval)%Z then log s2 (ESleep interval) else s2)
    | (Raise e, s2) => (Raise e, s2)
    | (Diverge, s2) => (Diverge, s2)
    end
  else (Ok false, s1).
Proof.
  cbn [wait_disappear]. unfold bind, now, ask. cbn zeta.
  destruct (_ <? deadline)%Z; [|reflexivity].
  destruct (scan _) as [[filenames|e|] s2]; try reflexivity.
  destruct (negb _); [reflexivity|].
  unfold when, sleep, emit, ret. destruct (0 <? interval)%Z; reflexivity.
Qed.

(** Phase 1 ends with [break] only right after a listing without the
    original name. *)
Lemma wait_disappear_break fuel original deadline interval s s' :
  wait_disappear W fuel (default_scan_fn W) original deadline interval s = (Ok true, s') ->
  exists s1,
    Str.mem original (listed (listdir W (hist s1) SERIAL_DIR)) = false
    /\ s' = log s1 (EListdir SERIAL_DIR (listdir W (hist s1) SERIAL_DIR)).
Proof.
  revert s. induction fuel as [|fuel IH]; intros s H.
  - discriminate.
  - rewrite wait_disappear_S in H. cbn zeta in H.
    destruct (_ <? deadline)%Z; [|discriminate].
    rewrite default_scan_fn_eq in H.
    destruct (negb _) eqn:E.
    + injection H as <-. exists (log s (EClock (monotonic W (hist s)))).
      split; [now apply negb_true_iff in E | reflexivity].
    + eapply IH, H.
Qed.

(** While the original name is listed, phase 1 never ends with
    [break]. *)
Lemma wait_disappear_present fuel original deadline interval s :
  present_until W original deadline ->
  exists s',
    wait_disappear W fuel (default_scan_fn W) original deadline interval s = (Ok false, s')
    \/ wait_disappear W fuel (default_scan_fn W) original deadline interval s = (Diverge, s').
Proof.
  intros Hp. revert s. induction fuel as [|fuel IH]; intros s.
  - exists s. right. reflexivity.
  - rewrite wait_disappear_S. cbn zeta.
    destruct (_ <? deadline)%Z eqn:Et.
    + rewrite default_scan_fn_eq.
      apply Z.ltb_lt in Et.
      destruct (Hp (hist s) _ Et) as (names & Hl & Hm).
      cbn [log hist]. rewrite Hl. cbn [listed]. rewrite Hm. cbn [negb].
      apply IH.
    + eexists. left. reflexivity.
Qed.

(** With a clock that moves, phase 1 runs into its deadline. *)
Lemma wait_disappear_timeout fuel original deadline interval n s :
  present_until W original deadline ->
  clock_passes W deadline n ->
  (n <= length (hist s) + fuel)%nat ->
  exists s',
    wait_disappear W (S fuel) (default_scan_fn W) original deadline interval s
    = (Ok false, s').
Proof.
  intros Hp Hc. revert s. induction fuel as [|fuel IH]; intros s Hn;
    rewrite wait_disappear_S; cbn zeta.
  - assert (Ht : (monotonic W (hist s) <? deadline)%Z = false).
    { apply Z.ltb_ge, Hc. lia. }
    rewrite Ht. eexists. reflexivity.
  - destruct (_ <? deadline)%Z eqn:Et; [|eexists; reflexivity].
    rewrite default_scan_fn_eq.
    apply Z.ltb_lt in Et.
    destruct (Hp (hist s) _ Et) as (names & Hl & Hm).
    cbn [log hist]. rewrite Hl. cbn [listed]. rewrite Hm. cbn [negb].
    apply IH. destruct (0 <? interval)%Z; cbn [log hist];
      rewrite ?length_app; cbn [length]; lia.
Qed.

Lemma poll_unfold fuel path pat timeout interval scan s :
  _poll_for_reenumeration W fuel path pat timeout interval scan s =
  let t0 := monotonic W (hist s) in
  let deadline := (t0 + timeout)%Z in
  match wait_disappear W fuel scan (Str.basename path) deadline interval
          (log s (EClock t0)) with
  | (Ok true, s1) =>
      wait_reappear W fuel scan (extract_device_signature (Str.basename path))
        deadline interval s1
  | (Ok false, s1) => (Ok None, s1)
  | (Raise e, s1) => (Raise e, s1)
  | (Diverge, s1) => (Diverge, s1)
  end.
Proof.
  unfold _poll_for_reenumeration, bind, now, ask. cbn zeta.
  destruct (wait_disappear _ _ _ _ _ _ _) as [[[]|e|] s1]; reflexivity.
Qed.

End PollFacts.

(** C2.  Phase 2 of the polling is entered only right after a listing in
    which the original name is absent: a successful result is the result
    of phase 2 started there.  When every listing taken before the
    deadline shows the original name, the run is that of phase 1 alone and
    the result is never a success; with a clock that passes the deadline
    the result is [None]. *)
Theorem poll_disappearance_before_reappearance (W : World)
    (path pat : string) (timeout interval : Z) (s : State) :
  let original := Str.basename path in
  let deadline := (monotonic W (hist s) + timeout)%Z in
  let poll fuel :=
    _poll_for_reenumeration W fuel path pat timeout interval (default_scan_fn W) s in
  (forall fuel p s',
      poll fuel = (Ok (Some p), s') ->
      exists s1,
        Str.mem original (listed (listdir W (hist s1) SERIAL_DIR)) = false
        /\ wait_reappear W fuel (default_scan_fn W) (extract_device_signature original)
             deadline interval
             (log s1 (EListdir SERIAL_DIR (listdir W (hist s1) SERIAL_DIR)))
           = (Ok (Some p), s'))
  /\
  (present_until W original deadline ->
   (forall fuel,
       (fst (poll fuel) = Ok None \/ fst (poll fuel) = Diverge)
       /\ snd (poll fuel)
          = snd (wait_disappear W fuel (default_scan_fn W) original deadline interval
                   (log s (EClock (monotonic W (hist s))))))
   /\
   (forall n, clock_passes W deadline n ->
              exists fuel, fst (poll fuel) = Ok None)).
Proof.
  cbn zeta. split.
  - intros fuel p s' H. rewrite poll_unfold in H. cbn zeta in H.
    destruct (wait_disappear _ _ _ _ _ _ _) as [[[]|e|] s1] eqn:E; try discriminate.
    apply wait_disappear_break in E as (s0 & Hm & ->).
    exists s0. split; assumption.
  - intros Hp. split.
    + intros fuel. rewrite poll_unfold. cbn zeta.
      destruct (wait_disappear_present W fuel (Str.basename path)
                  (monotonic W (hist s) + timeout) interval
                  (log s (EClock (monotonic W (hist s)))) Hp) as [s' [E|E]];
        rewrite E; cbn; auto.
    + intros n Hc. exists (S n). rewrite poll_unfold. cbn zeta.
      destruct (wait_disappear_timeout W n (Str.basename path)
                  (monotonic W (hist s) + timeout) interval n
                  (log s (EClock (monotonic W (hist s)))) Hp Hc) as [s' E].
      { lia. }
      rewrite E. reflexivity.
Qed.

(** On a host whose listing always shows the original file, and the same
    board in bootloader mode next to it, the poll gives up after ten
    seconds. *)
Lemma poll_disappearance_before_reappearance_witness :
  let W := quiet_world ["usb-Klipper_rp2040_30AB-if00"; "usb-katapult_rp2040_30AB-if00"] 0 in
  present_until W "usb-Klipper_rp2040_30AB-if00" 10000
  /\ clock_passes W 10000 10
  /\ exists fuel,
       fst (_poll_for_reenumeration W fuel
              "/dev/serial/by-id/usb-Klipper_rp2040_30AB-if00" "usb-Klipper_rp2040_30AB*"
              10000 1000 (default_scan_fn W) start_state) = Ok None.
Proof.
  cbn zeta.
  assert (Hp : present_until
                 (quiet_world ["usb-Klipper_rp2040_30AB-if00";
                               "usb-katapult_rp2040_30AB-if00"] 0)
                 "usb-Klipper_rp2040_30AB-if00" 10000).
  { intros h t _. eexists. split; reflexivity. }
  assert (Hc : clock_passes
                 (quiet_world ["usb-Klipper_rp2040_30AB-if00";
                               "usb-katapult_rp2040_30AB-if00"] 0) 10000 10).
  { intros h Hn. cbn. lia. }
  split; [exact Hp|]. split; [exact Hc|].
  exact (proj2 (proj2 (poll_disappearance_before_reappearance
                  (quiet_world ["usb-Klipper_rp2040_30AB-if00";
                                "usb-katapult_rp2040_30AB-if00"] 0)
                  "/dev/serial/by-id/usb-Klipper_rp2040_30AB-if00"
                  "usb-Klipper_rp2040_30AB*" 10000 1000 start_state) Hp) 10%nat Hc).
Defined.

(* ===================================================================== *)
(** * Bootloader handlers *)
(* ===================================================================== *)

Section HandlerFacts.
Context (W : World).


Lemma wait_reappear_S fuel scan sig deadline interval s :
  wait_reappear W (S fuel) scan sig deadline interval s =
  let t := monotonic W (hist s) in
  let s1 := log s (EClock t) in
  if (t <? deadline)%Z then
    match scan s1 with
    | (Ok filenames, s2) =>
        match first_with_signature sig filenames with
        | Some fname => (Ok (Some (path_join SERIAL_DIR fname)), s2)
        | None =>
            wait_reappear W fuel scan sig deadline interval
              (if (0 <? interval)%Z then log s2 (ESleep interval) else s2)
        end
    | (Raise e, s2) => (Raise e, s2)
    | (Diverge, s2) => (Diverge, s2)
    end
  else (Ok None, s1).
Proof.
  cbn [wait_reappear]. unfold bind, now, ask. cbn zeta.
  destruct (_ <? deadline)%Z; [|reflexivity].
  destruct (scan _) as [[filenames|e|] s2]; try reflexivity.
  destruct (first_with_signature _ _); [reflexivity|].
  unfold when, sleep, emit, ret. destruct (0 <? interval)%Z; reflexivity.
Qed.



End HandlerFacts.

(** ** Reading a computation backwards *)



Section RunFacts.
Context (W : World).



End RunFacts.

Section HandlerTheorems.
Context (W : World).





End HandlerTheorems.




(* ===================================================================== *)
(** * The retry loop of the CAN transfer *)
(* ===================================================================== *)

Lemma commands_log_run s argv o :
  commands (hist (log s (ERun argv o))) = commands (hist s) ++ [(argv, o)].
Proof. unfold commands. cbn [log hist]. now rewrite omap_app. Qed.

Lemma commands_log_clock s t : commands (hist (log s (EClock t))) = commands (hist s).
Proof. unfold commands. cbn [log hist]. rewrite omap_app. cbn. apply app_nil_r. Qed.

Lemma commands_log_sleep s t : commands (hist (log s (ESleep t))) = commands (hist s).
Proof. unfold commands. cbn [log hist]. rewrite omap_app. cbn. apply app_nil_r. Qed.

Lemma commands_log_stat s w p r : commands (hist (log s (EStat w p r))) = commands (hist s).
Proof. unfold commands. cbn [log hist]. rewrite omap_app. cbn. apply app_nil_r. Qed.

Section RetryFacts.
Context (W : World).

(** One pass through the loop body makes one attempt. *)
Lemma can_attempt_cases start timeout argv s :
  let o := run W (hist s) argv in
  let s1 := log s (ERun argv o) in
  match o with
  | Completed p =>
      if (returncode p =? 0)%Z then
        exists fr, can_attempt W start timeout argv s
                   = (Ok (Returned fr), log s1 (EClock (monotonic W (hist s1))))
                   /\ fr_success fr = true /\ fr_method fr = "katapult_can"
      else can_attempt W start timeout argv s
           = (Ok (Next "flashtool.py returned non-zero exit code"), s1)
  | RunRaises TimeoutExpired =>
      can_attempt W start timeout argv s
      = (Ok (Next ("CAN flash timeout (" +:+ seconds timeout +:+ "s)")), s1)
  | RunRaises (OSError msg) =>
      can_attempt W start timeout argv s
      = (Ok (Break ("Failed to run flashtool.py: " +:+ msg)), s1)
  | RunRaises e => can_attempt W start timeout argv s = (Raise e, s1)
  end.
Proof.
  cbn zeta. unfold can_attempt, try_except, bind, subprocess_run, ask, now, ret.
  destruct (run W (hist s) argv) as [p|e]; cbn.
  - destruct (returncode p =? 0)%Z; [|reflexivity].
    eexists. split; [reflexivity|]. split; reflexivity.
  - destruct e; reflexivity.
Qed.

Lemma can_attempts_run atts max start timeout argv last_error s res s' :
  can_attempts W atts max start timeout argv last_error s = (res, s') ->
  exists made fin,
    commands (hist s') = commands (hist s) ++ map (pair argv) made
    /\ attempt_run timeout last_error (length atts) made fin
    /\ match fin with
       | Flashed_ => exists fr, res = Ok (inl fr) /\ fr_success fr = true
                                /\ fr_method fr = "katapult_can"
       | GaveUp e => res = Ok (inr e)
       | Propagated e => res = Raise e
       end.
Proof.
  revert last_error s. induction atts as [|attempt rest IH]; intros last_error s H.
  - cbn in H. injection H as <- <-. exists [], (GaveUp last_error).
    split; [now rewrite app_nil_r|]. split; [constructor | reflexivity].
  - cbn [can_attempts] in H. unfold bind in H.
    pose proof (can_attempt_cases start timeout argv s) as Hc. cbn zeta in Hc.
    destruct (run W (hist s) argv) as [p|e] eqn:Er.
    + destruct (returncode p =? 0)%Z eqn:Ez.
      * destruct Hc as (fr & Hc & Hs & Hm). rewrite Hc in H.
        injection H as <- <-. exists [Completed p], Flashed_.
        rewrite commands_log_clock, commands_log_run.
        split; [reflexivity|]. split; [constructor; now apply Z.eqb_eq|]. eauto.
      * rewrite Hc in H.
        assert (Hn : can_attempts W rest max start timeout argv
                       "flashtool.py returned non-zero exit code"
                       (if (attempt <? max)%nat
                        then log (log s (ERun argv (Completed p))) (ESleep 2000)
                        else log s (ERun argv (Completed p))) = (res, s')).
        { unfold when, sleep, emit, ret in H. destruct (attempt <? max)%nat; exact H. }
        apply IH in Hn as (made & fin & Hcm & Hr & Hf).
        exists (Completed p :: made), fin. split.
        { rewrite Hcm. destruct (attempt <? max)%nat;
            rewrite ?commands_log_sleep, commands_log_run, <- app_assoc; reflexivity. }
        split; [|exact Hf]. apply run_nonzero; [now apply Z.eqb_neq | exact Hr].
    + destruct e.
      3:{ rewrite Hc in H.
          assert (Hn : can_attempts W rest max start timeout argv
                         ("CAN flash timeout (" +:+ seconds timeout +:+ "s)")
                         (if (attempt <? max)%nat
                          then log (log s (ERun argv (RunRaises TimeoutExpired)))
                                 (ESleep 2000)
                          else log s (ERun argv (RunRaises TimeoutExpired)))
                       = (res, s')).
          { unfold when, sleep, emit, ret in H. destruct (attempt <? max)%nat; exact H. }
          apply IH in Hn as (made & fin & Hcm & Hr & Hf).
          exists (RunRaises TimeoutExpired :: made), fin. split.
          { rewrite Hcm. destruct (attempt <? max)%nat;
              rewrite ?commands_log_sleep, commands_log_run, <- app_assoc; reflexivity. }
          split; [|exact Hf]. now apply run_timeout. }
      3:{ rewrite Hc in H. injection H as <- <-.
          exists [RunRaises (OSError msg)], (GaveUp ("Failed to run flashtool.py: " +:+ msg)).
          rewrite commands_log_run. split; [reflexivity|].
          split; [constructor | reflexivity]. }
      all: rewrite Hc in H; injection H as <- <-;
        eexists [RunRaises _], (Propagated _);
        rewrite commands_log_run; (split; [reflexivity|]);
        (split; [constructor; [discriminate | intros; discriminate] | reflexivity]).
Qed.

End RetryFacts.

(** ** What a run of the loop looks like *)

Lemma attempt_run_length timeout le n made fin :
  attempt_run timeout le n made fin -> (length made <= n)%nat.
Proof. induction 1; cbn; lia. Qed.

(** An attempt that ends with a non-zero exit code or a time-out is
    followed by another one, unless it was the last one allowed. *)
Lemma attempt_run_continues timeout le n made fin i o :
  attempt_run timeout le n made fin ->
  made !! i = Some o ->
  (o = RunRaises TimeoutExpired \/ exists p, o = Completed p /\ returncode p <> 0%Z) ->
  (i + 1 < n)%nat ->
  is_Some (made !! (i + 1)%nat).
Proof.
  intros Hr. revert i. induction Hr; intros i Hi Ho Hn.
  - discriminate.
  - destruct i; [|discriminate]. injection Hi as <-.
    destruct Ho as [|(q & [= <-] & Hq)]; [discriminate | contradiction].
  - destruct i as [|i].
    + cbn. inversion Hr; subst; cbn; eauto; lia.
    + cbn in Hi |- *. apply IHHr; [exact Hi | exact Ho | lia].
  - destruct i as [|i].
    + cbn. inversion Hr; subst; cbn; eauto; lia.
    + cbn in Hi |- *. apply IHHr; [exact Hi | exact Ho | lia].
  - destruct i; [|discriminate]. injection Hi as <-.
    destruct Ho as [|(q & ? & _)]; discriminate.
  - destruct i; [|discriminate]. injection Hi as <-.
    destruct Ho as [[= ->]|(q & ? & _)]; [congruence | discriminate].
Qed.

(** An attempt that cannot be launched is the last one, and the loop
    gives up. *)
Lemma attempt_run_oserror timeout le n made fin i msg :
  attempt_run timeout le n made fin ->
  made !! i = Some (RunRaises (OSError msg)) ->
  length made = (i + 1)%nat /\ fin = GaveUp ("Failed to run flashtool.py: " +:+ msg).
Proof.
  intros Hr. revert i. induction Hr; intros i Hi.
  - discriminate.
  - destruct i; discriminate.
  - destruct i as [|i]; [discriminate|]. cbn in Hi.
    destruct (IHHr i Hi) as [Hl ->]. cbn. split; [lia | reflexivity].
  - destruct i as [|i]; [discriminate|]. cbn in Hi.
    destruct (IHHr i Hi) as [Hl ->]. cbn. split; [lia | reflexivity].
  - destruct i; [|discriminate]. injection Hi as Hi. subst. split; reflexivity.
  - destruct i; [|discriminate]. injection Hi as Hi. subst. now specialize (H0 msg).
Qed.

(** An attempt that exits with zero is the last one, and the loop returns
    success. *)
Lemma attempt_run_zero timeout le n made fin i p :
  attempt_run timeout le n made fin ->
  made !! i = Some (Completed p) -> returncode p = 0%Z ->
  length made = (i + 1)%nat /\ fin = Flashed_.
Proof.
  intros Hr. revert i. induction Hr; intros i Hi Hp.
  - discriminate.
  - destruct i; [|discriminate]. split; reflexivity.
  - destruct i as [|i].
    + injection Hi as <-. contradiction.
    + cbn in Hi. destruct (IHHr i Hi Hp) as [Hl ->]. cbn. split; [lia | reflexivity].
  - destruct i as [|i]; [discriminate|]. cbn in Hi.
    destruct (IHHr i Hi Hp) as [Hl ->]. cbn. split; [lia | reflexivity].
  - destruct i; discriminate.
  - destruct i; discriminate.
Qed.

(** A loop that gives up before its attempts are used up was broken by an
    attempt that could not be launched. *)
Lemma attempt_run_gave_up_early timeout le n made e :
  attempt_run timeout le n made (GaveUp e) ->
  (length made < n)%nat ->
  exists msg, last made = Some (RunRaises (OSError msg)).
Proof.
  remember (GaveUp e) as fin eqn:Ef. intros Hr. revert Ef.
  induction Hr; intros Ef Hn; try discriminate.
  - cbn in Hn. lia.
  - destruct (IHHr Ef) as [msg Hm]; [cbn in Hn; lia|].
    exists msg. destruct rest; [discriminate | exact Hm].
  - destruct (IHHr Ef) as [msg Hm]; [cbn in Hn; lia|].
    exists msg. destruct rest; [discriminate | exact Hm].
  - eauto.
Qed.

(** When the last allowed attempt times out the loop gives up with the
    time-out as its last error. *)
Lemma attempt_run_last_timeout timeout le n made fin :
  attempt_run timeout le n made fin ->
  length made = n -> last made = Some (RunRaises TimeoutExpired) ->
  fin = GaveUp ("CAN flash timeout (" +:+ seconds timeout +:+ "s)").
Proof.
  induction 1; intros Hl Hlast; try discriminate.
  - destruct rest as [|o rest].
    + inversion H0; subst; discriminate.
    + apply IHattempt_run; [cbn in *; lia | exact Hlast].
  - destruct rest as [|o rest].
    + inversion H; subst; reflexivity.
    + apply IHattempt_run; [cbn in *; lia | exact Hlast].
  - injection Hlast as ->. contradiction.
Qed.

Section RetryLoop.
Context (W : World).

(** The attempts of one call of [flash_katapult_can], and how the call
    ends: without any attempt when the tool is missing, and otherwise as
    the loop is left. *)
Lemma flash_katapult_can_run uuid interface firmware_path katapult timeout max s r s' :
  flash_katapult_can W uuid interface firmware_path katapult timeout max s = (r, s') ->
  exists made,
    commands (hist s')
    = commands (hist s)
      ++ map (pair (can_flash_argv W uuid interface firmware_path katapult)) made
    /\ ((made = [] /\ exists fr, r = Ok fr /\ fr_success fr = false)
        \/ exists fin,
             attempt_run timeout "" max made fin
             /\ match fin with
                | Flashed_ => exists fr, r = Ok fr /\ fr_success fr = true
                                         /\ fr_method fr = "katapult_can"
                | GaveUp e =>
                    exists fr, r = Ok fr /\ fr_success fr = false
                               /\ fr_error_message fr
                                  = Some (e +:+ " (after " +:+ Str.of_Z (Z.of_nat max)
                                          +:+ " attempts)")
                | Propagated e => r = Raise e
                end).
Proof.
  intros H. unfold flash_katapult_can, bind, now, path_exists, ask in H. cbn zeta in H.
  destruct (stat W _ "exists" _) eqn:Es; cbn [negb] in H.
  - destruct (can_attempts _ _ _ _ _ _ _ _) as [res s1] eqn:Ec.
    apply can_attempts_run in Ec as (made & fin & Hc & Hr & Hf).
    rewrite length_seq in Hr.
    rewrite commands_log_stat, commands_log_clock in Hc.
    exists made. destruct fin as [|e|e].
    + destruct Hf as (fr & -> & Hs & Hm). cbn in H. injection H as <- <-.
      split; [exact Hc|]. right. exists Flashed_. split; [exact Hr|]. eauto.
    + subst res. cbn in H. injection H as <- <-.
      rewrite commands_log_clock. split; [exact Hc|]. right.
      exists (GaveUp e). split; [exact Hr|]. eexists. split; [reflexivity|].
      split; reflexivity.
    + subst res. injection H as <- <-. split; [exact Hc|]. right.
      exists (Propagated e). split; [exact Hr | reflexivity].
  - injection H as <- <-. exists [].
    rewrite commands_log_clock, commands_log_stat, commands_log_clock, app_nil_r.
    split; [reflexivity|]. left. split; [reflexivity|].
    eexists. split; reflexivity.
Qed.

End RetryLoop.

(** A loop with an attempt left makes one. *)
Lemma attempt_run_nonempty timeout le n made fin :
  attempt_run timeout le (S n) made fin -> made <> [].
Proof. inversion 1; discriminate. Qed.

(** A loop that returns success was ended by an attempt that exited with
    zero. *)
Lemma attempt_run_flashed_last timeout le n made :
  attempt_run timeout le n made Flashed_ ->
  exists p, last made = Some (Completed p) /\ returncode p = 0%Z.
Proof.
  remember Flashed_ as fin eqn:Ef. intros Hr. revert Ef.
  induction Hr; intros Ef; try discriminate.
  - exists p. split; [reflexivity | assumption].
  - destruct (IHHr Ef) as (q & Hq & Hz). exists q. split; [|exact Hz].
    destruct rest; [discriminate | exact Hq].
  - destruct (IHHr Ef) as (q & Hq & Hz). exists q. split; [|exact Hz].
    destruct rest; [discriminate | exact Hq].
Qed.

(** A loop that gives up made no attempt that exited with zero. *)
Lemma attempt_run_gave_up_nonzero timeout le n made e i p :
  attempt_run timeout le n made (GaveUp e) ->
  made !! i = Some (Completed p) -> returncode p <> 0%Z.
Proof.
  intros Hr Hi Hz. destruct (attempt_run_zero _ _ _ _ _ _ _ Hr Hi Hz) as [_ ?].
  discriminate.
Qed.

Section RetryLoopTool.
Context (W : World).

(** The attempts of one call of [flash_katapult_can], by the answer to
    [flashtool.exists()]: no attempt and a failure when the tool is
    missing, the loop over three attempts when it is there. *)
Lemma flash_katapult_can_by_tool uuid interface firmware_path katapult timeout max s r s' :
  flash_katapult_can W uuid interface firmware_path katapult timeout max s = (r, s') ->
  exists made,
    commands (hist s')
    = commands (hist s)
      ++ map (pair (can_flash_argv W uuid interface firmware_path katapult)) made
    /\ if flashtool_present W katapult s then
         exists fin,
           attempt_run timeout "" max made fin
           /\ match fin with
              | Flashed_ => exists fr, r = Ok fr /\ fr_success fr = true
              | GaveUp e => exists fr, r = Ok fr /\ fr_success fr = false
              | Propagated e => r = Raise e
              end
       else made = [] /\ exists fr, r = Ok fr /\ fr_success fr = false.
Proof.
  intros H. unfold flash_katapult_can, bind, now, path_exists, ask in H. cbn zeta in H.
  unfold flashtool_present.
  change (hist (log s (EClock (monotonic W (hist s)))))
    with (hist s ++ [EClock (monotonic W (hist s))]) in H.
  destruct (stat W _ "exists" _) eqn:Es; cbn [negb] in H.
  - destruct (can_attempts _ _ _ _ _ _ _ _) as [res s1] eqn:Ec.
    apply can_attempts_run in Ec as (made & fin & Hc & Hr & Hf).
    rewrite length_seq in Hr.
    rewrite commands_log_stat, commands_log_clock in Hc.
    exists made. destruct fin as [|e|e].
    + destruct Hf as (fr & -> & Hs & Hm). cbn in H. injection H as <- <-.
      split; [exact Hc|]. exists Flashed_. split; [exact Hr|]. eauto.
    + subst res. cbn in H. injection H as <- <-.
      rewrite commands_log_clock. split; [exact Hc|].
      exists (GaveUp e). split; [exact Hr|]. eexists. split; reflexivity.
    + subst res. injection H as <- <-. split; [exact Hc|].
      exists (Propagated e). split; [exact Hr | reflexivity].
  - injection H as <- <-. exists [].
    rewrite commands_log_clock, commands_log_stat, commands_log_clock, app_nil_r.
    split; [reflexivity|]. split; [reflexivity|].
    eexists. split; reflexivity.
Qed.

End RetryLoopTool.

(** C7.  One call of [flash_katapult_can] makes no attempt and fails when
    the flash tool is missing, and otherwise makes at least one attempt and
    at most three.  An attempt that exits with a non-zero code is followed
    by another one unless it was the third; an attempt that cannot be
    launched is the last one and the call fails; an attempt that exits with
    zero is the last one and the call succeeds.  A call that succeeds was
    ended by an attempt that exited with zero, and a call that fails made
    no such attempt. *)
Theorem flash_katapult_can_retry_policy (W : World)
    (uuid interface firmware_path katapult : string) (timeout : Z)
    (s : State) (r : Res FlashResult) (s' : State) :
  flash_katapult_can W uuid interface firmware_path katapult timeout
    CAN_RETRY_ATTEMPTS s = (r, s') ->
  exists made : list ProcOutcome,
    commands (hist s')
    = commands (hist s)
      ++ map (pair (can_flash_argv W uuid interface firmware_path katapult)) made
    /\ (length made <= 3)%nat
    /\ (forall i p, made !! i = Some (Completed p) -> returncode p <> 0%Z ->
                    (i + 1 < 3)%nat -> is_Some (made !! (i + 1)%nat))
    /\ (forall i msg, made !! i = Some (RunRaises (OSError msg)) ->
                      length made = (i + 1)%nat
                      /\ exists fr, r = Ok fr /\ fr_success fr = false)
    /\ (forall i p, made !! i = Some (Completed p) -> returncode p = 0%Z ->
                    length made = (i + 1)%nat
                    /\ exists fr, r = Ok fr /\ fr_success fr = true)
    /\ (flashtool_present W katapult s = true -> (1 <= length made)%nat)
    /\ (flashtool_present W katapult s = false ->
        made = [] /\ exists fr, r = Ok fr /\ fr_success fr = false)
    /\ (forall fr, r = Ok fr -> fr_success fr = true ->
                   exists p, last made = Some (Completed p) /\ returncode p = 0%Z)
    /\ (forall fr, r = Ok fr -> fr_success fr = false ->
                   forall i p, made !! i = Some (Completed p) -> returncode p <> 0%Z).
Proof.
  intros H. apply flash_katapult_can_by_tool in H as (made & Hc & Hcase).
  exists made. split; [exact Hc|].
  destruct (flashtool_present W katapult s).
  - destruct Hcase as (fin & Hr & Hf).
    split; [exact (attempt_run_length _ _ _ _ _ Hr)|].
    split; [|split; [|split; [|split; [|split; [|split]]]]].
    + intros i p Hi Hp Hn. eapply attempt_run_continues; eauto.
    + intros i msg Hi. destruct (attempt_run_oserror _ _ _ _ _ _ _ Hr Hi) as [Hl ->].
      split; [exact Hl|]. exact Hf.
    + intros i p Hi Hp. destruct (attempt_run_zero _ _ _ _ _ _ _ Hr Hi Hp) as [Hl ->].
      split; [exact Hl|]. exact Hf.
    + intros _. pose proof (attempt_run_nonempty _ _ _ _ _ Hr) as Hn.
      destruct made; [congruence | cbn; lia].
    + discriminate.
    + intros fr -> Hs. destruct fin as [|e|e].
      * exact (attempt_run_flashed_last _ _ _ _ Hr).
      * destruct Hf as (fr' & [= <-] & Hs'). congruence.
      * discriminate.
    + intros fr -> Hs i p Hi. destruct fin as [|e|e].
      * destruct Hf as (fr' & [= <-] & Hs'). congruence.
      * exact (attempt_run_gave_up_nonzero _ _ _ _ _ _ _ Hr Hi).
      * discriminate.
  - destruct Hcase as [-> Hf].
    split; [cbn; lia|].
    split; [|split; [|split; [|split; [|split; [|split]]]]];
      try (intros; discriminate).
    + intros _. split; [reflexivity | exact Hf].
    + intros fr -> Hs. destruct Hf as (fr' & [= <-] & Hs'). congruence.
Qed.

(** Two failures and then a clean exit: the tool is there, the three
    attempts are made one after the other, and the call succeeds. *)
Lemma flash_katapult_can_retry_policy_witness :
  let W := scripted_world [exits 1 ""; exits 2 ""; exits 0 ""] in
  let run := flash_katapult_can W "48ca7afe7a44" "can0" "klipper.bin" "~/katapult"
               TIMEOUT_CAN_FLASH CAN_RETRY_ATTEMPTS start_state in
  (exists fr, fst run = Ok fr /\ fr_success fr = true)
  /\ flashtool_present W "~/katapult" start_state = true
  /\ commands (hist (snd run))
     = map (pair (can_flash_argv W "48ca7afe7a44" "can0" "klipper.bin" "~/katapult"))
         [exits 1 ""; exits 2 ""; exits 0 ""]
  /\ exists made : list ProcOutcome,
       commands (hist (snd run))
       = commands (hist start_state)
         ++ map (pair (can_flash_argv W "48ca7afe7a44" "can0" "klipper.bin" "~/katapult"))
              made
       /\ (length made <= 3)%nat
       /\ (forall i p, made !! i = Some (Completed p) -> returncode p <> 0%Z ->
                       (i + 1 < 3)%nat -> is_Some (made !! (i + 1)%nat))
       /\ (forall i msg, made !! i = Some (RunRaises (OSError msg)) ->
                         length made = (i + 1)%nat
                         /\ exists fr, fst run = Ok fr /\ fr_success fr = false)
       /\ (forall i p, made !! i = Some (Completed p) -> returncode p = 0%Z ->
                       length made = (i + 1)%nat
                       /\ exists fr, fst run = Ok fr /\ fr_success fr = true)
       /\ (flashtool_present W "~/katapult" start_state = true -> (1 <= length made)%nat)
       /\ (flashtool_present W "~/katapult" start_state = false ->
           made = [] /\ exists fr, fst run = Ok fr /\ fr_success fr = false)
       /\ (forall fr, fst run = Ok fr -> fr_success fr = true ->
                      exists p, last made = Some (Completed p) /\ returncode p = 0%Z)
       /\ (forall fr, fst run = Ok fr -> fr_success fr = false ->
                      forall i p, made !! i = Some (Completed p) -> returncode p <> 0%Z).
Proof.
  intros W run. split; [|split; [|split]].
  - eexists. split; vm_compute; reflexivity.
  - vm_compute. reflexivity.
  - vm_compute. reflexivity.
  - exact (flash_katapult_can_retry_policy W "48ca7afe7a44" "can0" "klipper.bin"
             "~/katapult" TIMEOUT_CAN_FLASH start_state (fst run) (snd run)
             (surjective_pairing run)).
Defined.

(** C10.  A time-out of one attempt is handled like a non-zero exit code:
    the attempt counts among the three, another attempt follows unless it
    was the third, and after a third time-out the call fails with the
    time-out as its reason.  A call that fails after fewer than three
    attempts was ended by an attempt that could not be launched. *)
Theorem flash_katapult_can_timeout_is_retried (W : World)
    (uuid interface firmware_path katapult : string) (timeout : Z)
    (s : State) (r : Res FlashResult) (s' : State) :
  flash_katapult_can W uuid interface firmware_path katapult timeout
    CAN_RETRY_ATTEMPTS s = (r, s') ->
  exists made : list ProcOutcome,
    commands (hist s')
    = commands (hist s)
      ++ map (pair (can_flash_argv W uuid interface firmware_path katapult)) made
    /\ (length made <= 3)%nat
    /\ (forall i, made !! i = Some (RunRaises TimeoutExpired) ->
                  ((i + 1 < 3)%nat -> is_Some (made !! (i + 1)%nat))
                  /\ ((i + 1 = 3)%nat ->
                      exists fr, r = Ok fr /\ fr_success fr = false
                                 /\ fr_error_message fr
                                    = Some ("CAN flash timeout (" +:+ seconds timeout
                                            +:+ "s) (after 3 attempts)")))
    /\ (forall fr, r = Ok fr -> fr_success fr = false ->
                   (0 < length made < 3)%nat ->
                   exists msg, last made = Some (RunRaises (OSError msg))).
Proof.
  intros H. apply flash_katapult_can_run in H as (made & Hc & Hcase).
  exists made. split; [exact Hc|].
  destruct Hcase as [[-> _] | (fin & Hr & Hf)].
  { split; [cbn; lia|]. split; [intros; discriminate | cbn; intros; lia]. }
  pose proof (attempt_run_length _ _ _ _ _ Hr) as Hlen.
  split; [exact Hlen|]. split.
  - intros i Hi. split.
    + intros Hn. eapply attempt_run_continues; eauto.
    + intros Hn. assert (Hl : length made = CAN_RETRY_ATTEMPTS).
      { apply lookup_lt_Some in Hi. unfold CAN_RETRY_ATTEMPTS in *. lia. }
      assert (Hlast : last made = Some (RunRaises TimeoutExpired)).
      { rewrite last_lookup. rewrite Hl. replace (Nat.pred CAN_RETRY_ATTEMPTS) with i
          by (unfold CAN_RETRY_ATTEMPTS; lia). exact Hi. }
      rewrite (attempt_run_last_timeout _ _ _ _ _ Hr Hl Hlast) in Hf.
      destruct Hf as (fr & -> & Hs & Hm). exists fr.
      split; [reflexivity|]. split; [exact Hs|]. rewrite Hm.
      rewrite !MatchingFacts.append_assoc. reflexivity.
  - intros fr -> Hs Hn. destruct fin as [|e|e].
    + destruct Hf as (fr' & [= <-] & Hs' & _). congruence.
    + eapply attempt_run_gave_up_early; eauto. unfold CAN_RETRY_ATTEMPTS. lia.
    + discriminate.
Qed.

(** Three time-outs: three attempts, then failure by time-out. *)
Lemma flash_katapult_can_timeout_is_retried_witness :
  let W := scripted_world [RunRaises TimeoutExpired; RunRaises TimeoutExpired;
                           RunRaises TimeoutExpired] in
  let run := flash_katapult_can W "48ca7afe7a44" "can0" "klipper.bin" "~/katapult"
               TIMEOUT_CAN_FLASH CAN_RETRY_ATTEMPTS start_state in
  (exists fr, fst run = Ok fr
              /\ fr_error_message fr = Some "CAN flash timeout (120s) (after 3 attempts)")
  /\ length (commands (hist (snd run))) = 3%nat
  /\ exists made : list ProcOutcome,
       commands (hist (snd run))
       = commands (hist start_state)
         ++ map (pair (can_flash_argv W "48ca7afe7a44" "can0" "klipper.bin" "~/katapult"))
              made
       /\ (length made <= 3)%nat
       /\ (forall i, made !! i = Some (RunRaises TimeoutExpired) ->
                     ((i + 1 < 3)%nat -> is_Some (made !! (i + 1)%nat))
                     /\ ((i + 1 = 3)%nat ->
                         exists fr, fst run = Ok fr /\ fr_success fr = false
                                    /\ fr_error_message fr
                                       = Some ("CAN flash timeout ("
                                               +:+ seconds TIMEOUT_CAN_FLASH
                                               +:+ "s) (after 3 attempts)")))
       /\ (forall fr, fst run = Ok fr -> fr_success fr = false ->
                      (0 < length made < 3)%nat ->
                      exists msg, last made = Some (RunRaises (OSError msg))).
Proof.
  intros W run. split; [|split].
  - eexists. split; vm_compute; reflexivity.
  - vm_compute. reflexivity.
  - exact (flash_katapult_can_timeout_is_retried W "48ca7afe7a44" "can0" "klipper.bin"
             "~/katapult" TIMEOUT_CAN_FLASH start_state (fst run) (snd run)
             (surjective_pairing run)).
Defined.

(* ===================================================================== *)
(** * Footprints of computations *)
(* ===================================================================== *)

Section Obeys.
Context {A : Type} (P : Event -> Prop).

Lemma obeys_ret (Q : A -> Prop) a : Q a -> obeys P Q (ret a).
Proof.
  intros Hq s r s' [= <- <-]. split.
  - exists []. split; [now rewrite app_nil_r | constructor].
  - intros x [= <-]. exact Hq.
Qed.

Lemma obeys_raise (Q : A -> Prop) e : obeys P Q (raise e).
Proof.
  intros s r s' [= <- <-]. split; [|discriminate].
  exists []. split; [now rewrite app_nil_r | constructor].
Qed.

Lemma obeys_diverge (Q : A -> Prop) : obeys P Q diverge.
Proof.
  intros s r s' [= <- <-]. split; [|discriminate].
  exists []. split; [now rewrite app_nil_r | constructor].
Qed.

Lemma obeys_ask {R} (Q : A -> Prop) (answer : History -> R) ev (k : R -> Res A) :
  (forall r, P (ev r)) -> (forall r a, k r = Ok a -> Q a) ->
  obeys P Q (ask answer ev k).
Proof.
  intros Hp Hq s r s' [= <- <-]. split.
  - eexists. split; [reflexivity|]. repeat constructor. apply Hp.
  - intros a Ha. eapply Hq, Ha.
Qed.

Lemma obeys_bind {B} (R : B -> Prop) (Q : A -> Prop) (c : M B) (k : B -> M A) :
  obeys P R c -> (forall b, R b -> obeys P Q (k b)) -> obeys P Q (bind c k).
Proof.
  intros Hc Hk s r s' H. unfold bind in H.
  destruct (c s) as [[b|e|] s1] eqn:Ec.
  - destruct (Hc _ _ _ Ec) as [(d1 & Hd1 & Hf1) Hr].
    destruct (Hk b (Hr b eq_refl) _ _ _ H) as [(d2 & Hd2 & Hf2) Hq].
    split; [|exact Hq]. exists (d1 ++ d2).
    split; [now rewrite Hd2, Hd1, app_assoc | now apply Forall_app].
  - injection H as <- <-. destruct (Hc _ _ _ Ec) as [Hd _].
    split; [exact Hd | discriminate].
  - injection H as <- <-. destruct (Hc _ _ _ Ec) as [Hd _].
    split; [exact Hd | discriminate].
Qed.

Lemma obeys_try_except (Q : A -> Prop) (c : M A) handler :
  obeys P Q c ->
  (forall e h, handler e = Some h -> obeys P Q h) ->
  obeys P Q (try_except c handler).
Proof.
  intros Hc Hh s r s' H. unfold try_except in H.
  destruct (c s) as [[a|e|] s1] eqn:Ec.
  - injection H as <- <-. eapply Hc, Ec.
  - destruct (handler e) as [h|] eqn:Eh.
    + destruct (Hc _ _ _ Ec) as [(d1 & Hd1 & Hf1) _].
      destruct (Hh e h Eh _ _ _ H) as [(d2 & Hd2 & Hf2) Hq].
      split; [|exact Hq]. exists (d1 ++ d2).
      split; [now rewrite Hd2, Hd1, app_assoc | now apply Forall_app].
    + injection H as <- <-. eapply Hc, Ec.
  - injection H as <- <-. eapply Hc, Ec.
Qed.

Lemma obeys_try_finally (Q : A -> Prop) (c : M A) (f : M unit) :
  obeys P Q c -> obeys P anything f -> obeys P Q (try_finally c f).
Proof.
  intros Hc Hf s r s' H. unfold try_finally in H.
  destruct (c s) as [r1 s1] eqn:Ec.
  destruct (Hc _ _ _ Ec) as [(d1 & Hd1 & Hf1) Hq].
  assert (Hfin : forall r2 s2, f s1 = (r2, s2) ->
                   exists added, hist s2 = hist s ++ added /\ Forall P added).
  { intros r2 s2 E2. destruct (Hf _ _ _ E2) as [(d2 & Hd2 & Hf2) _].
    exists (d1 ++ d2). split; [now rewrite Hd2, Hd1, app_assoc | now apply Forall_app]. }
  destruct r1 as [a|e|].
  - destruct (f s1) as [[u|e|] s2] eqn:E2; injection H as <- <-;
      (split; [eapply Hfin; reflexivity|]); try discriminate. exact Hq.
  - destruct (f s1) as [[u|e'|] s2] eqn:E2; injection H as <- <-;
      (split; [eapply Hfin; reflexivity | discriminate]).
  - injection H as <- <-. split; [eauto | discriminate].
Qed.

Lemma obeys_weaken (P' : Event -> Prop) (Q Q' : A -> Prop) (c : M A) :
  (forall e, P' e -> P e) -> (forall a, Q a -> Q' a) ->
  obeys P' Q c -> obeys P Q' c.
Proof.
  intros Hp Hq Hc s r s' H. destruct (Hc _ _ _ H) as [(d & Hd & Hf) Hr].
  split; [|intros a Ha; apply Hq, Hr, Ha].
  exists d. split; [exact Hd|]. eapply Forall_impl; eauto.
Qed.

End Obeys.

Lemma obeys_emit (P : Event -> Prop) (Q : unit -> Prop) e :
  P e -> Q tt -> obeys P Q (emit e).
Proof.
  intros Hp Hq s r s' [= <- <-]. split.
  - eexists. split; [reflexivity|]. repeat constructor. exact Hp.
  - intros [] _. exact Hq.
Qed.

Lemma obeys_when (P : Event -> Prop) b (c : M unit) :
  obeys P anything c -> obeys P anything (when b c).
Proof. intros Hc. destruct b; [exact Hc | now apply obeys_ret]. Qed.

(** What all the primitives put on record, but for commands and copies,
    is quiet. *)
Section QuietPrimitives.
Context (W : World) (P : Event -> Prop).
Hypothesis quiet_allowed : forall e, quiet e -> P e.

Lemma obeys_now : obeys P anything (now W).
Proof. apply obeys_ask; [intros; now apply quiet_allowed | easy]. Qed.

Lemma obeys_sleep ms : obeys P anything (sleep ms).
Proof. apply obeys_emit; [now apply quiet_allowed | easy]. Qed.

Lemma obeys_say kind text : obeys P anything (say kind text).
Proof. apply obeys_emit; [now apply quiet_allowed | easy]. Qed.

Lemma obeys_os_listdir d : obeys P anything (os_listdir W d).
Proof. apply obeys_ask; [intros; now apply quiet_allowed | easy]. Qed.

Lemma obeys_path_exists p : obeys P anything (path_exists W p).
Proof. apply obeys_ask; [intros; now apply quiet_allowed | easy]. Qed.

Lemma obeys_is_file p : obeys P anything (is_file W p).
Proof. apply obeys_ask; [intros; now apply quiet_allowed | easy]. Qed.

Lemma obeys_is_dir p : obeys P anything (is_dir W p).
Proof. apply obeys_ask; [intros; now apply quiet_allowed | easy]. Qed.

Lemma obeys_py_input : obeys P anything (py_input W).
Proof. apply obeys_ask; [intros; now apply quiet_allowed | easy]. Qed.

Lemma obeys_out_confirm p : obeys P anything (out_confirm W p).
Proof. apply obeys_ask; [intros; now apply quiet_allowed | easy]. Qed.

Lemma obeys_os_realpath p : obeys P anything (os_realpath W p).
Proof. apply obeys_ask; [intros; now apply quiet_allowed | easy]. Qed.

Lemma obeys_registry_update_device k : obeys P anything (registry_update_device W k).
Proof. apply obeys_ask; [intros; now apply quiet_allowed | easy]. Qed.

Lemma obeys_subprocess_run argv :
  (forall o, P (ERun argv o)) -> obeys P anything (subprocess_run W argv).
Proof. intros H. apply obeys_ask; [exact H | easy]. Qed.

Lemma obeys_shutil_copy src dst :
  (forall o, P (ECopy src dst o)) -> obeys P anything (shutil_copy W src dst).
Proof. intros H. apply obeys_ask; [exact H | easy]. Qed.

End QuietPrimitives.

Lemma quiet_or_quiet t e : quiet e -> quiet_or t e.
Proof. now left. Qed.

Lemma quiet_quiet e : quiet e -> quiet e.
Proof. easy. Qed.

(** ** From footprints to transfer actions *)

Lemma transfers_quiet added : Forall quiet added -> transfers added = [].
Proof.
  induction 1 as [|e added He _ IH]; [reflexivity|].
  unfold transfers in *. cbn. unfold quiet in He. now rewrite He.
Qed.

Lemma transfers_quiet_or t added :
  Forall (quiet_or t) added -> exists n, transfers added = replicate n t.
Proof.
  induction 1 as [|e added He _ [n IH]]; [now exists 0%nat|].
  unfold transfers in *. cbn. destruct He as [He|He]; rewrite He.
  - now exists n.
  - exists (S n). cbn. now rewrite IH.
Qed.

Lemma obeys_quiet_transfers {A} (Q : A -> Prop) (c : M A) s r s' :
  obeys quiet Q c -> c s = (r, s') -> transfers (hist s') = transfers (hist s).
Proof.
  intros Hc H. destruct (Hc _ _ _ H) as [(d & -> & Hf) _].
  unfold transfers. rewrite omap_app. fold (transfers d).
  now rewrite (transfers_quiet d Hf), app_nil_r.
Qed.

Lemma single_action_of_obeys {A} t (Q : A -> Prop) (c : M A) :
  obeys (quiet_or t) Q c -> single_action c.
Proof.
  intros Hc s r s' H. destruct (Hc _ _ _ H) as [(d & -> & Hf) _].
  destruct (transfers_quiet_or t d Hf) as [n Hn].
  exists t, n. unfold transfers in *. now rewrite omap_app, Hn.
Qed.

Lemma single_action_bind_quiet {A B} (R : B -> Prop) (c : M B) (k : B -> M A) :
  obeys quiet R c -> (forall b, single_action (k b)) -> single_action (bind c k).
Proof.
  intros Hc Hk s r s' H. unfold bind in H.
  destruct (c s) as [[b|e|] s1] eqn:Ec.
  - destruct (Hk b _ _ _ H) as (t & n & Ht). exists t, n.
    now rewrite Ht, (obeys_quiet_transfers _ _ _ _ _ Hc Ec).
  - injection H as <- <-. exists (TRun []), 0%nat.
    now rewrite (obeys_quiet_transfers _ _ _ _ _ Hc Ec), app_nil_r.
  - injection H as <- <-. exists (TRun []), 0%nat.
    now rewrite (obeys_quiet_transfers _ _ _ _ _ Hc Ec), app_nil_r.
Qed.

Lemma single_action_try_except_quiet {A} (c : M A) handler :
  single_action c ->
  (forall e h, handler e = Some h -> obeys quiet anything h) ->
  single_action (try_except c handler).
Proof.
  intros Hc Hh s r s' H. unfold try_except in H.
  destruct (c s) as [[a|e|] s1] eqn:Ec.
  - injection H as <- <-. eapply Hc, Ec.
  - destruct (handler e) as [h|] eqn:Eh.
    + destruct (Hc _ _ _ Ec) as (t & n & Ht). exists t, n.
      now rewrite (obeys_quiet_transfers _ _ _ _ _ (Hh e h Eh) H).
    + injection H as <- <-. eapply Hc, Ec.
  - injection H as <- <-. eapply Hc, Ec.
Qed.

Lemma single_action_ret {A} (a : A) : single_action (ret a).
Proof. intros s r s' [= <- <-]. exists (TRun []), 0%nat. now rewrite app_nil_r. Qed.

(** ** Reading footprints off the code *)

Ltac obeys_side :=
  first [ exact I | reflexivity | assumption
        | intros; exact I
        | intros; now apply quiet_or_quiet
        | intros; (right; reflexivity)
        | intros; reflexivity
        | easy ].

Ltac obeys_handler :=
  let e := fresh "e" in
  let h := fresh "h" in
  let Hh := fresh "Hh" in
  intros e h Hh;
  first [ destruct e; try discriminate Hh; injection Hh as <-
        | match type of Hh with
          | (if ?b then _ else _) = _ => destruct b; try discriminate Hh; injection Hh as <-
          end ].

Ltac obeys_step :=
  match goal with
  | |- obeys _ _ (ret _) => apply obeys_ret; obeys_side
  | |- obeys _ _ (raise _) => apply obeys_raise
  | |- obeys _ _ diverge => apply obeys_diverge
  | |- obeys _ _ (bind _ _) => eapply (obeys_bind _ anything); [ | intros ? _ ]
  | |- obeys _ _ (try_except _ _) => apply obeys_try_except; [ | obeys_handler ]
  | |- obeys _ _ (when _ _) => apply obeys_when
  | |- obeys _ _ (now _) => apply obeys_now; obeys_side
  | |- obeys _ _ (sleep _) => apply obeys_sleep; obeys_side
  | |- obeys _ _ (say _ _) => apply obeys_say; obeys_side
  | |- obeys _ _ (os_listdir _ _) => apply obeys_os_listdir; obeys_side
  | |- obeys _ _ (path_exists _ _) => apply obeys_path_exists; obeys_side
  | |- obeys _ _ (is_file _ _) => apply obeys_is_file; obeys_side
  | |- obeys _ _ (is_dir _ _) => apply obeys_is_dir; obeys_side
  | |- obeys _ _ (py_input _) => apply obeys_py_input; obeys_side
  | |- obeys _ _ (out_confirm _ _) => apply obeys_out_confirm; obeys_side
  | |- obeys _ _ (os_realpath _ _) => apply obeys_os_realpath; obeys_side
  | |- obeys _ _ (registry_update_device _ _) =>
      apply obeys_registry_update_device; obeys_side
  | |- obeys _ _ (subprocess_run _ _) => apply obeys_subprocess_run; obeys_side
  | |- obeys _ _ (shutil_copy _ _ _) => apply obeys_shutil_copy; obeys_side
  | |- obeys _ _ (if ?b then _ else _) => destruct b
  | |- obeys _ _ (match ?x with _ => _ end) => destruct x
  | |- obeys _ _ (let '(_, _) := ?x in _) => destruct x
  end.

Ltac obeys_auto := repeat obeys_step.

Section StrategyFootprints.
Context (W : World).

Lemma klippy_env_python_quiet P klipper :
  (forall e, quiet e -> P e) ->
  obeys P anything (_get_klippy_env_python W klipper).
Proof. intros HP. unfold _get_klippy_env_python. obeys_auto. Qed.

Lemma run_once_footprint method start timeout argv m1 m2 m3 :
  obeys (quiet_or (TRun argv)) (fun fr => fr_method fr = method)
    (run_once W method start timeout argv m1 m2 m3).
Proof. unfold run_once. obeys_auto. Qed.

Lemma flash_make_footprint device_path klipper timeout :
  obeys (quiet_or (TRun ["make"; "FLASH_DEVICE=" +:+ device_path; "flash"]))
    (fun fr => fr_method fr = "make_flash")
    (flash_make W device_path klipper timeout).
Proof.
  unfold flash_make. eapply (obeys_bind _ anything); [obeys_auto|].
  intros start _. apply run_once_footprint.
Qed.

Lemma flash_sdcard_footprint device_path firmware_path klipper board timeout :
  obeys (quiet_or (TRun [expanduser W klipper +:+ "/scripts/flash-sdcard.sh";
                         device_path; board]))
    (fun fr => fr_method fr = "flash_sdcard")
    (flash_sdcard W device_path firmware_path klipper board timeout).
Proof.
  unfold flash_sdcard. eapply (obeys_bind _ anything); [obeys_auto|].
  intros start _. case_decide; [obeys_auto|].
  eapply (obeys_bind _ anything); [obeys_auto|]. intros present _.
  destruct (negb present); [obeys_auto|]. apply run_once_footprint.
Qed.

Lemma flash_katapult_method P device_path firmware_path katapult klipper timeout :
  (forall e, P e) ->
  obeys P (fun fr => fr_method fr = "katapult")
    (flash_katapult W device_path firmware_path katapult klipper timeout).
Proof. intros HP. unfold flash_katapult, _get_klippy_env_python. obeys_auto. Qed.

Lemma flash_katapult_single device_path firmware_path katapult klipper timeout :
  single_action (flash_katapult W device_path firmware_path katapult klipper timeout).
Proof.
  unfold flash_katapult.
  eapply (single_action_bind_quiet anything); [obeys_auto|]. intros start.
  eapply (single_action_bind_quiet anything); [obeys_auto|]. intros present.
  destruct (negb present).
  { eapply (single_action_of_obeys (TRun []) anything). obeys_auto. }
  apply single_action_try_except_quiet.
  - eapply (single_action_bind_quiet anything);
      [apply klippy_env_python_quiet; easy|].
    intros python_path. eapply (single_action_of_obeys _ anything). obeys_auto.
  - obeys_handler; obeys_auto.
Qed.

Lemma first_dir_quiet paths : obeys quiet anything (first_dir W paths).
Proof. induction paths as [|p paths IH]; cbn [first_dir]; obeys_auto. exact IH. Qed.

Lemma find_uf2_mount_quiet mount user :
  obeys quiet anything (_find_uf2_mount W mount user).
Proof.
  unfold _find_uf2_mount. eapply (obeys_bind _ anything).
  - destruct mount; [case_decide|]; obeys_auto.
  - intros [p|] _; [obeys_auto | apply first_dir_quiet].
Qed.

Lemma wait_uf2_mount_quiet fuel mount user deadline :
  obeys quiet anything (wait_uf2_mount W fuel mount user deadline).
Proof.
  induction fuel as [|fuel IH]; cbn [wait_uf2_mount]; [obeys_auto|].
  eapply (obeys_bind _ anything); [obeys_auto|]. intros t _.
  destruct (t <? deadline)%Z; [|obeys_auto].
  eapply (obeys_bind _ anything); [apply find_uf2_mount_quiet|].
  intros [m|] _; [obeys_auto|].
  eapply (obeys_bind _ anything); [obeys_auto|]. intros _ _. exact IH.
Qed.

Lemma flash_uf2_method P fuel firmware_path mount timeout :
  (forall e, P e) ->
  obeys P (fun fr => fr_method fr = "uf2_mount")
    (flash_uf2 W fuel firmware_path mount timeout).
Proof.
  intros HP. unfold flash_uf2.
  eapply (obeys_bind _ anything); [obeys_auto|]. intros start _.
  eapply (obeys_bind _ anything); [obeys_auto|]. intros t0 _.
  eapply (obeys_bind _ anything).
  { eapply obeys_weaken; [| |apply wait_uf2_mount_quiet]; eauto. }
  intros m _. obeys_auto.
Qed.

Lemma flash_uf2_single fuel firmware_path mount timeout :
  single_action (flash_uf2 W fuel firmware_path mount timeout).
Proof.
  unfold flash_uf2.
  eapply (single_action_bind_quiet anything); [obeys_auto|]. intros start.
  eapply (single_action_bind_quiet anything); [obeys_auto|]. intros t0.
  eapply (single_action_bind_quiet anything); [apply wait_uf2_mount_quiet|].
  intros [m|].
  - eapply (single_action_of_obeys
              (TCopy firmware_path (path_join m (Str.basename firmware_path))) anything).
    obeys_auto.
  - eapply (single_action_of_obeys (TRun []) anything). obeys_auto.
Qed.

Lemma can_attempts_footprint atts max start timeout argv last_error :
  obeys (quiet_or (TRun argv)) anything
    (can_attempts W atts max start timeout argv last_error).
Proof.
  revert last_error. induction atts as [|attempt rest IH]; intros last_error;
    cbn [can_attempts]; [obeys_auto|].
  eapply (obeys_bind _ anything); [unfold can_attempt; obeys_auto|].
  intros [fr|e|e] _; [obeys_auto..|].
  eapply (obeys_bind _ anything); [obeys_auto|]. intros _ _. apply IH.
Qed.

Lemma can_attempts_method atts max start timeout argv last_error :
  obeys (quiet_or (TRun argv))
    (fun r => match r with
              | inl fr => fr_method fr = "katapult_can"
              | inr _ => True
              end)
    (can_attempts W atts max start timeout argv last_error).
Proof.
  revert last_error. induction atts as [|attempt rest IH]; intros last_error;
    cbn [can_attempts]; [obeys_auto|].
  eapply (obeys_bind _ (fun a => match a with
                                 | Returned fr => fr_method fr = "katapult_can"
                                 | _ => True
                                 end)).
  { unfold can_attempt. obeys_auto. }
  intros [fr|e|e] Ha; [obeys_auto..|].
  eapply (obeys_bind _ anything); [obeys_auto|]. intros _ _. apply IH.
Qed.

Lemma flash_katapult_can_footprint uuid interface firmware_path katapult timeout max :
  obeys (quiet_or (TRun (can_flash_argv W uuid interface firmware_path katapult)))
    (fun fr => fr_method fr = "katapult_can")
    (flash_katapult_can W uuid interface firmware_path katapult timeout max).
Proof.
  unfold flash_katapult_can.
  eapply (obeys_bind _ anything); [obeys_auto|]. intros start _.
  eapply (obeys_bind _ anything); [obeys_auto|]. intros present _.
  destruct (negb present); [obeys_auto|].
  eapply obeys_bind; [apply can_attempts_method|].
  intros [fr|e] Hr; obeys_auto.
Qed.

End StrategyFootprints.

(** C4.  An entry whose flash-strategy tag is unset or unknown, and a CAN
    entry tagged [make_flash], are turned down on the spot: a failed
    result with elapsed time 0 and nothing put on record.  Whatever the
    tag, the result names the configured strategy and every command or
    copy of the call is one and the same action: after a failure no other
    strategy is tried. *)
Theorem execute_flash_configured_strategy_only (W : World) (fuel : nat)
    (entry : DeviceEntry) (device_path firmware_path : string)
    (config : GlobalConfig) (timeout : Z) (s : State) :
  let run := execute_flash W fuel entry device_path firmware_path config timeout in
  ((flash_command entry = None
    \/ (exists c, flash_command entry = Some c /\ c ∉ recognized_flash_commands)
    \/ (flash_command entry = Some "make_flash" /\ is_can_device entry = true)) ->
   exists fr, run s = (Ok fr, s)
              /\ fr_success fr = false /\ fr_elapsed_seconds fr = 0%Z)
  /\ (forall r s',
         run s = (r, s') ->
         (exists t n, transfers (hist s') = transfers (hist s) ++ replicate n t)
         /\ (forall fr c, r = Ok fr -> flash_command entry = Some c -> fr_method fr = c)).
Proof.
  cbn zeta. split.
  - intros [Hn | [(c & Hc & Hu) | [Hm Hcan]]]; unfold execute_flash.
    + rewrite Hn. eexists. split; [reflexivity|]. split; reflexivity.
    + rewrite Hc. unfold recognized_flash_commands in Hu.
      apply not_elem_of_cons in Hu as [N1 Hu].
      apply not_elem_of_cons in Hu as [N2 Hu].
      apply not_elem_of_cons in Hu as [N3 Hu].
      apply not_elem_of_cons in Hu as [N4 Hu].
      apply not_elem_of_cons in Hu as [N5 _].
      rewrite !decide_False by assumption.
      eexists. split; [reflexivity|]. split; reflexivity.
    + rewrite Hm, Hcan. eexists. split; [reflexivity|]. split; reflexivity.
  - intros r s' H. unfold execute_flash in H.
    assert (Hret : forall fr : FlashResult,
               ret fr s = (r, s') ->
               (exists t n, transfers (hist s') = transfers (hist s) ++ replicate n t)
               /\ r = Ok fr).
    { intros fr [= <- <-]. split; [|reflexivity].
      exists (TRun []), 0%nat. now rewrite app_nil_r. }
    destruct (flash_command entry) as [c|] eqn:Ec.
    2:{ destruct (Hret _ H) as [Ht ->]. split; [exact Ht|]. intros; discriminate. }
    assert (Hsplit : forall (t : Transfer) (c0 : M FlashResult),
               obeys (quiet_or t) (fun fr => fr_method fr = c) c0 ->
               c0 s = (r, s') ->
               (exists t n, transfers (hist s') = transfers (hist s) ++ replicate n t)
               /\ (forall fr c', r = Ok fr -> Some c = Some c' -> fr_method fr = c')).
    { intros t c0 Hc0 Hrun. split.
      - eapply single_action_of_obeys; eauto.
      - intros fr c' -> [= <-]. eapply Hc0; eauto. }
    assert (Hfail : forall fr : FlashResult,
               fr_method fr = c -> ret fr s = (r, s') ->
               (exists t n, transfers (hist s') = transfers (hist s) ++ replicate n t)
               /\ (forall fr c', r = Ok fr -> Some c = Some c' -> fr_method fr = c')).
    { intros fr Hm Hrun. destruct (Hret _ Hrun) as [Ht ->]. split; [exact Ht|].
      intros fr' c' [= <-] [= <-]. exact Hm. }
    destruct (decide (c = "katapult")) as [->|N1];
      [|destruct (decide (c = "make_flash")) as [->|N2];
        [|destruct (decide (c = "flash_sdcard")) as [->|N3];
          [|destruct (decide (c = "uf2_mount")) as [->|N4];
            [|destruct (decide (c = "katapult_can")) as [->|N5]]]]].
    + split.
      * eapply flash_katapult_single; eauto.
      * intros fr c' -> [= <-].
        eapply (flash_katapult_method W (fun _ => True)); eauto.
    + destruct (is_can_device entry); [eapply Hfail; eauto; reflexivity|].
      eapply Hsplit; eauto. apply flash_make_footprint.
    + eapply Hsplit; eauto. apply flash_sdcard_footprint.
    + split.
      * eapply flash_uf2_single; eauto.
      * intros fr c' -> [= <-].
        eapply (flash_uf2_method W (fun _ => True)); eauto.
    + destruct (negb (is_can_device entry)); [eapply Hfail; eauto; reflexivity|].
      case_decide; [eapply Hfail; eauto; reflexivity|].
      eapply Hsplit; eauto. apply flash_katapult_can_footprint.
    + eapply Hfail; eauto. reflexivity.
Qed.

(** A CAN board configured for [make_flash], and a tag nobody knows. *)
Lemma execute_flash_configured_strategy_only_witness :
  let W := quiet_world [] 1 in
  (exists fr,
      execute_flash W 5 (can_entry "48ca7afe7a44" "can" "make_flash") "" "klipper.bin"
        sample_config TIMEOUT_FLASH start_state = (Ok fr, start_state)
      /\ fr_success fr = false /\ fr_elapsed_seconds fr = 0%Z)
  /\ (exists fr,
         execute_flash W 5 (usb_entry "usb-Klipper_rp2040_30AB*" "usb" "dfu") ""
           "klipper.bin" sample_config TIMEOUT_FLASH start_state = (Ok fr, start_state)
         /\ fr_success fr = false /\ fr_elapsed_seconds fr = 0%Z).
Proof.
  intros W. split.
  - apply (proj1 (execute_flash_configured_strategy_only W 5
                    (can_entry "48ca7afe7a44" "can" "make_flash") "" "klipper.bin"
                    sample_config TIMEOUT_FLASH start_state)).
    right. right. split; reflexivity.
  - apply (proj1 (execute_flash_configured_strategy_only W 5
                    (usb_entry "usb-Klipper_rp2040_30AB*" "usb" "dfu") ""
                    "klipper.bin" sample_config TIMEOUT_FLASH start_state)).
    right. left. exists "dfu". split; [reflexivity|].
    unfold recognized_flash_commands.
    repeat (apply not_elem_of_cons; split; [discriminate|]). apply not_elem_of_nil.
Defined.

(* ===================================================================== *)
(** * Post-flash verification *)
(* ===================================================================== *)

Section VerifyFacts.
Context (W : World).

Lemma poll_devices_S fuel sp timeout interval out start ldt lkp s :
  poll_devices W (S fuel) sp timeout interval out start ldt lkp s =
  let t := monotonic W (hist s) in
  let s1 := log s (EClock t) in
  if (t - start <? timeout)%Z then
    match scan_serial_devices W (before_scan W out ldt s) with
    | (Ok devices, s3) =>
        match inspect_devices sp out devices false lkp s3 with
        | (Ok (inl v), s4) => (Ok v, s4)
        | (Ok (inr (f, l)), s4) =>
            poll_devices W fuel sp timeout interval out start
              (next_dot_time W out ldt s)
              (if negb f && truthy l then None else l)
              (log s4 (ESleep interval))
        | (Raise e, s4) => (Raise e, s4)
        | (Diverge, s4) => (Diverge, s4)
        end
    | (Raise e, s3) => (Raise e, s3)
    | (Diverge, s3) => (Diverge, s3)
    end
  else (Ok (deadline_verdict timeout lkp),
        if negb out then log s1 (EOut "print" [""]) else s1).
Proof.
  cbn [poll_devices]. unfold bind at 1. unfold now at 1. unfold ask at 1. cbn zeta.
  destruct (_ <? timeout)%Z.
  - unfold before_scan, next_dot_time. cbn zeta.
    unfold bind, now, ask, when, say, emit, ret. cbn zeta.
    destruct (negb out && _);
      destruct (scan_serial_devices W _) as [[devices|e|] s3]; try reflexivity;
      destruct (inspect_devices _ _ _ _ _ _) as [[[v|[f l]]|e|] s4]; reflexivity.
  - unfold deadline_verdict, bind, when, say, emit, ret.
    destruct (negb out); destruct (truthy lkp); reflexivity.
Qed.

(** Undecisive endpoints are passed over. *)
Lemma inspect_undecisive pattern out devices found lkp s :
  forallb (undecisive pattern) devices = true ->
  inspect_devices (Some pattern) out devices found lkp s
  = (Ok (inr (found || existsb (matching pattern) devices,
              last_bootloader pattern devices lkp)), s).
Proof.
  revert found lkp. induction devices as [|d devices IH]; intros found lkp Hu.
  - cbn. now rewrite orb_false_r.
  - cbn [forallb] in Hu. apply andb_true_iff in Hu as [Hd Hu].
    cbn [inspect_devices existsb last_bootloader fold_left].
    unfold undecisive, bootloader_mode, normal_mode, matching in *.
    destruct (any_variant_matches _ _) eqn:Em; cbn [negb orb] in *.
    + apply andb_true_iff in Hd as [Hn Hb]. apply negb_true_iff in Hn.
      rewrite Hn, Hb. rewrite IH by exact Hu. now rewrite orb_true_r.
    + rewrite IH by exact Hu. reflexivity.
Qed.

(** The first endpoint that is not passed over decides. *)
Lemma inspect_decisive pattern out pre d post found lkp s :
  forallb (undecisive pattern) pre = true ->
  matching pattern d = true ->
  bootloader_mode d = false ->
  inspect_devices (Some pattern) out (pre ++ d :: post) found lkp s
  = (Ok (inl (if normal_mode d
              then (true, Some (path d), None)
              else (false, Some (path d),
                    Some ("Unexpected device prefix: " +:+ filename d)))),
     if negb out then log s (EOut "print" [""]) else s).
Proof.
  revert found lkp. induction pre as [|x pre IH]; intros found lkp Hu Hm Hb.
  - cbn [app inspect_devices]. unfold matching in Hm. rewrite Hm.
    unfold bootloader_mode, normal_mode in *.
    destruct (Str.startswith _ "usb-klipper_"); cbn [negb andb] in *.
    + unfold bind, when, say, emit, ret. destruct (negb out); reflexivity.
    + rewrite Hb. unfold bind, when, say, emit, ret. destruct (negb out); reflexivity.
  - cbn [forallb] in Hu. apply andb_true_iff in Hu as [Hx Hu].
    cbn [app inspect_devices].
    unfold undecisive, bootloader_mode, normal_mode, matching in Hx.
    destruct (any_variant_matches (filename x) _) eqn:Em; cbn [negb orb] in Hx.
    + apply andb_true_iff in Hx as [Hn Hk]. apply negb_true_iff in Hn.
      rewrite Hn, Hk. now apply IH.
    + now apply IH.
Qed.

(** The reason "in bootloader mode" is given at the deadline only. *)
Lemma poll_devices_bootloader_reason fuel pattern timeout interval out start
      ldt lkp s ok p s' :
  poll_devices W fuel (Some pattern) timeout interval out start ldt lkp s
  = (Ok (ok, p, Some "Device in bootloader mode (katapult)"), s') ->
  ok = false
  /\ exists s0, (timeout <= monotonic W (hist s0) - start)%Z
                /\ s' = (if negb out
                         then log (log s0 (EClock (monotonic W (hist s0))))
                                (EOut "print" [""])
                         else log s0 (EClock (monotonic W (hist s0)))).
Proof.
  revert ldt lkp s. induction fuel as [|fuel IH]; intros ldt lkp s H; [discriminate|].
  rewrite poll_devices_S in H. cbn zeta in H.
  destruct (_ <? timeout)%Z eqn:Et.
  - destruct (scan_serial_devices W _) as [[devices|e|] s3]; try discriminate.
    destruct (inspect_devices _ _ _ _ _ _) as [[[v|[f l]]|e|] s4] eqn:Ei;
      try discriminate.
    + exfalso. injection H as -> <-.
      clear - Ei. revert Ei. generalize false at 1. revert lkp s3.
      induction devices as [|d devices IHd]; intros lkp s3 found Ei;
        cbn [inspect_devices] in Ei; [discriminate|].
      destruct (any_variant_matches _ _); [|eauto].
      destruct (Str.startswith _ "usb-klipper_").
      { unfold bind, when, say, emit, ret in Ei.
        destruct (negb out); discriminate. }
      destruct (Str.startswith _ "usb-katapult_"); [eauto|].
      unfold bind, when, say, emit, ret in Ei.
      destruct (negb out); discriminate.
    + eapply IH, H.
  - injection H as Hv <-. apply Z.ltb_ge in Et.
    unfold deadline_verdict in Hv. destruct (truthy lkp); [|discriminate].
    injection Hv as <- _. split; [reflexivity|]. exists s. split; [exact Et|].
    destruct (negb out); reflexivity.
Qed.

End VerifyFacts.

(** C8, as stated, fails.  Two boards of one kind are back in normal mode
    and both match the pattern: the poll returns the path of the first one
    listed, so the second one, although it matches and has the normal-mode
    prefix, does not yield success with its own path. *)
Lemma every_match_decides_counterexample :
  ~ every_match_decides
      (quiet_world ["usb-Klipper_rp2040_30AB-if00"; "usb-Klipper_rp2040_77CD-if00"] 0)
      "usb-Klipper_rp2040_*" 30000 500 true 0 0 0 None start_state.
Proof.
  intros H.
  pose (W := quiet_world ["usb-Klipper_rp2040_30AB-if00";
                          "usb-Klipper_rp2040_77CD-if00"] 0).
  pose (d1 := {| path := "/dev/serial/by-id/usb-Klipper_rp2040_30AB-if00";
                 filename := "usb-Klipper_rp2040_30AB-if00" |}).
  pose (d2 := {| path := "/dev/serial/by-id/usb-Klipper_rp2040_77CD-if00";
                 filename := "usb-Klipper_rp2040_77CD-if00" |}).
  pose (scan := scan_serial_devices W (before_scan W true 0 start_state)).
  assert (Hscan : scan = (Ok [d1; d2], snd scan)).
  { rewrite (surjective_pairing scan) at 1. f_equal; vm_compute; reflexivity. }
  destruct (H [d1; d2] (snd scan) d2) as [Hn _].
  - vm_compute. reflexivity.
  - exact Hscan.
  - right. left.
  - vm_compute. reflexivity.
  - destruct Hn as [s' Hs']; [vm_compute; reflexivity|].
    apply (f_equal fst) in Hs'. vm_compute in Hs'. discriminate.
Qed.

(** The same with an endpoint of another prefix listed before the board,
    under a pattern wide enough for both: the board matches and is in
    normal mode, and the poll fails. *)
Lemma every_match_decides_fails_behind_probe :
  ~ every_match_decides
      (quiet_world ["usb-Beacon_RevH_0A1B-if00"; "usb-Klipper_rp2040_30AB-if00"] 0)
      "usb-*" 30000 500 true 0 0 0 None start_state.
Proof.
  intros H.
  pose (W := quiet_world ["usb-Beacon_RevH_0A1B-if00";
                          "usb-Klipper_rp2040_30AB-if00"] 0).
  pose (d1 := {| path := "/dev/serial/by-id/usb-Beacon_RevH_0A1B-if00";
                 filename := "usb-Beacon_RevH_0A1B-if00" |}).
  pose (d2 := {| path := "/dev/serial/by-id/usb-Klipper_rp2040_30AB-if00";
                 filename := "usb-Klipper_rp2040_30AB-if00" |}).
  pose (scan := scan_serial_devices W (before_scan W true 0 start_state)).
  assert (Hscan : scan = (Ok [d1; d2], snd scan)).
  { rewrite (surjective_pairing scan) at 1. f_equal; vm_compute; reflexivity. }
  destruct (H [d1; d2] (snd scan) d2) as [Hn _].
  - vm_compute. reflexivity.
  - exact Hscan.
  - right. left.
  - vm_compute. reflexivity.
  - destruct Hn as [s' Hs']; [vm_compute; reflexivity|].
    apply (f_equal fst) in Hs'. vm_compute in Hs'. discriminate.
Qed.

(** What [wait_for_device] returns on these two hosts: the first board's
    path, and the failure that quotes the probe's name. *)
Lemma wait_for_device_first_match_examples :
  fst (wait_for_device
         (quiet_world ["usb-Klipper_rp2040_30AB-if00"; "usb-Klipper_rp2040_77CD-if00"] 0)
         1 (Some "usb-Klipper_rp2040_*") 30000 500 true start_state)
  = Ok (true, Some "/dev/serial/by-id/usb-Klipper_rp2040_30AB-if00", None)
  /\ fst (wait_for_device
            (quiet_world ["usb-Beacon_RevH_0A1B-if00"; "usb-Klipper_rp2040_30AB-if00"] 0)
            1 (Some "usb-*") 30000 500 true start_state)
     = Ok (false, Some "/dev/serial/by-id/usb-Beacon_RevH_0A1B-if00",
           Some "Unexpected device prefix: usb-Beacon_RevH_0A1B-if00").
Proof. split; vm_compute; reflexivity. Qed.

(** C8, amended.  In one round of the poll of [wait_for_device], taken
    before the deadline, the first listed endpoint that matches the
    pattern and is not in bootloader mode decides, and no later one is
    looked at: with the normal-mode prefix the result
    is success with that endpoint's path, with any other prefix it is a
    failure that quotes the endpoint's name.  Matching endpoints in
    bootloader mode decide nothing: the poll goes on with the next round.
    At the deadline the poll fails, with the bootloader-mode reason when
    the last round saw such an endpoint and with the time-out reason
    otherwise; the bootloader-mode reason is given at the deadline only,
    and the reason that quotes a name is neither of the two. *)
Theorem wait_for_device_verdicts (W : World) (pattern : string)
    (timeout interval : Z) (out : bool) (start : Z) (fuel : nat)
    (last_dot_time : Z) (last_katapult_path : option string) (s : State) :
  let poll n :=
    poll_devices W n (Some pattern) timeout interval out start in
  (forall s0,
      wait_for_device W fuel (Some pattern) timeout interval out s0
      = poll_devices W fuel (Some pattern) timeout interval out
          (monotonic W (hist s0)) (monotonic W (hist s0)) None
          (let s1 := log s0 (EClock (monotonic W (hist s0))) in
           if negb out then log s1 (EOut "print" ["Verifying"]) else s1))
  /\
  (forall devices s3,
      (monotonic W (hist s) - start < timeout)%Z ->
      scan_serial_devices W (before_scan W out last_dot_time s) = (Ok devices, s3) ->
      (forall pre d post,
          devices = pre ++ d :: post ->
          forallb (undecisive pattern) pre = true ->
          matching pattern d = true ->
          (normal_mode d = true ->
           exists s',
             poll (S fuel) last_dot_time last_katapult_path s
             = (Ok (true, Some (path d), None), s'))
          /\ (normal_mode d = false -> bootloader_mode d = false ->
              exists s',
                poll (S fuel) last_dot_time last_katapult_path s
                = (Ok (false, Some (path d),
                       Some ("Unexpected device prefix: " +:+ filename d)), s')))
      /\ (forallb (undecisive pattern) devices = true ->
          poll (S fuel) last_dot_time last_katapult_path s
          = poll fuel (next_dot_time W out last_dot_time s)
              (let l := last_bootloader pattern devices last_katapult_path in
               if negb (existsb (matching pattern) devices) && truthy l
               then None else l)
              (log s3 (ESleep interval))))
  /\
  ((timeout <= monotonic W (hist s) - start)%Z ->
   exists s',
     poll (S fuel) last_dot_time last_katapult_path s
     = (Ok (deadline_verdict timeout last_katapult_path), s'))
  /\
  (forall ok p s',
      poll fuel last_dot_time last_katapult_path s
      = (Ok (ok, p, Some "Device in bootloader mode (katapult)"), s') ->
      ok = false
      /\ exists s0, (timeout <= monotonic W (hist s0) - start)%Z
                    /\ s' = (if negb out
                             then log (log s0 (EClock (monotonic W (hist s0))))
                                    (EOut "print" [""])
                             else log s0 (EClock (monotonic W (hist s0)))))
  /\
  (forall fname l,
      Some ("Unexpected device prefix: " +:+ fname) <> snd (deadline_verdict timeout l)).
Proof.
  cbn zeta. split; [|split; [|split; [|split]]].
  - intros s0. unfold wait_for_device, bind, now, ask, when, say, emit, ret. cbn zeta.
    destruct (negb out); reflexivity.
  - intros devices s3 Ht Hscan. apply Z.ltb_lt in Ht. split.
    + intros pre d post -> Hpre Hm. split.
      * intros Hn. rewrite poll_devices_S. cbn zeta. rewrite Ht, Hscan.
        rewrite inspect_decisive; try assumption.
        2:{ unfold bootloader_mode. now rewrite Hn. }
        rewrite Hn. eexists. reflexivity.
      * intros Hn Hb. rewrite poll_devices_S. cbn zeta. rewrite Ht, Hscan.
        rewrite inspect_decisive; try assumption.
        rewrite Hn. eexists. reflexivity.
    + intros Hu. rewrite poll_devices_S. cbn zeta. rewrite Ht, Hscan.
      rewrite inspect_undecisive by exact Hu. reflexivity.
  - intros Ht. apply Z.ltb_ge in Ht. rewrite poll_devices_S. cbn zeta. rewrite Ht.
    eexists. reflexivity.
  - intros ok p s'. apply poll_devices_bootloader_reason.
  - intros fname l. unfold deadline_verdict. destruct (truthy l); cbn; discriminate.
Qed.

(** A board that comes back in normal mode is found in the first round; a
    board that stays in bootloader mode is reported as such once thirty
    seconds have passed. *)
Lemma wait_for_device_verdicts_witness :
  let pattern := "usb-Klipper_rp2040_30AB*" in
  let back := {| path := "/dev/serial/by-id/usb-Klipper_rp2040_30AB-if00";
                 filename := "usb-Klipper_rp2040_30AB-if00" |} in
  let W := quiet_world ["usb-Klipper_rp2040_30AB-if00"] 0 in
  let V := quiet_world ["usb-katapult_rp2040_30AB-if00"] 0 in
  let stuck := poll_devices V 40 (Some pattern) 30000 500 true 0 0 None start_state in
  (exists s',
      poll_devices W 1 (Some pattern) 30000 500 true 0 0 None start_state
      = (Ok (true, Some (path back), None), s'))
  /\ fst stuck
     = Ok (false, Some "/dev/serial/by-id/usb-katapult_rp2040_30AB-if00",
           Some "Device in bootloader mode (katapult)")
  /\ exists s0, (30000 <= monotonic V (hist s0) - 0)%Z
                /\ snd stuck = log s0 (EClock (monotonic V (hist s0))).
Proof.
  intros pattern back W V stuck.
  assert (Hs : stuck
               = (Ok (false, Some "/dev/serial/by-id/usb-katapult_rp2040_30AB-if00",
                      Some "Device in bootloader mode (katapult)"), snd stuck)).
  { rewrite (surjective_pairing stuck) at 1. f_equal; vm_compute; reflexivity. }
  split; [|split].
  - pose (scan := scan_serial_devices W (before_scan W true 0 start_state)).
    assert (Hscan : scan = (Ok ([] ++ back :: []), snd scan)).
    { rewrite (surjective_pairing scan) at 1. f_equal; vm_compute; reflexivity. }
    exact (proj1 (proj1 (proj1 (proj2 (wait_for_device_verdicts W pattern 30000 500 true
                                         0 0 0 None start_state))
                           ([] ++ back :: []) (snd scan) eq_refl Hscan)
                    [] back [] eq_refl eq_refl eq_refl) eq_refl).
  - rewrite Hs. reflexivity.
  - exact (proj2 (proj1 (proj2 (proj2 (proj2 (wait_for_device_verdicts V pattern 30000 500
                                                true 0 40 0 None start_state))))
                    false _ (snd stuck) Hs)).
Defined.

(* ===================================================================== *)
(** * The service lifecycle guard *)
(* ===================================================================== *)

Section ServiceFacts.
Context (W : World).

(** [_start_klipper] always returns, and tells whether the service
    started; it runs the start command once and may report. *)
Lemma start_klipper_returns timeout out s :
  let o := run W (hist s) systemctl_start in
  exists report s',
    _start_klipper W timeout out s = (Ok (start_ok o), s')
    /\ hist s' = hist s ++ ERun systemctl_start o :: report
    /\ Forall is_message report
    /\ svc_heap s' = svc_heap s.
Proof.
  cbn zeta. unfold _start_klipper, try_except, bind, subprocess_run, ask.
  destruct (run W (hist s) systemctl_start) as [p|e]; cbn [start_ok].
  - destruct (returncode p =? 0)%Z; cbn [negb].
    + exists [], (log s (ERun systemctl_start (Completed p))).
      repeat split. constructor.
    + unfold report_start_failure, say, emit, ret. destruct out;
        eexists [_], _; (split; [reflexivity|]);
        (split; [cbn [log hist]; now rewrite <- app_assoc|]);
        (split; [repeat constructor | reflexivity]).
  - destruct e; unfold report_start_failure, say, emit, ret; destruct out;
      eexists [_], _; (split; [reflexivity|]);
      (split; [cbn [log hist]; now rewrite <- app_assoc|]);
      (split; [repeat constructor | reflexivity]).
Qed.

(** The guard, once the service state is known. *)
Lemma klipper_service_stopped_unfold {A} timeout out (body : nat -> M A) s s1 active :
  _is_service_active W s = (Ok active, s1) ->
  klipper_service_stopped W timeout out body s =
  let ref := svc_next s1 in
  let entered :=
    snd (new_service_state {| was_active := active; will_restart := active;
                              restart_succeeded := None |} s1) in
  match (if active then _stop_klipper W timeout entered else (Ok tt, entered)) with
  | (Ok _, s2) =>
      try_finally
        (bind (body ref) (fun a => ret (ref, a)))
        (if active then
           bind (_start_klipper W timeout out)
             (fun ok => modify_service_state ref (set_restart_succeeded ok))
         else if out then
           say "phase" ["Service"; "Klipper was not running -- skipping restart"]
         else
           say "print" ["[Service] Klipper was not running -- skipping restart"]) s2
  | (Raise e, s2) => (Raise e, s2)
  | (Diverge, s2) => (Diverge, s2)
  end.
Proof.
  intros Ha. unfold klipper_service_stopped, should_restart_service.
  unfold bind at 1. rewrite Ha. unfold bind at 1. cbn [new_service_state].
  unfold bind at 1. cbn zeta. unfold when.
  destruct active; cbn [snd]; [|reflexivity].
  destruct (_stop_klipper W timeout _) as [[[]|e|] s2]; reflexivity.
Qed.

End ServiceFacts.

(** C1.  When the service is found active and has been stopped, then
    however the body of the guarded scope ends (by returning or by
    raising anything, an interrupt included) the start command is run
    once right after it, the yielded [ServiceState] records whether that
    worked, and the outcome of the scope is the outcome of the body: a
    failed restart raises nothing.  When the service is found inactive no
    start command is run. *)
Theorem klipper_service_stopped_restarts (W : World) (A : Type) (timeout : Z)
    (out : bool) (body : nat -> M A) (s s1 : State) (active : bool) :
  _is_service_active W s = (Ok active, s1) ->
  let ref := svc_next s1 in
  let yielded := {| was_active := active; will_restart := active;
                    restart_succeeded := None |} in
  let entered := snd (new_service_state yielded s1) in
  (active = true ->
   forall s2 rb s3,
     _stop_klipper W timeout entered = (Ok tt, s2) ->
     svc_heap s2 ref = yielded
     /\ (body ref s2 = (rb, s3) -> rb <> Diverge ->
         let o := run W (hist s3) systemctl_start in
         exists report s',
           klipper_service_stopped W timeout out body s = (scope_outcome ref rb, s')
           /\ hist s' = hist s3 ++ ERun systemctl_start o :: report
           /\ Forall is_message report
           /\ svc_heap s' ref = set_restart_succeeded (start_ok o) (svc_heap s3 ref)))
  /\
  (active = false ->
   svc_heap entered ref = yielded
   /\ forall rb s3,
       body ref entered = (rb, s3) -> rb <> Diverge ->
       exists note s',
         klipper_service_stopped W timeout out body s = (scope_outcome ref rb, s')
         /\ hist s' = hist s3 ++ [note] /\ is_message note
         /\ svc_heap s' = svc_heap s3).
Proof.
  intros Ha. cbn zeta. split.
  - intros -> s2 rb s3 Hstop. split.
    { assert (Hh : svc_heap s2 = svc_heap (snd (new_service_state
                     {| was_active := true; will_restart := true;
                        restart_succeeded := None |} s1))).
      { unfold _stop_klipper, try_except, bind, subprocess_run, ask in Hstop.
        destruct (run W _ systemctl_stop) as [p|e].
        - destruct (negb _); [discriminate|]. injection Hstop as <-. reflexivity.
        - destruct e; discriminate. }
      rewrite Hh. cbn. now rewrite decide_True. }
    intros Hbody Hnd.
    destruct (start_klipper_returns W timeout out s3)
      as (report & s4 & Hstart & Hh & Hf & Hheap).
    exists report.
    rewrite (klipper_service_stopped_unfold W timeout out body s s1 true Ha).
    cbn zeta. rewrite Hstop. unfold try_finally, bind at 1. rewrite Hbody.
    destruct rb as [a|e|]; [| |contradiction];
      unfold ret, bind; rewrite Hstart; unfold modify_service_state;
      (eexists; split; [reflexivity|]); cbn [hist svc_heap];
      (split; [exact Hh|]); (split; [exact Hf|]);
      rewrite Hheap; now rewrite decide_True.
  - intros ->. split; [cbn; now rewrite decide_True|].
    intros rb s3 Hbody Hnd.
    exists (if out then EOut "phase" ["Service"; "Klipper was not running -- skipping restart"]
            else EOut "print" ["[Service] Klipper was not running -- skipping restart"]).
    rewrite (klipper_service_stopped_unfold W timeout out body s s1 false Ha).
    cbn zeta. unfold try_finally, bind at 1. rewrite Hbody.
    destruct rb as [a|e|]; [| |contradiction]; unfold ret, say, emit;
      destruct out; (eexists; split; [reflexivity|]);
      (split; [reflexivity|]); (split; [exact I | reflexivity]).
Qed.

(** An interrupt in the body, and a start command that fails: the
    interrupt leaves the scope, the start command was run, and the state
    object says that the restart failed. *)
Lemma klipper_service_stopped_restarts_witness :
  let W := service_world [] 1 in
  let body := fun _ : nat => @raise unit KeyboardInterrupt in
  let probe := _is_service_active W start_state in
  let yielded := {| was_active := true; will_restart := true;
                    restart_succeeded := None |} in
  let stop := _stop_klipper W TIMEOUT_SERVICE (snd (new_service_state yielded (snd probe))) in
  let run := klipper_service_stopped W TIMEOUT_SERVICE true body start_state in
  probe = (Ok true, snd probe)
  /\ stop = (Ok tt, snd stop)
  /\ fst run = Raise KeyboardInterrupt
  /\ restart_succeeded (svc_heap (snd run) 0) = Some false
  /\ exists report s',
       run = (scope_outcome 0 (Raise KeyboardInterrupt), s')
       /\ hist s' = hist (snd stop)
                    ++ ERun systemctl_start (exits 1 "") :: report
       /\ Forall is_message report
       /\ svc_heap s' 0
          = set_restart_succeeded false (svc_heap (snd stop) 0).
Proof.
  intros W body probe yielded stop run.
  assert (Hp : probe = (Ok true, snd probe)).
  { rewrite (surjective_pairing probe) at 1. f_equal; vm_compute; reflexivity. }
  assert (Hs : stop = (Ok tt, snd stop)).
  { rewrite (surjective_pairing stop) at 1. f_equal; vm_compute; reflexivity. }
  split; [exact Hp|]. split; [exact Hs|].
  split; [vm_compute; reflexivity|]. split; [vm_compute; reflexivity|].
  exact (proj2 (proj1 (klipper_service_stopped_restarts W unit TIMEOUT_SERVICE true body
                         start_state (snd probe) true Hp)
                  eq_refl (snd stop) (Raise KeyboardInterrupt) (snd stop) Hs)
           eq_refl ltac:(discriminate)).
Defined.

(* ===================================================================== *)
(** * cmd_flash: reporting the outcome *)
(* ===================================================================== *)

(** C3, as stated, fails: the service was running, the board was flashed
    with [make flash] and came back in normal mode, and the start command
    of the service exits with 1.  The command exits with 1. *)
Lemma restart_failure_hides_success_counterexample :
  ~ success_is_reported (service_world ["usb-Klipper_rp2040_30AB-if00"] 1) can_verified
      40 "board" (usb_entry "usb-Klipper_rp2040_30AB*" "none" "make_flash")
      "/dev/serial/by-id/usb-Klipper_rp2040_30AB-if00" "out/klipper.bin"
      sample_config start_state.
Proof.
  intros H.
  pose (W := service_world ["usb-Klipper_rp2040_30AB-if00"] 1).
  pose (entry := usb_entry "usb-Klipper_rp2040_30AB*" "none" "make_flash").
  pose (scope :=
          klipper_service_stopped W TIMEOUT_SERVICE true
            (fun _ => cmd_flash_guarded W can_verified 40 entry
                        "/dev/serial/by-id/usb-Klipper_rp2040_30AB-if00"
                        "out/klipper.bin" sample_config)
            (log start_state (EClock (monotonic W (hist start_state))))).
  assert (E : exists fr p e,
             fst scope = Ok (0%nat, inr (fr, true, p, e)) /\ fr_success fr = true).
  { do 3 eexists. split; vm_compute; reflexivity. }
  destruct E as (fr & p & e & E & Hs).
  destruct (H 0%nat fr p e (snd scope)) as (s' & Hrun & _).
  - rewrite <- E. apply surjective_pairing.
  - exact Hs.
  - apply (f_equal fst) in Hrun. vm_compute in Hrun. discriminate Hrun.
Qed.

Ltac in_hist :=
  cbn [fst snd log hist];
  repeat rewrite elem_of_app; repeat rewrite elem_of_cons; auto 12.

Section ReportFacts.
Context (W : World)
        (verify_can : option string -> string -> string -> M (bool * option string)).

(** With a failed restart the summary is one clock reading and the exit
    code 1. *)
Lemma cmd_flash_summary_restart_failed device_key entry flash_start flashed s :
  cmd_flash_summary W device_key entry flash_start flashed true s
  = (Ok 1%Z, log s (EClock (monotonic W (hist s)))).
Proof. destruct flashed as [[[fr v] p] e]. reflexivity. Qed.

(** Without one, a successful and verified flash goes to the
    registry. *)
Lemma cmd_flash_summary_success device_key entry flash_start fr p e s :
  fr_success fr = true ->
  let run := cmd_flash_summary W device_key entry flash_start (fr, true, p, e) false s in
  exists r,
    ERegistryUpdate device_key r ∈ hist (snd run)
    /\ fst run = match r with None => Ok 0%Z | Some x => Raise x end.
Proof.
  intros Hs. cbn zeta.
  exists (update_device W (hist (log s (EClock (monotonic W (hist s))))) device_key).
  unfold cmd_flash_summary, bind, now, ask, registry_update_device. cbn zeta.
  rewrite Hs. cbn [andb].
  unfold ask. destruct (update_device W _ device_key) as [x|] eqn:Eu.
  - split; [in_hist | reflexivity].
  - unfold say, emit, ret.
    destruct (truthy p); [|destruct (is_can_device entry)];
      (split; [in_hist | reflexivity]).
Qed.

(** After a guarded scope that ran to its end, the [try] block tells
    whether the restart failed, and reports it if so. *)
Lemma cmd_flash_scope_completed fuel device_key entry device_path firmware_path
      config s0 ref flashed s1 :
  klipper_service_stopped W TIMEOUT_SERVICE true
    (fun _ => cmd_flash_guarded W verify_can fuel entry device_path firmware_path config)
    s0
  = (Ok (ref, inr flashed), s1) ->
  exists said,
    cmd_flash_scope W verify_can fuel device_key entry device_path firmware_path
      config s0
    = (Ok (inr (flashed, restart_failed (svc_heap s1 ref))),
       {| hist := hist s1 ++ said; svc_heap := svc_heap s1; svc_next := svc_next s1 |})
    /\ (restart_failed (svc_heap s1 ref) = true -> said = [restart_failure_report]).
Proof.
  intros Hscope. unfold cmd_flash_scope, try_except, bind at 1. rewrite Hscope.
  unfold bind at 1. unfold read_service_state at 1.
  unfold restart_failed. destruct (svc_heap s1 ref) as [wa wr [[]|]];
    destruct wr; cbn [will_restart restart_succeeded andb];
    unfold bind, say, emit, ret, log;
    first [ exists []; rewrite app_nil_r; destruct s1; split; [reflexivity|discriminate]
          | eexists [_]; split; [reflexivity|]; first [discriminate | reflexivity] ].
Qed.

End ReportFacts.

(** C3.  After a guarded scope that ends with a successful and verified
    flash and a failed restart of the service, [cmd_flash] exits with 1,
    and all it does after the scope is to report the failed restart and
    to read the clock: the time of the flash is not written to the
    registry and the success line is not printed. *)
Theorem cmd_flash_restart_failure_exit (W : World)
    (verify_can : option string -> string -> string -> M (bool * option string))
    (fuel : nat) (device_key : string) (entry : DeviceEntry)
    (device_path firmware_path : string) (config : GlobalConfig) (s : State)
    (ref : nat) (fr : FlashResult) (device_path_new error_reason : option string)
    (s1 : State) :
  klipper_service_stopped W TIMEOUT_SERVICE true
    (fun _ => cmd_flash_guarded W verify_can fuel entry device_path firmware_path config)
    (log s (EClock (monotonic W (hist s))))
  = (Ok (ref, inr (fr, true, device_path_new, error_reason)), s1) ->
  fr_success fr = true ->
  restart_failed (svc_heap s1 ref) = true ->
  let run :=
    cmd_flash_run W verify_can fuel device_key entry device_path firmware_path config s in
  fst run = Ok 1%Z
  /\ hist (snd run)
     = hist s1 ++ [restart_failure_report;
                   EClock (monotonic W (hist s1 ++ [restart_failure_report]))].
Proof.
  intros Hscope Hs Hf. cbn zeta.
  destruct (cmd_flash_scope_completed W verify_can fuel device_key entry device_path
              firmware_path config _ _ _ _ Hscope) as (said & Hsc & Hsaid).
  rewrite (Hsaid Hf) in Hsc. rewrite Hf in Hsc.
  assert (Hrun :
            cmd_flash_run W verify_can fuel device_key entry device_path firmware_path
              config s
            = cmd_flash_summary W device_key entry (monotonic W (hist s))
                (fr, true, device_path_new, error_reason) true
                {| hist := hist s1 ++ [restart_failure_report]; svc_heap := svc_heap s1;
                   svc_next := svc_next s1 |}).
  { unfold cmd_flash_run, bind at 1. unfold now at 1. unfold ask at 1. cbn zeta.
    unfold bind at 1. rewrite Hsc. reflexivity. }
  rewrite Hrun, cmd_flash_summary_restart_failed.
  split; [reflexivity|]. cbn [fst snd log hist]. now rewrite <- app_assoc.
Qed.

(** The failing input: the service is running, the board is flashed with
    [make flash] and comes back in normal mode, and the start command of
    the service exits with 1.  [cmd_flash] exits with 1 and neither writes
    to the registry nor prints the success line.  With a start command
    that exits with 0 the same flash makes it exit with 0 and write to the
    registry. *)
Lemma cmd_flash_restart_failure_exit_witness :
  let entry := usb_entry "usb-Klipper_rp2040_30AB*" "none" "make_flash" in
  let path := "/dev/serial/by-id/usb-Klipper_rp2040_30AB-if00" in
  let bad := service_world ["usb-Klipper_rp2040_30AB-if00"] 1 in
  let good := service_world ["usb-Klipper_rp2040_30AB-if00"] 0 in
  let scope :=
    klipper_service_stopped bad TIMEOUT_SERVICE true
      (fun _ => cmd_flash_guarded bad can_verified 40 entry path "out/klipper.bin"
                  sample_config)
      (log start_state (EClock (monotonic bad (hist start_state)))) in
  let run_bad :=
    cmd_flash_run bad can_verified 40 "board" entry path "out/klipper.bin" sample_config
      start_state in
  let run_good :=
    cmd_flash_run good can_verified 40 "board" entry path "out/klipper.bin" sample_config
      start_state in
  (exists fr p e, fst scope = Ok (0%nat, inr (fr, true, p, e)) /\ fr_success fr = true)
  /\ restart_failed (svc_heap (snd scope) 0) = true
  /\ (fst run_bad = Ok 1%Z
      /\ hist (snd run_bad)
         = hist (snd scope)
           ++ [restart_failure_report;
               EClock (monotonic bad (hist (snd scope) ++ [restart_failure_report]))])
  /\ existsb is_registry_update (hist (snd run_bad)) = false
  /\ existsb is_success_report (hist (snd run_bad)) = false
  /\ fst run_good = Ok 0%Z
  /\ existsb is_registry_update (hist (snd run_good)) = true
  /\ existsb is_success_report (hist (snd run_good)) = true.
Proof.
  intros entry path bad good scope run_bad run_good.
  assert (Eb : exists fr p e,
             fst scope = Ok (0%nat, inr (fr, true, p, e)) /\ fr_success fr = true).
  { do 3 eexists. split; vm_compute; reflexivity. }
  assert (Fb : restart_failed (svc_heap (snd scope) 0) = true).
  { vm_compute. reflexivity. }
  split; [exact Eb|]. split; [exact Fb|].
  split; [|repeat split; vm_compute; reflexivity].
  destruct Eb as (fr & p & e & Eb & Hs).
  refine (cmd_flash_restart_failure_exit bad can_verified 40 "board" entry path
            "out/klipper.bin" sample_config start_state 0 fr p e (snd scope) _ Hs Fb).
  rewrite <- Eb. apply surjective_pairing.
Defined.

(** The batch command on the same host, for the same board alone: the
    restart fails there too, and the pass for the board has by then
    written to the registry, printed its success line and marked the
    board's result as flashed and verified. *)
Lemma cmd_flash_all_restart_failure_keeps_success :
  let entry := usb_entry "usb-Klipper_rp2040_30AB*" "none" "make_flash" in
  let bad := service_world ["usb-Klipper_rp2040_30AB-if00"] 1 in
  let batch :=
    cmd_flash_all_stage4 bad can_verified can_interface_ready no_config_issue
      preflight_passes mcu_unknown sample_config "/tmp/fw" 40 [entry]
      [fresh_result entry] start_state in
  (exists r, fst batch = Ok (inr ([r], true))
             /\ flash_ok r = true /\ verify_ok r = true /\ error_message r = None)
  /\ ERegistryUpdate "board" None ∈ hist (snd batch)
  /\ EOut "print" ["  OK Board flashed and verified (1/1)"] ∈ hist (snd batch)
  /\ restart_failure_report ∈ hist (snd batch).
Proof.
  intros entry bad batch. split; [|split; [|split]].
  - eexists. split; [vm_compute; reflexivity|]. repeat split.
  - apply list_elem_of_In. vm_compute. tauto.
  - apply list_elem_of_In. vm_compute. tauto.
  - apply list_elem_of_In. vm_compute. tauto.
Qed.

(* ===================================================================== *)
(** * The batch sequencer *)
(* ===================================================================== *)

Lemma bind_assoc {A B C} (c : M A) (f : A -> M B) (g : B -> M C) (s : State) :
  bind (bind c f) g s = bind c (fun a => bind (f a) g) s.
Proof. unfold bind. destruct (c s) as [[a|e|] s']; reflexivity. Qed.

Lemma bind_ext {A B} (c : M A) (f g : A -> M B) (s : State) :
  (forall a s', f a s' = g a s') -> bind c f s = bind c g s.
Proof. intros H. unfold bind. destruct (c s) as [[a|e|] s']; auto. Qed.

Lemma hist_log_all (s : State) (events : list Event) :
  hist (log_all s events) = hist s ++ events.
Proof.
  revert s. induction events as [|e events IH]; intros s; cbn.
  - now rewrite app_nil_r.
  - unfold log_all in IH. rewrite IH. cbn. now rewrite <- app_assoc.
Qed.

Lemma svc_heap_log_all (s : State) (events : list Event) :
  svc_heap (log_all s events) = svc_heap s.
Proof.
  revert s. induction events as [|e events IH]; intros s; cbn; [reflexivity|].
  unfold log_all in IH. now rewrite IH.
Qed.

Lemma log_all_app (s : State) (l1 l2 : list Event) :
  log_all s (l1 ++ l2) = log_all (log_all s l1) l2.
Proof. apply fold_left_app. Qed.

(** Keys already found stay. *)
Lemma find_ambiguous_keys_keeps entries usb (acc : gset string) k :
  k ∈ acc -> k ∈ find_ambiguous_keys entries usb acc.
Proof.
  revert acc. induction entries as [|e entries IH]; intros acc Hk; cbn [find_ambiguous_keys]; [exact Hk|].
  apply IH. destruct (serial_pattern e) as [p|]; [|exact Hk].
  destruct (1 <? length (match_devices p usb))%nat; [|exact Hk].
  apply elem_of_union. now right.
Qed.

(** The first loop finds every ambiguous registration of the batch. *)
Lemma find_ambiguous_keys_complete entries usb (acc : gset string) entry :
  entry ∈ entries -> ambiguous entry usb ->
  key entry ∈ find_ambiguous_keys entries usb acc.
Proof.
  intros Hin (p & Hp & Hlen). revert acc.
  induction entries as [|e entries IH]; intros acc.
  - now apply elem_of_nil in Hin.
  - apply elem_of_cons in Hin as [<-|Hin].
    + cbn [find_ambiguous_keys]. rewrite Hp. apply Nat.ltb_lt in Hlen. rewrite Hlen.
      apply find_ambiguous_keys_keeps, elem_of_union. left. now apply elem_of_singleton.
    + cbn [find_ambiguous_keys]. now apply IH.
Qed.

(** And nothing else. *)
Lemma find_ambiguous_keys_sound entries usb (acc : gset string) k :
  k ∈ find_ambiguous_keys entries usb acc ->
  k ∈ acc \/ exists entry, entry ∈ entries /\ key entry = k /\ ambiguous entry usb.
Proof.
  revert acc. induction entries as [|e entries IH]; intros acc Hk; cbn [find_ambiguous_keys] in Hk.
  - now left.
  - apply IH in Hk as [Hk|(entry & Hin & Hkey & Ha)].
    + destruct (serial_pattern e) as [p|] eqn:Hp; [|now left].
      destruct (1 <? length (match_devices p usb))%nat eqn:Hlen; [|now left].
      apply elem_of_union in Hk as [Hk|Hk]; [|now left].
      apply elem_of_singleton in Hk. right. exists e.
      split; [apply elem_of_cons; now left|]. split; [now symmetry|].
      exists p. split; [exact Hp|]. now apply Nat.ltb_lt.
    + right. exists entry. split; [apply elem_of_cons; now right|]. now split.
Qed.

Section BatchFacts.
Context (W : World)
        (verify_can : option string -> string -> string -> M (bool * option string))
        (preflight_can : string -> M (bool * string))
        (config_issue : DeviceEntry -> option (string * string))
        (preflight : string -> string -> option string -> M bool)
        (extract_mcu : string -> option string)
        (config : GlobalConfig) (temp_dir : string).

Let device :=
  flash_all_device W verify_can preflight_can config_issue preflight extract_mcu
    config temp_dir.
Let loop :=
  flash_all_loop W verify_can preflight_can config_issue preflight extract_mcu
    config temp_dir.

(** The loop over a list is the loop over its front followed by the
    loop over its back. *)
Lemma flash_all_loop_app fuel idx flash_total ambiguous_keys l1 l2 st s :
  loop fuel idx flash_total ambiguous_keys (l1 ++ l2) st s
  = bind (loop fuel idx flash_total ambiguous_keys l1 st)
      (fun st' => loop fuel (idx + length l1) flash_total ambiguous_keys l2 st') s.
Proof.
  revert idx st s. induction l1 as [|e l1 IH]; intros idx st s.
  - unfold loop. cbn [app length flash_all_loop]. unfold bind, ret.
    now rewrite Nat.add_0_r.
  - cbn [app length]. unfold loop in *. cbn [flash_all_loop].
    rewrite bind_assoc. apply bind_ext. intros st' s'.
    rewrite IH. now rewrite Nat.add_succ_comm.
Qed.

(** One pass of the loop for a USB registration whose key is among the
    ambiguous ones. *)
Lemma flash_all_device_ambiguous fuel idx flash_total ambiguous_keys entry st s :
  is_can_device entry = false ->
  key entry ∈ ambiguous_keys ->
  device fuel idx flash_total ambiguous_keys entry st s
  = (Ok (update_result idx (set_error_message AMBIGUOUS_PATTERN) st),
     log_all s (interlude config idx flash_total entry st
                ++ [EOut "warn" ["Skipping " +:+ name entry +:+ ": ambiguous USB pattern"]])).
Proof.
  intros Hcan Hkey. unfold device, flash_all_device, flash_all_usb, interlude.
  rewrite Hcan. rewrite decide_True by exact Hkey.
  destruct (0 <? idx)%nat; [|reflexivity].
  destruct (_should_apply_flash_all_stagger _); reflexivity.
Qed.

End BatchFacts.


(** What the batch does on that host: both registrations are flashed, the
    second one through the first of the two endpoints that match it. *)
Lemma flash_all_stale_ambiguity_example :
  let W := hotplug_world
             ["usb-Klipper_rp2040_30AB-if00"; "usb-Klipper_stm32f446xx_11-if00"]
             ["usb-Klipper_rp2040_30AB-if00"; "usb-Klipper_rp2040_77CD-if00";
              "usb-Klipper_stm32f446xx_11-if00"] in
  let second := usb_entry "usb-Klipper_rp2040_*" "none" "make_flash" in
  let run :=
    cmd_flash_all_guarded W can_verified can_interface_ready no_config_issue
      preflight_passes mcu_unknown sample_config "/tmp/fw" 40 [mainboard_entry; second]
      [fresh_result mainboard_entry; fresh_result second] start_state in
  exists st,
    fst run = Ok st
    /\ length (match_devices "usb-Klipper_rp2040_*" (usb_devices st)) = 2%nat
    /\ (error_message <$> results st !! 1%nat) = Some None
    /\ (flash_ok <$> results st !! 1%nat) = Some true
    /\ map fst (commands (hist (snd run)))
       = [["make"; "FLASH_DEVICE=/dev/serial/by-id/usb-Klipper_stm32f446xx_11-if00";
           "flash"];
          ["make"; "FLASH_DEVICE=/dev/serial/by-id/usb-Klipper_rp2040_30AB-if00";
           "flash"]].
Proof.
  intros W second run. eexists. split; [vm_compute; reflexivity|].
  repeat split; vm_compute; reflexivity.
Qed.



(* ===================================================================== *)
(** * More on identity and matching *)
(* ===================================================================== *)

(** Whatever the pattern, it is its own first variant. *)
Lemma prefix_variants_head pattern :
  exists alternatives, _prefix_variants pattern = pattern :: alternatives.
Proof.
  unfold _prefix_variants.
  destruct (Str.startswith _ "usb-klipper_"); [eexists; reflexivity|].
  destruct (Str.startswith _ "usb-katapult_"); eexists; reflexivity.
Qed.

(** X1.  A pattern written with the Klipper prefix and the same pattern
    written with the katapult prefix select the same endpoints, in the
    same order. *)
Theorem match_devices_prefix_symmetric (rest : string) (devices : list DiscoveredDevice) :
  match_devices ("usb-Klipper_" +:+ rest) devices
  = match_devices ("usb-katapult_" +:+ rest) devices.
Proof.
  unfold match_devices.
  rewrite MatchingFacts.variants_klipper, MatchingFacts.variants_katapult.
  apply List.filter_ext. intros d. unfold any_variant_matches. cbn [existsb].
  rewrite !orb_false_r. apply orb_comm.
Qed.

(** X2.  The pattern generated from the name of an endpoint selects that
    endpoint among any endpoints it is listed with, whatever its prefix,
    provided the name has no opening bracket and no newline. *)
Theorem generated_pattern_finds_its_device (d : DiscoveredDevice)
    (devices : list DiscoveredDevice) :
  Str.contains "[" (filename d) = false ->
  Str.contains "010" (filename d) = false ->
  d ∈ devices ->
  d ∈ match_devices (generate_serial_pattern (filename d)) devices.
Proof.
  intros Hb Hn Hd. unfold match_devices.
  apply list_elem_of_In, List.filter_In. split; [now apply list_elem_of_In|].
  destruct (prefix_variants_head (generate_serial_pattern (filename d))) as [alt ->].
  unfold any_variant_matches. cbn [existsb]. apply orb_true_iff. left.
  exact (MatchingFacts.fnmatch_generated "" (filename d) eq_refl Hb Hn).
Qed.

Lemma generated_pattern_finds_its_device_witness :
  let d := {| path := "/dev/serial/by-id/usb-Beacon_Beacon_RevH_FC2-if00";
              filename := "usb-Beacon_Beacon_RevH_FC2-if00" |} in
  let other := {| path := "/dev/serial/by-id/usb-Klipper_rp2040_30AB-if00";
                  filename := "usb-Klipper_rp2040_30AB-if00" |} in
  d ∈ match_devices (generate_serial_pattern (filename d)) [other; d].
Proof.
  intros d other.
  apply (generated_pattern_finds_its_device d [other; d]); [reflexivity|reflexivity|].
  apply elem_of_cons. right. apply elem_of_cons. now left.
Defined.

(** X3.  A pattern is given a second variant exactly when it names a
    supported device; any other pattern stands alone. *)
Theorem prefix_variants_supported (pattern : string) :
  (is_supported_device pattern = true -> length (_prefix_variants pattern) = 2%nat)
  /\ (is_supported_device pattern = false -> _prefix_variants pattern = [pattern]).
Proof.
  unfold is_supported_device, _prefix_variants, SUPPORTED_PREFIXES. cbn [existsb].
  rewrite orb_false_r.
  destruct (Str.startswith _ "usb-klipper_"); [split; [reflexivity|discriminate]|].
  destruct (Str.startswith _ "usb-katapult_"); split; try reflexivity; discriminate.
Qed.

(** X4.  The device signature does not depend on the prefix family: a
    name under the Klipper prefix and the same name under the katapult
    prefix have the same signature, or both have none. *)
Theorem extract_device_signature_prefix_independent (rest : string) :
  extract_device_signature ("usb-Klipper_" +:+ rest)
  = extract_device_signature ("usb-katapult_" +:+ rest).
Proof.
  unfold extract_device_signature.
  replace (signature_search ("usb-Klipper_" +:+ rest))
    with (match signature_here ("usb-Klipper_" +:+ rest) with
          | Some g => Some g
          | None => signature_search rest
          end) by reflexivity.
  replace (signature_search ("usb-katapult_" +:+ rest))
    with (match signature_here ("usb-katapult_" +:+ rest) with
          | Some g => Some g
          | None => signature_search rest
          end) by reflexivity.
  reflexivity.
Qed.

(* ===================================================================== *)
(** * The make-up of a batch *)
(* ===================================================================== *)

Lemma dedupe_from_fresh seen devices e :
  e ∈ dedupe_from seen devices -> key e ∉ seen.
Proof.
  revert seen. induction devices as [|d devices IH]; intros seen He.
  - now apply elem_of_nil in He.
  - cbn [dedupe_from] in He. destruct (decide (key d ∈ seen)) as [Hd|Hd].
    + now apply IH.
    + apply elem_of_cons in He as [->|He]; [exact Hd|].
      apply IH in He. intros Hs. apply He, elem_of_union. now right.
Qed.

Lemma dedupe_from_NoDup seen devices :
  NoDup (key <$> dedupe_from seen devices).
Proof.
  revert seen. induction devices as [|d devices IH]; intros seen.
  - constructor.
  - cbn [dedupe_from]. destruct (decide (key d ∈ seen)) as [Hd|Hd]; [apply IH|].
    rewrite fmap_cons. constructor; [|apply IH].
    intros Hin. apply list_elem_of_fmap in Hin as (e & Hk & He).
    apply dedupe_from_fresh in He. apply He, elem_of_union. left.
    apply elem_of_singleton. now symmetry.
Qed.

Lemma dedupe_from_sublist seen devices :
  dedupe_from seen devices `sublist_of` devices.
Proof.
  revert seen. induction devices as [|d devices IH]; intros seen.
  - constructor.
  - cbn [dedupe_from]. destruct (decide (key d ∈ seen)).
    + apply sublist_cons, IH.
    + apply sublist_skip, IH.
Qed.

Lemma dedupe_from_keeps seen devices e :
  e ∈ devices -> key e ∉ seen ->
  exists e', e' ∈ dedupe_from seen devices /\ key e' = key e.
Proof.
  revert seen. induction devices as [|d devices IH]; intros seen He Hs.
  - now apply elem_of_nil in He.
  - cbn [dedupe_from]. destruct (decide (key d ∈ seen)) as [Hd|Hd].
    + apply elem_of_cons in He as [->|He]; [contradiction|]. now apply IH.
    + destruct (decide (key e = key d)) as [Hk|Hk].
      * exists d. split; [apply elem_of_cons; now left | now symmetry].
      * apply elem_of_cons in He as [->|He]; [contradiction|].
        destruct (IH ({[ key d ]} ∪ seen) He) as (e' & He' & Hk').
        { intros Hu. apply elem_of_union in Hu as [Hu|Hu]; [|contradiction].
          now apply elem_of_singleton in Hu. }
        exists e'. split; [apply elem_of_cons; now right | exact Hk'].
Qed.

Lemma dedupe_from_first seen devices e :
  e ∈ dedupe_from seen devices ->
  exists l1 l2, devices = l1 ++ e :: l2 /\ forall d, d ∈ l1 -> key d <> key e.
Proof.
  revert seen. induction devices as [|d devices IH]; intros seen He.
  - now apply elem_of_nil in He.
  - cbn [dedupe_from] in He. destruct (decide (key d ∈ seen)) as [Hd|Hd].
    + pose proof (dedupe_from_fresh _ _ _ He) as Hf.
      destruct (IH _ He) as (l1 & l2 & -> & Hl). exists (d :: l1), l2.
      split; [reflexivity|]. intros x Hx.
      apply elem_of_cons in Hx as [->|Hx]; [congruence | now apply Hl].
    + apply elem_of_cons in He as [->|He].
      * exists [], devices. split; [reflexivity|]. intros x Hx.
        now apply elem_of_nil in Hx.
      * pose proof (dedupe_from_fresh _ _ _ He) as Hf.
        destruct (IH _ He) as (l1 & l2 & -> & Hl). exists (d :: l1), l2.
        split; [reflexivity|]. intros x Hx.
        apply elem_of_cons in Hx as [->|Hx]; [|now apply Hl].
        intros Hk. apply Hf, elem_of_union. left. apply elem_of_singleton.
        now symmetry.
Qed.

(** X5.  Deduplicating a batch: no key is left twice, nothing is added or
    reordered, every key of the batch is still there, and the entry kept
    for a key is the first one of the batch with that key. *)
Theorem dedupe_flash_all_devices_keys (devices : list DeviceEntry) :
  NoDup (key <$> _dedupe_flash_all_devices devices)
  /\ _dedupe_flash_all_devices devices `sublist_of` devices
  /\ (forall e, e ∈ devices ->
        exists e', e' ∈ _dedupe_flash_all_devices devices /\ key e' = key e)
  /\ (forall e, e ∈ _dedupe_flash_all_devices devices ->
        exists l1 l2, devices = l1 ++ e :: l2 /\ forall d, d ∈ l1 -> key d <> key e).
Proof.
  unfold _dedupe_flash_all_devices. split; [apply dedupe_from_NoDup|].
  split; [apply dedupe_from_sublist|]. split.
  - intros e He. apply dedupe_from_keeps; [exact He|]. apply not_elem_of_empty.
  - intros e. apply dedupe_from_first.
Qed.

Lemma insert_by_key_perm x l : insert_by_key x l ≡ₚ x :: l.
Proof.
  induction l as [|y l IH]; cbn [insert_by_key]; [reflexivity|].
  destruct (String.leb (key x) (key y)); [reflexivity|].
  rewrite IH. apply Permutation_swap.
Qed.

Lemma sort_by_key_perm l : sort_by_key l ≡ₚ l.
Proof.
  induction l as [|x l IH]; cbn; [reflexivity|].
  fold (sort_by_key l). rewrite insert_by_key_perm. now rewrite IH.
Qed.

Lemma insert_by_key_HdRel (R : DeviceEntry -> DeviceEntry -> Prop) a x l :
  R a x -> HdRel R a l -> HdRel R a (insert_by_key x l).
Proof.
  intros Hax Hl. destruct l as [|y l]; cbn [insert_by_key]; [now constructor|].
  destruct (String.leb (key x) (key y)); constructor; [exact Hax|].
  now inversion Hl.
Qed.

Lemma insert_by_key_Sorted x l :
  Sorted (fun a b => String.leb (key a) (key b) = true) l ->
  Sorted (fun a b => String.leb (key a) (key b) = true) (insert_by_key x l).
Proof.
  induction 1 as [|y l Hl IH Hhd]; cbn [insert_by_key].
  - repeat constructor.
  - destruct (String.leb (key x) (key y)) eqn:E.
    + constructor; [now constructor|]. now constructor.
    + constructor; [exact IH|].
      apply insert_by_key_HdRel; [|exact Hhd].
      destruct (String.leb_total (key x) (key y)) as [H|H]; [congruence|exact H].
Qed.

Lemma sort_by_key_Sorted l :
  Sorted (fun a b => String.leb (key a) (key b) = true) (sort_by_key l).
Proof.
  induction l as [|x l IH]; cbn; [constructor|].
  fold (sort_by_key l). now apply insert_by_key_Sorted.
Qed.

Lemma Sorted_app_between {A} (R : A -> A -> Prop) l1 l2 :
  Sorted R l1 -> Sorted R l2 ->
  (forall x y, x ∈ l1 -> y ∈ l2 -> R x y) ->
  Sorted R (l1 ++ l2).
Proof.
  intros H1 H2 H. induction H1 as [|x l1 Hl IH Hhd]; [exact H2|].
  cbn [app]. constructor.
  - apply IH. intros a b Ha Hb. apply H; [apply elem_of_cons; now right | exact Hb].
  - destruct l1 as [|y l1]; cbn [app].
    + destruct l2 as [|z l2]; constructor.
      apply H; apply elem_of_cons; now left.
    + constructor. now inversion Hhd.
Qed.

Lemma Sorted_weaken {A} (R S : A -> A -> Prop) l :
  (forall x y, x ∈ l -> y ∈ l -> R x y -> S x y) -> Sorted R l -> Sorted S l.
Proof.
  intros H Hs. induction Hs as [|x l Hl IH Hhd]; constructor.
  - apply IH. intros a b Ha Hb. apply H; apply elem_of_cons; now right.
  - destruct Hhd as [|y l' Hxy]; constructor.
    apply H; [apply elem_of_cons; now left| |exact Hxy].
    apply elem_of_cons. right. apply elem_of_cons. now left.
Qed.

Lemma batch_rank_cases d :
  (batch_role d = Some "toolhead" /\ batch_rank d = 0%nat)
  \/ (batch_role d <> Some "toolhead" /\ batch_role d = Some "bridge"
      /\ batch_rank d = 2%nat)
  \/ (batch_role d <> Some "toolhead" /\ batch_role d <> Some "bridge"
      /\ batch_rank d = 1%nat).
Proof.
  unfold batch_rank.
  destruct (decide (batch_role d = Some "toolhead")); [now left|].
  destruct (decide (batch_role d = Some "bridge")); right; [left|right]; auto.
Qed.

(** The three lists after the loop: what they held, then the devices of
    their place, in the order of the batch. *)
Lemma group_by_role_filter devices toolheads middle bridges :
  group_by_role devices toolheads middle bridges
  = (toolheads ++ List.filter (fun e => Nat.eqb (batch_rank e) 0) devices,
     middle ++ List.filter (fun e => Nat.eqb (batch_rank e) 1) devices,
     bridges ++ List.filter (fun e => Nat.eqb (batch_rank e) 2) devices).
Proof.
  revert toolheads middle bridges.
  induction devices as [|d devices IH]; intros t m b.
  - cbn. now rewrite !app_nil_r.
  - cbn [group_by_role List.filter].
    destruct (batch_rank_cases d) as [(H1 & ->)|[(H1 & H2 & ->)|(H1 & H2 & ->)]];
      cbn [Nat.eqb].
    + rewrite decide_True by exact H1. rewrite IH.
      now rewrite <- (app_assoc t [d]).
    + rewrite decide_False by exact H1. rewrite decide_True by exact H2.
      rewrite IH. now rewrite <- (app_assoc b [d]).
    + rewrite decide_False by exact H1. rewrite decide_False by exact H2.
      rewrite IH. now rewrite <- (app_assoc m [d]).
Qed.

Lemma filter_rank_perm devices :
  List.filter (fun e => Nat.eqb (batch_rank e) 0) devices
  ++ List.filter (fun e => Nat.eqb (batch_rank e) 1) devices
  ++ List.filter (fun e => Nat.eqb (batch_rank e) 2) devices ≡ₚ devices.
Proof.
  induction devices as [|d devices IH]; [reflexivity|].
  cbn [List.filter].
  destruct (batch_rank_cases d) as [(_ & ->)|[(_ & _ & ->)|(_ & _ & ->)]];
    cbn [Nat.eqb].
  - cbn [app]. now rewrite IH.
  - rewrite (app_assoc _ _ (d :: _)). rewrite <- Permutation_middle.
    rewrite <- app_assoc. now rewrite IH.
  - cbn [app]. rewrite <- Permutation_middle. now rewrite IH.
Qed.

Lemma sort_by_key_rank n l e :
  e ∈ sort_by_key (List.filter (fun e => Nat.eqb (batch_rank e) n) l) ->
  batch_rank e = n.
Proof.
  rewrite sort_by_key_perm. intros He.
  apply list_elem_of_In, List.filter_In in He as [_ He]. now apply Nat.eqb_eq.
Qed.

(** X6.  The order of a batch: the devices are those given, each once;
    CAN toolheads come first and CAN bridges last; within a place the
    devices are in the order of their keys. *)
Theorem sort_flash_all_devices_order (devices : list DeviceEntry) :
  _sort_flash_all_devices devices ≡ₚ devices
  /\ Sorted batch_le (_sort_flash_all_devices devices)
  /\ StronglySorted (fun a b => (batch_rank a <= batch_rank b)%nat)
       (_sort_flash_all_devices devices).
Proof.
  unfold _sort_flash_all_devices. rewrite group_by_role_filter. cbn [app].
  set (t := List.filter (fun e => Nat.eqb (batch_rank e) 0) devices).
  set (m := List.filter (fun e => Nat.eqb (batch_rank e) 1) devices).
  set (b := List.filter (fun e => Nat.eqb (batch_rank e) 2) devices).
  assert (Hs : Sorted batch_le (sort_by_key t ++ sort_by_key m ++ sort_by_key b)).
  { assert (Hg : forall n l,
               Sorted batch_le
                 (sort_by_key (List.filter (fun e => Nat.eqb (batch_rank e) n) l))).
    { intros n l. eapply Sorted_weaken; [|apply sort_by_key_Sorted].
      intros x y Hx Hy Hxy. right. split; [|exact Hxy].
      apply sort_by_key_rank in Hx, Hy. congruence. }
    apply Sorted_app_between; [apply Hg| |].
    - apply Sorted_app_between; [apply Hg|apply Hg|].
      intros x y Hx Hy. apply sort_by_key_rank in Hx, Hy. left. lia.
    - intros x y Hx Hy. apply sort_by_key_rank in Hx.
      apply elem_of_app in Hy as [Hy|Hy]; apply sort_by_key_rank in Hy; left; lia. }
  split; [|split].
  - rewrite !sort_by_key_perm. apply filter_rank_perm.
  - exact Hs.
  - apply Sorted_StronglySorted; [intros x y z; lia|].
    eapply Sorted_weaken; [|exact Hs].
    intros x y _ _ [H|[H _]]; lia.
Qed.

(* ===================================================================== *)
(** * The registry cross-reference *)
(* ===================================================================== *)

Lemma first_matching_match_device pattern devices :
  first_matching (_prefix_variants pattern) devices = match_device pattern devices.
Proof.
  unfold match_device, match_devices.
  induction devices as [|d devices IH]; [reflexivity|].
  cbn [first_matching List.filter].
  destruct (any_variant_matches (filename d) (_prefix_variants pattern)); [reflexivity|].
  exact IH.
Qed.

Lemma first_matching_elem variants devices d :
  first_matching variants devices = Some d -> d ∈ devices.
Proof.
  induction devices as [|x devices IH]; [discriminate|].
  cbn [first_matching]. destruct (any_variant_matches _ _).
  - intros [= ->]. apply elem_of_cons. now left.
  - intros H. apply elem_of_cons. right. now apply IH.
Qed.

Lemma remove_first_elem x l d :
  NoDup l -> (d ∈ remove_first x l <-> d ∈ l /\ d <> x).
Proof.
  induction 1 as [|y l Hy Hl IH]; cbn [remove_first].
  - split; [intros H; now apply elem_of_nil in H | intros [H _]; exact H].
  - destruct (decide (y = x)) as [->|Hne].
    + rewrite elem_of_cons. split.
      * intros Hd. split; [now right|]. intros ->. contradiction.
      * intros [[->|Hd] Hne]; [contradiction | exact Hd].
    + rewrite !elem_of_cons, IH. split.
      * intros [->|[Hd Hx]]; [split; [now left | exact Hne] | split; [now right | exact Hx]].
      * intros [[->|Hd] Hx]; [now left | right; now split].
Qed.

Lemma remove_first_NoDup x l : NoDup l -> NoDup (remove_first x l).
Proof.
  induction 1 as [|y l Hy Hl IH]; cbn [remove_first]; [constructor|].
  destruct (decide (y = x)); [exact Hl|].
  constructor; [|exact IH].
  intros Hin. apply remove_first_elem in Hin as [Hin _]; [contradiction | exact Hl].
Qed.

(** What the outer loop adds to [matched] and takes from
    [unmatched_devices]. *)
Lemma find_registered_from_spec entries devices matched unmatched :
  NoDup unmatched ->
  exists added,
    fst (find_registered_from entries devices matched unmatched) = matched ++ added
    /\ (forall e d, (e, d) ∈ added <->
          e ∈ entries /\ exists p, serial_pattern e = Some p
                                   /\ match_device p devices = Some d)
    /\ NoDup (snd (find_registered_from entries devices matched unmatched))
    /\ (forall d, d ∈ snd (find_registered_from entries devices matched unmatched) <->
          d ∈ unmatched /\ forall e, (e, d) ∉ added).
Proof.
  revert matched unmatched.
  induction entries as [|entry entries IH]; intros matched unmatched Hnd.
  - exists []. cbn. rewrite app_nil_r. split; [reflexivity|]. split.
    { intros e d. split; [intros H; now apply elem_of_nil in H|].
      intros [H _]. now apply elem_of_nil in H. }
    split; [exact Hnd|]. intros d. split; [|now intros [H _]].
    intros H. split; [exact H|]. intros e He. now apply elem_of_nil in He.
  - cbn [find_registered_from].
    assert (Hskip :
              (forall d p, serial_pattern entry = Some p ->
                           match_device p devices <> Some d) ->
              exists added,
                fst (find_registered_from entries devices matched unmatched)
                = matched ++ added
                /\ (forall e d, (e, d) ∈ added <->
                      e ∈ entry :: entries
                      /\ exists p, serial_pattern e = Some p
                                   /\ match_device p devices = Some d)
                /\ NoDup (snd (find_registered_from entries devices matched unmatched))
                /\ (forall d,
                      d ∈ snd (find_registered_from entries devices matched unmatched) <->
                      d ∈ unmatched /\ forall e, (e, d) ∉ added)).
    { intros Hno. destruct (IH matched unmatched Hnd) as (added & H1 & H2 & H3 & H4).
      exists added. split; [exact H1|]. split; [|split; [exact H3 | exact H4]].
      intros e d. rewrite H2, elem_of_cons. split.
      - intros [He Hp]. split; [now right | exact Hp].
      - intros [[->|He] (p & Hp & Hm)]; [now apply Hno in Hm|].
        split; [exact He|]. now exists p. }
    destruct (serial_pattern entry) as [pattern|] eqn:Hpat; [|apply Hskip; discriminate].
    rewrite first_matching_match_device.
    destruct (match_device pattern devices) as [device|] eqn:Hm;
      [|apply Hskip; intros d p [= <-]; congruence].
    set (unmatched' := if decide (device ∈ unmatched)
                       then remove_first device unmatched else unmatched).
    assert (Hnd' : NoDup unmatched').
    { unfold unmatched'. destruct (decide _); [now apply remove_first_NoDup | exact Hnd]. }
    assert (Hu' : forall d, d ∈ unmatched' <-> d ∈ unmatched /\ d <> device).
    { intros d. unfold unmatched'. destruct (decide (device ∈ unmatched)) as [Hin|Hin].
      - now apply remove_first_elem.
      - split; [|now intros [H _]]. intros H. split; [exact H|]. now intros ->. }
    destruct (IH (matched ++ [(entry, device)]) unmatched' Hnd')
      as (added & H1 & H2 & H3 & H4).
    exists ((entry, device) :: added). split; [|split; [|split; [exact H3|]]].
    + rewrite H1, <- app_assoc. reflexivity.
    + intros e d. rewrite !elem_of_cons, H2. split.
      * intros [[= -> ->]|[He Hp]].
        -- split; [now left|]. now exists pattern.
        -- split; [now right | exact Hp].
      * intros [[->|He] (p & Hp & Hd)].
        -- left. rewrite Hpat in Hp. injection Hp as <-. congruence.
        -- right. split; [exact He|]. now exists p.
    + intros d. rewrite H4, Hu'. split.
      * intros [[Hd Hne] Hno]. split; [exact Hd|]. intros e He.
        apply elem_of_cons in He as [[= -> ->]|He]; [now apply Hne | now apply Hno in He].
      * intros [Hd Hno]. split; [split; [exact Hd|]|].
        -- intros ->. apply (Hno entry). apply elem_of_cons. now left.
        -- intros e He. apply (Hno e). apply elem_of_cons. now right.
Qed.

(** X7.  The cross-reference of the attached endpoints with the registry,
    for endpoints that are pairwise different: a registration is paired
    with the endpoint that [match_device] selects for its pattern, and
    with no other; the endpoints reported as unmatched are those that no
    registration is paired with. *)
Theorem find_registered_devices_partition (devices : list DiscoveredDevice)
    (registry_devices : list DeviceEntry) :
  NoDup devices ->
  let matched := fst (find_registered_devices devices registry_devices) in
  let unmatched := snd (find_registered_devices devices registry_devices) in
  (forall e d, (e, d) ∈ matched <->
     e ∈ registry_devices
     /\ exists p, serial_pattern e = Some p /\ match_device p devices = Some d)
  /\ (forall d, d ∈ unmatched <-> d ∈ devices /\ forall e, (e, d) ∉ matched).
Proof.
  intros Hnd matched unmatched. unfold matched, unmatched, find_registered_devices.
  destruct (find_registered_from_spec registry_devices devices [] devices Hnd)
    as (added & H1 & H2 & _ & H4).
  rewrite H1. cbn [app]. split; [exact H2 | exact H4].
Qed.

Lemma find_registered_devices_partition_witness :
  let board := {| path := "/dev/serial/by-id/usb-katapult_rp2040_30AB-if00";
                  filename := "usb-katapult_rp2040_30AB-if00" |} in
  let probe := {| path := "/dev/serial/by-id/usb-Beacon_Beacon_RevH_FC2-if00";
                  filename := "usb-Beacon_Beacon_RevH_FC2-if00" |} in
  let entry := usb_entry "usb-Klipper_rp2040_30AB*" "usb" "katapult" in
  find_registered_devices [probe; board] [entry] = ([(entry, board)], [probe])
  /\ (probe ∈ snd (find_registered_devices [probe; board] [entry]) <->
      probe ∈ [probe; board]
      /\ forall e, (e, probe) ∉ fst (find_registered_devices [probe; board] [entry])).
Proof.
  intros board probe entry. split; [vm_compute; reflexivity|].
  refine (proj2 (find_registered_devices_partition [probe; board] [entry] _) probe).
  repeat constructor; rewrite ?elem_of_cons; [|apply not_elem_of_nil].
  intros [H|H]; [discriminate H | now apply elem_of_nil in H].
Defined.

(* ===================================================================== *)
(** * Blocked devices *)
(* ===================================================================== *)

Lemma startswith_split s p :
  Str.startswith s p = true -> s = p +:+ Str.drop (String.length p) s.
Proof.
  revert s. induction p as [|a p IH]; intros s H; [reflexivity|].
  destruct s as [|b s]; [discriminate|].
  cbn [Str.startswith] in H. apply andb_true_iff in H as [Hab H].
  apply Ascii.eqb_eq in Hab as ->.
  cbn [String.length Str.drop]. rewrite MatchingFacts.append_cons. f_equal. now apply IH.
Qed.

(** X8.  The built-in block of Beacon probes cannot be lifted by the
    registry: whatever the registry lists as blocked, a name that starts
    with [usb-beacon_] in any capitalisation is blocked with the built-in
    reason. *)
Theorem beacon_always_blocked (filename : string)
    (blocked_devices : list (string * option string)) :
  Str.startswith (Str.lower filename) "usb-beacon_" = true ->
  _blocked_reason_for_filename filename (_build_blocked_list blocked_devices)
  = Some "Beacon probe (not a Klipper MCU)".
Proof.
  intros H. unfold _blocked_reason_for_filename, _build_blocked_list,
    DEFAULT_BLOCKED_DEVICES.
  cbn [app blocked_reason_of_name].
  replace (_normalize_pattern "usb-beacon_*") with ("usb-beacon_" +:+ "*")
    by (vm_compute; reflexivity).
  rewrite (startswith_split _ _ H). unfold Fnmatch.fnmatch.
  rewrite MatchingFacts.matches_self_prefix;
    [reflexivity | reflexivity | apply MatchingFacts.matches_star_all].
Qed.

Lemma beacon_always_blocked_witness :
  _blocked_reason_for_filename "usb-Beacon_Beacon_RevH_FC2-if00"
    (_build_blocked_list [("usb-*", Some "everything")])
  = Some "Beacon probe (not a Klipper MCU)".
Proof. apply beacon_always_blocked. reflexivity. Defined.

Lemma blocked_reason_of_pattern_None serial_pattern blocked_list :
  blocked_reason_of_pattern serial_pattern blocked_list = None ->
  forall pattern reason,
    (pattern, reason) ∈ blocked_list ->
    Fnmatch.fnmatch serial_pattern (_normalize_pattern pattern) = false
    /\ Fnmatch.fnmatch (_normalize_pattern pattern) serial_pattern = false.
Proof.
  induction blocked_list as [|[p r] blocked_list IH]; intros H pattern reason Hin.
  - now apply elem_of_nil in Hin.
  - cbn [blocked_reason_of_pattern] in H.
    destruct (Fnmatch.fnmatch serial_pattern (_normalize_pattern p)
              || Fnmatch.fnmatch (_normalize_pattern p) serial_pattern) eqn:E;
      [discriminate|].
    apply elem_of_cons in Hin as [[= -> ->]|Hin]; [now apply orb_false_iff in E|].
    now apply (IH H pattern reason).
Qed.

(** X9.  A registration with a pattern passes the block check only if the
    pattern names a supported device and, in lower case, neither matches a
    blocked pattern nor is matched by one. *)
Theorem unblocked_entry_is_supported (entry : DeviceEntry)
    (blocked_list : list (string * option string)) (p : string) :
  serial_pattern entry = Some p ->
  _blocked_reason_for_entry entry blocked_list = None ->
  is_supported_device p = true
  /\ forall pattern reason,
       (pattern, reason) ∈ blocked_list ->
       Fnmatch.fnmatch (Str.lower p) (_normalize_pattern pattern) = false
       /\ Fnmatch.fnmatch (_normalize_pattern pattern) (Str.lower p) = false.
Proof.
  intros Hp H. unfold _blocked_reason_for_entry in H. rewrite Hp in H.
  destruct (blocked_reason_of_pattern (Str.lower p) blocked_list) eqn:E; [discriminate|].
  split; [|now apply blocked_reason_of_pattern_None].
  unfold is_supported_device.
  destruct (existsb _ SUPPORTED_PREFIXES); [reflexivity | discriminate].
Qed.

Lemma unblocked_entry_is_supported_witness :
  let entry := usb_entry "usb-Klipper_rp2040_30AB*" "usb" "katapult" in
  _blocked_reason_for_entry entry (_build_blocked_list []) = None
  /\ is_supported_device "usb-Klipper_rp2040_30AB*" = true.
Proof.
  intros entry. split; [vm_compute; reflexivity|].
  refine (proj1 (unblocked_entry_is_supported entry (_build_blocked_list [])
                   "usb-Klipper_rp2040_30AB*" eq_refl _)).
  vm_compute. reflexivity.
Defined.

(* ===================================================================== *)
(** * Scanning *)
(* ===================================================================== *)

Lemma insert_sorted_perm x l : insert_sorted x l ≡ₚ x :: l.
Proof.
  induction l as [|y l IH]; cbn [insert_sorted]; [reflexivity|].
  destruct (String.leb x y); [reflexivity|].
  rewrite IH. apply Permutation_swap.
Qed.

Lemma sorted_perm l : sorted l ≡ₚ l.
Proof.
  induction l as [|x l IH]; cbn; [reflexivity|].
  fold (sorted l). rewrite insert_sorted_perm. now rewrite IH.
Qed.

Lemma insert_sorted_Sorted x l :
  Sorted (fun a b => String.leb a b = true) l ->
  Sorted (fun a b => String.leb a b = true) (insert_sorted x l).
Proof.
  induction 1 as [|y l Hl IH Hhd]; cbn [insert_sorted].
  - repeat constructor.
  - destruct (String.leb x y) eqn:E.
    + constructor; [now constructor|]. now constructor.
    + constructor; [exact IH|].
      assert (Hyx : String.leb y x = true).
      { destruct (String.leb_total x y) as [H|H]; [congruence|exact H]. }
      destruct l as [|z l]; cbn [insert_sorted]; [now constructor|].
      destruct (String.leb x z); constructor; [exact Hyx|]. now inversion Hhd.
Qed.

Lemma sorted_Sorted l : Sorted (fun a b => String.leb a b = true) (sorted l).
Proof.
  induction l as [|x l IH]; cbn; [constructor|].
  fold (sorted l). now apply insert_sorted_Sorted.
Qed.

(** X10.  A scan that returns lists each name of the directory once, in
    the order of the names, each with its path under the directory; when
    the directory is missing it lists nothing, and the directory is not
    read. *)
Theorem scan_serial_devices_sorted (W : World) (s : State)
    (devices : list DiscoveredDevice) (s' : State) :
  scan_serial_devices W s = (Ok devices, s') ->
  Sorted (fun a b => String.leb (filename a) (filename b) = true) devices
  /\ Forall (fun d => path d = SERIAL_BY_ID +:+ "/" +:+ filename d) devices
  /\ ((devices = [] /\ hist s' = hist s ++ [EStat "is_dir" SERIAL_BY_ID false])
      \/ exists names,
           hist s' = hist s ++ [EStat "is_dir" SERIAL_BY_ID true;
                                EListdir SERIAL_BY_ID (Some names)]
           /\ filename <$> devices ≡ₚ names).
Proof.
  unfold scan_serial_devices, bind, is_dir, os_listdir, ask, ret, raise. cbn [negb].
  destruct (stat W (hist s) "is_dir" SERIAL_BY_ID) eqn:Hd; cbn [negb].
  - cbn [log hist]. destruct (listdir W _ SERIAL_BY_ID) as [names|] eqn:Hl; [|discriminate].
    intros [= <- <-]. split; [|split].
    + induction (sorted_Sorted names) as [|x l Hl' IH Hhd]; cbn [map]; constructor.
      * exact IH.
      * destruct Hhd; cbn [map]; constructor. assumption.
    + apply Forall_forall. intros d Hin.
      apply list_elem_of_In, in_map_iff in Hin as (x & <- & _). reflexivity.
    + right. exists names. split.
      * cbn [log hist]. now rewrite <- app_assoc.
      * rewrite <- list_fmap_compose.
        transitivity (sorted names); [|apply sorted_perm].
        clear. induction (sorted names) as [|x l IH]; [reflexivity|].
        cbn. now rewrite IH.
  - intros [= <- <-]. split; [constructor|]. split; [constructor|].
    left. split; reflexivity.
Qed.

Lemma scan_serial_devices_sorted_witness :
  let W := quiet_world ["usb-katapult_rp2040_30AB-if00"; "usb-Klipper_stm32f446xx_11-if00"] 0 in
  let run := scan_serial_devices W start_state in
  exists devices,
    fst run = Ok devices
    /\ Sorted (fun a b => String.leb (filename a) (filename b) = true) devices
    /\ filename <$> devices = ["usb-Klipper_stm32f446xx_11-if00";
                               "usb-katapult_rp2040_30AB-if00"].
Proof.
  intros W run.
  pose (devices := match fst run with Ok d => d | _ => [] end).
  assert (E : run = (Ok devices, snd run)).
  { rewrite (surjective_pairing run) at 1. f_equal; vm_compute; reflexivity. }
  exists devices. split; [now rewrite E|]. split.
  - exact (proj1 (scan_serial_devices_sorted W start_state devices (snd run) E)).
  - vm_compute. reflexivity.
Defined.

(* ===================================================================== *)
(** * Polls only observe *)
(* ===================================================================== *)

Ltac fp_side := first [ exact I | reflexivity | assumption | intros; exact I | easy ].

(** One step of a footprint for any predicate on events: the primitives
    are taken apart down to [ask] and [emit]. *)
Ltac fp_step :=
  match goal with
  | |- obeys _ _ (ret _) => apply obeys_ret; fp_side
  | |- obeys _ _ (raise _) => apply obeys_raise
  | |- obeys _ _ diverge => apply obeys_diverge
  | |- obeys _ _ (bind _ _) => eapply (obeys_bind _ anything); [ | intros ? _ ]
  | |- obeys _ _ (when _ _) => apply obeys_when
  | |- obeys _ _ (ask _ _ _) => apply obeys_ask; [intros; fp_side | intros; fp_side]
  | |- obeys _ _ (emit _) => apply obeys_emit; fp_side
  | |- obeys _ _ (now _) => unfold now
  | |- obeys _ _ (sleep _) => unfold sleep
  | |- obeys _ _ (say _ _) => unfold say
  | |- obeys _ _ (os_listdir _ _) => unfold os_listdir
  | |- obeys _ _ (path_exists _ _) => unfold path_exists
  | |- obeys _ _ (is_file _ _) => unfold is_file
  | |- obeys _ _ (is_dir _ _) => unfold is_dir
  | |- obeys _ _ (py_input _) => unfold py_input
  | |- obeys _ _ (out_confirm _ _) => unfold out_confirm
  | |- obeys _ _ (os_realpath _ _) => unfold os_realpath
  | |- obeys _ _ (registry_update_device _ _) => unfold registry_update_device
  | |- obeys _ _ (subprocess_run _ _) => unfold subprocess_run
  | |- obeys _ _ (shutil_copy _ _ _) => unfold shutil_copy
  | |- obeys _ _ (if ?b then _ else _) => destruct b
  | |- obeys _ _ (match ?x with _ => _ end) => destruct x
  | |- obeys _ _ (let '(_, _) := ?x in _) => destruct x
  end.

Ltac fp_auto := repeat fp_step.

Section Observations.
Context (W : World).

Lemma default_scan_fn_observes : obeys poll_event anything (default_scan_fn W).
Proof. unfold default_scan_fn. fp_auto. Qed.

Lemma wait_disappear_observes fuel original deadline interval :
  obeys poll_event anything
    (wait_disappear W fuel (default_scan_fn W) original deadline interval).
Proof.
  induction fuel as [|fuel IH]; cbn [wait_disappear]; [fp_auto|].
  eapply (obeys_bind _ anything); [fp_auto|]. intros t _.
  destruct (t <? deadline)%Z; [|fp_auto].
  eapply (obeys_bind _ anything); [apply default_scan_fn_observes|]. intros names _.
  destruct (negb _); [fp_auto|].
  eapply (obeys_bind _ anything); [fp_auto|]. intros _ _. exact IH.
Qed.

Lemma wait_reappear_observes fuel sig deadline interval :
  obeys poll_event anything
    (wait_reappear W fuel (default_scan_fn W) sig deadline interval).
Proof.
  induction fuel as [|fuel IH]; cbn [wait_reappear]; [fp_auto|].
  eapply (obeys_bind _ anything); [fp_auto|]. intros t _.
  destruct (t <? deadline)%Z; [|fp_auto].
  eapply (obeys_bind _ anything); [apply default_scan_fn_observes|]. intros names _.
  destruct (first_with_signature _ _); [fp_auto|].
  eapply (obeys_bind _ anything); [fp_auto|]. intros _ _. exact IH.
Qed.

Lemma poll_observes fuel original pattern timeout interval :
  obeys poll_event anything
    (_poll_for_reenumeration W fuel original pattern timeout interval (default_scan_fn W)).
Proof.
  unfold _poll_for_reenumeration.
  eapply (obeys_bind _ anything); [fp_auto|]. intros t0 _.
  eapply (obeys_bind _ anything); [apply wait_disappear_observes|]. intros gone _.
  destruct gone; [apply wait_reappear_observes | fp_auto].
Qed.

Lemma scan_serial_devices_observes : obeys observation anything (scan_serial_devices W).
Proof. unfold scan_serial_devices. fp_auto. Qed.

Lemma inspect_devices_messages pattern out devices found last :
  obeys observation_or_message anything (inspect_devices pattern out devices found last).
Proof.
  revert found last. induction devices as [|d devices IH]; intros found last;
    cbn [inspect_devices]; [fp_auto|].
  destruct pattern as [p|]; [|fp_auto].
  destruct (any_variant_matches _ _); [|apply IH].
  destruct (Str.startswith _ "usb-klipper_"); [fp_auto|].
  destruct (Str.startswith _ "usb-katapult_"); [apply IH | fp_auto].
Qed.

Lemma poll_devices_messages fuel pattern timeout interval out start dot last :
  obeys observation_or_message anything
    (poll_devices W fuel pattern timeout interval out start dot last).
Proof.
  revert dot last. induction fuel as [|fuel IH]; intros dot last;
    cbn [poll_devices]; [fp_auto|].
  eapply (obeys_bind _ anything); [fp_auto|]. intros t _.
  destruct (t - start <? timeout)%Z; [|fp_auto].
  eapply (obeys_bind _ anything); [fp_auto|]. intros now_ _.
  eapply (obeys_bind _ anything); [fp_auto|]. intros _ _.
  eapply (obeys_bind _ anything).
  { eapply obeys_weaken; [| |apply scan_serial_devices_observes]; [|eauto].
    intros []; easy. }
  intros devices _.
  eapply (obeys_bind _ anything); [apply inspect_devices_messages|].
  intros [v|[found last']] _; [fp_auto|].
  eapply (obeys_bind _ anything); [fp_auto|]. intros _ _. apply IH.
Qed.

End Observations.

(** X11.  The two-phase poll only looks and waits: all it puts on record
    are clock readings, directory listings and pauses.  It runs no
    command, copies nothing, asks nothing and prints nothing. *)
Theorem poll_for_reenumeration_only_observes (W : World) (fuel : nat)
    (original_path serial_pattern : string) (timeout interval : Z)
    (s : State) (r : Res (option string)) (s' : State) :
  _poll_for_reenumeration W fuel original_path serial_pattern timeout interval
    (default_scan_fn W) s = (r, s') ->
  exists added,
    hist s' = hist s ++ added
    /\ Forall poll_event added
    /\ commands (hist s') = commands (hist s).
Proof.
  intros H.
  destruct (poll_observes W fuel original_path serial_pattern timeout interval s r s' H)
    as [(added & Hh & Ho) _].
  exists added. split; [exact Hh|]. split; [exact Ho|].
  rewrite Hh. unfold commands. rewrite omap_app.
  replace (omap _ added) with (@nil (list string * ProcOutcome)); [now rewrite app_nil_r|].
  clear Hh. induction Ho as [|e added He _ IH]; [reflexivity|].
  cbn. rewrite <- IH. now destruct e.
Qed.

Lemma poll_for_reenumeration_only_observes_witness :
  let W := rebooting_world 4 ["usb-Klipper_rp2040_30AB-if00"] ["usb-katapult_rp2040_30AB-if00"] in
  let run := _poll_for_reenumeration W 40 "/dev/serial/by-id/usb-Klipper_rp2040_30AB-if00"
               "usb-Klipper_rp2040_30AB*" TIMEOUT_REENUMERATION POLL_INTERVAL
               (default_scan_fn W) start_state in
  fst run = Ok (Some "/dev/serial/by-id/usb-katapult_rp2040_30AB-if00")
  /\ exists added,
       hist (snd run) = hist start_state ++ added
       /\ Forall poll_event added
       /\ commands (hist (snd run)) = commands (hist start_state).
Proof.
  intros W run. split; [vm_compute; reflexivity|].
  exact (poll_for_reenumeration_only_observes W 40
           "/dev/serial/by-id/usb-Klipper_rp2040_30AB-if00" "usb-Klipper_rp2040_30AB*"
           TIMEOUT_REENUMERATION POLL_INTERVAL start_state (fst run) (snd run)
           (surjective_pairing run)).
Defined.

(** X12.  The post-flash verification only looks, waits and tells: all it
    puts on record are clock readings, tests and listings of the
    directory, pauses and messages.  It runs no command, copies nothing,
    asks nothing and leaves the registry alone. *)
Theorem wait_for_device_only_observes (W : World) (fuel : nat)
    (serial_pattern : option string) (timeout interval : Z) (out : bool)
    (s : State) (r : Res Verdict) (s' : State) :
  wait_for_device W fuel serial_pattern timeout interval out s = (r, s') ->
  exists added,
    hist s' = hist s ++ added /\ Forall observation_or_message added.
Proof.
  intros H.
  assert (Hf : obeys observation_or_message anything
                 (wait_for_device W fuel serial_pattern timeout interval out)).
  { unfold wait_for_device.
    eapply (obeys_bind _ anything); [fp_auto|]. intros start _.
    eapply (obeys_bind _ anything); [fp_auto|]. intros _ _.
    apply poll_devices_messages. }
  exact (proj1 (Hf s r s' H)).
Qed.

Lemma wait_for_device_only_observes_witness :
  let W := quiet_world ["usb-Klipper_rp2040_30AB-if00"] 0 in
  let run := wait_for_device W 40 (Some "usb-Klipper_rp2040_30AB*") 30000 500 true
               start_state in
  fst run = Ok (true, Some "/dev/serial/by-id/usb-Klipper_rp2040_30AB-if00", None)
  /\ exists added,
       hist (snd run) = hist start_state ++ added
       /\ Forall observation_or_message added.
Proof.
  intros W run. split; [vm_compute; reflexivity|].
  exact (wait_for_device_only_observes W 40 (Some "usb-Klipper_rp2040_30AB*") 30000 500
           true start_state (fst run) (snd run) (surjective_pairing run)).
Defined.

(* ===================================================================== *)
(** * Requests to change the mode of a board *)
(* ===================================================================== *)

Lemma requests_app l1 l2 : requests (l1 ++ l2) = (requests l1 + requests l2)%nat.
Proof. unfold requests. now rewrite List.filter_app, length_app. Qed.

Lemma within_weaken {A} n m (c : M A) : (n <= m)%nat -> within n c -> within m c.
Proof.
  intros Hnm Hc s r s' H. destruct (Hc s r s' H) as (added & Hh & Hn & Hf).
  exists added. split; [exact Hh|]. split; [lia | exact Hf].
Qed.

Lemma within_of_obeys {A} (Q : A -> Prop) (c : M A) :
  obeys (fun e => is_request e = false /\ is_confirm e = false) Q c -> within 0 c.
Proof.
  intros Hc s r s' H. destruct (Hc s r s' H) as [(added & Hh & Hf) _].
  exists added. split; [exact Hh|]. split.
  - clear Hh. induction Hf as [|e added [He _] _ IH]; [cbn; lia|].
    unfold requests in *. cbn. now rewrite He.
  - eapply Forall_impl; [exact Hf|]. now intros e [_ He].
Qed.

Lemma within_bind {A B} n m (c : M B) (k : B -> M A) :
  within n c -> (forall b, within m (k b)) -> within (n + m) (bind c k).
Proof.
  intros Hc Hk s r s' H. unfold bind in H.
  destruct (c s) as [[b|e|] s1] eqn:Ec;
    destruct (Hc _ _ _ Ec) as (d1 & Hd1 & Hn1 & Hf1).
  - destruct (Hk b _ _ _ H) as (d2 & Hd2 & Hn2 & Hf2).
    exists (d1 ++ d2). split; [now rewrite Hd2, Hd1, app_assoc|].
    split; [rewrite requests_app; lia | now apply Forall_app].
  - injection H as <- <-. exists d1. split; [exact Hd1|]. split; [lia | exact Hf1].
  - injection H as <- <-. exists d1. split; [exact Hd1|]. split; [lia | exact Hf1].
Qed.

Lemma within_try_except {A} n m (c : M A) handler :
  within n c -> (forall e h, handler e = Some h -> within m h) ->
  within (n + m) (try_except c handler).
Proof.
  intros Hc Hh s r s' H. unfold try_except in H.
  destruct (c s) as [[a|e|] s1] eqn:Ec;
    destruct (Hc _ _ _ Ec) as (d1 & Hd1 & Hn1 & Hf1).
  - injection H as <- <-. exists d1. split; [exact Hd1|]. split; [lia | exact Hf1].
  - destruct (handler e) as [h|] eqn:Eh.
    + destruct (Hh e h Eh _ _ _ H) as (d2 & Hd2 & Hn2 & Hf2).
      exists (d1 ++ d2). split; [now rewrite Hd2, Hd1, app_assoc|].
      split; [rewrite requests_app; lia | now apply Forall_app].
    + injection H as <- <-. exists d1. split; [exact Hd1|]. split; [lia | exact Hf1].
  - injection H as <- <-. exists d1. split; [exact Hd1|]. split; [lia | exact Hf1].
Qed.

Lemma within_ask {A R} (answer : History -> R) ev (k : R -> Res A) :
  (forall r, is_confirm (ev r) = false) -> within 1 (ask answer ev k).
Proof.
  intros Hc s r s' [= <- <-]. eexists. split; [reflexivity|]. split.
  - unfold requests. cbn. destruct (is_request _); cbn; lia.
  - repeat constructor. apply Hc.
Qed.

Ltac calm := apply (within_of_obeys anything); fp_auto.

Section Requests.
Context (W : World).

Lemma poll_and_settle_within fuel device_path entry stagger how :
  within 0 (poll_and_settle W fuel device_path entry stagger how).
Proof.
  unfold poll_and_settle. apply (within_bind 0 0).
  - apply (within_of_obeys anything).
    eapply obeys_weaken; [| |apply poll_observes]; [|eauto].
    intros []; easy.
  - intros [p|]; calm.
Qed.

Lemma enter_none_within device_path entry klipper katapult stagger out :
  within 0 (_enter_none W device_path entry klipper katapult stagger out).
Proof. unfold _enter_none. calm. Qed.

Lemma enter_usb_within fuel device_path entry klipper katapult stagger out :
  within 1 (_enter_usb W fuel device_path entry klipper katapult stagger out).
Proof.
  unfold _enter_usb. apply (within_bind 0 1).
  { unfold _get_klippy_env_python. calm. }
  intros python. apply (within_bind 1 0).
  - apply (within_try_except 1 0).
    + apply (within_bind 1 0); [now apply within_ask | intros; calm].
    + intros e h Hh. destruct e; try discriminate Hh; injection Hh as <-; calm.
  - intros [r|]; [calm | apply poll_and_settle_within].
Qed.

Lemma enter_serial_within fuel device_path entry klipper katapult stagger out :
  within 1 (_enter_serial W fuel device_path entry klipper katapult stagger out).
Proof.
  unfold _enter_serial. apply (within_bind 0 1); [calm|].
  intros present. destruct (negb present); [apply (within_weaken 0); [lia | calm]|].
  apply (within_bind 0 1).
  { unfold _get_moonraker_env_python, discover_python_path. calm. }
  intros python. apply (within_bind 1 0).
  - apply (within_try_except 1 0).
    + apply (within_bind 1 0); [now apply within_ask | intros; calm].
    + intros e h Hh. destruct e; try discriminate Hh; injection Hh as <-; calm.
  - intros [r|]; [calm | apply poll_and_settle_within].
Qed.

Lemma enter_manual_within fuel device_path entry klipper katapult stagger out :
  within 1 (_enter_manual W fuel device_path entry klipper katapult stagger out).
Proof.
  unfold _enter_manual. apply (within_bind 0 1); [calm|].
  intros _. apply (within_bind 1 0).
  - apply (within_try_except 1 0).
    + apply (within_bind 1 0); [now apply within_ask | intros; calm].
    + intros e h Hh. destruct e; try discriminate Hh; injection Hh as <-; calm.
  - intros [r|]; [calm|]. case_decide; [calm | apply poll_and_settle_within].
Qed.

Lemma enter_can_within device_path entry klipper katapult stagger out :
  within 1 (_enter_can W device_path entry klipper katapult stagger out).
Proof.
  unfold _enter_can. apply (within_bind 0 1); [calm|].
  intros present. destruct (negb present); [apply (within_weaken 0); [lia | calm]|].
  apply (within_bind 1 0).
  - apply (within_try_except 1 0).
    + apply (within_bind 1 0); [now apply within_ask | intros; calm].
    + intros e h Hh. destruct e; try discriminate Hh; injection Hh as <-; calm.
  - intros [p|r]; calm.
Qed.

(** Every handler of the dispatch table makes at most one request; the
    one for [none] makes none. *)
Lemma dispatch_within fuel method handler device_path entry klipper katapult stagger out :
  dispatch W fuel method = Some handler ->
  within (if decide (method = "none") then 0 else 1)
    (handler device_path entry klipper katapult stagger out).
Proof.
  unfold dispatch. intros H.
  destruct (decide (method = "usb")) as [->|];
    [injection H as <-; apply enter_usb_within|].
  destruct (decide (method = "serial")) as [->|];
    [injection H as <-; apply enter_serial_within|].
  destruct (decide (method = "manual")) as [->|];
    [injection H as <-; apply enter_manual_within|].
  destruct (decide (method = "none")) as [->|];
    [injection H as <-; apply enter_none_within|].
  destruct (decide (method = "can")) as [->|]; [|discriminate].
  injection H as <-. apply enter_can_within.
Qed.

End Requests.

(** X13.  One call of [enter_bootloader] asks for a change of mode at most
    twice, and twice only after the operator has confirmed the retry.
    Without an output channel nothing is asked of the operator and the
    request is made at most once; for the method [none] no request is
    made at all. *)
Theorem enter_bootloader_requests (W : World) (fuel : nat) (device_path : string)
    (entry : DeviceEntry) (klipper katapult : string) (stagger : Z) (out : bool)
    (s : State) (r : Res BootloaderResult) (s' : State) :
  enter_bootloader W fuel device_path entry klipper katapult stagger out s = (r, s') ->
  exists added,
    hist s' = hist s ++ added
    /\ (requests added <= 2)%nat
    /\ (requests added = 2%nat ->
        EConfirm "Device not found. Try again?" true ∈ added)
    /\ (out = false ->
        (requests added <= 1)%nat /\ Forall (fun e => is_confirm e = false) added)
    /\ (Str.opt_or (bootloader_method entry) "none" = "none" -> requests added = 0%nat).
Proof.
  intros H. unfold enter_bootloader in H. unfold bind at 1 in H.
  unfold now at 1, ask in H.
  set (t0 := monotonic W (hist s)) in *.
  set (method := Str.opt_or (bootloader_method entry) "none") in *.
  destruct (dispatch W fuel method) as [handler|] eqn:Ed.
  2:{ unfold bind, now, ask, ret in H. injection H as <- <-.
      eexists. split; [cbn [log hist]; rewrite <- app_assoc; reflexivity|].
      unfold requests. cbn. repeat split; try lia; try discriminate.
      repeat constructor. }
  pose proof (dispatch_within W fuel method handler device_path entry klipper katapult
                stagger out Ed) as Hw.
  unfold bind at 1 in H.
  destruct (handler _ _ _ _ _ _ (log s (EClock t0))) as [[result|e|] s1] eqn:E1;
    destruct (Hw _ _ _ E1) as (d1 & Hd1 & Hn1 & Hf1); cbn [log hist] in Hd1.
  2,3: injection H as <- <-; exists (EClock t0 :: d1);
    (split; [now rewrite Hd1, <- app_assoc|]);
    change (EClock t0 :: d1) with ([EClock t0] ++ d1); rewrite requests_app;
    change (requests [EClock t0]) with 0%nat;
    (split; [destruct (decide _); lia|]); (split; [destruct (decide _); lia|]);
    (split; [intros _; split; [destruct (decide _); lia|];
             constructor; [reflexivity | exact Hf1]|]);
    intros Hm; rewrite decide_True in Hn1 by exact Hm; lia.
  destruct (negb (br_success result) && out && negb (String.eqb method "none")) eqn:Eretry.
  - apply andb_true_iff in Eretry as [Eretry Hnone].
    apply andb_true_iff in Eretry as [_ ->].
    apply negb_true_iff, String.eqb_neq in Hnone.
    rewrite decide_False in Hn1 by exact Hnone.
    unfold bind at 1 in H. unfold bind at 1 in H. unfold out_confirm at 1, ask in H.
    set (ans := confirm W (hist s1) "Device not found. Try again?") in *.
    destruct ans eqn:Eans.
    + destruct (handler _ _ _ _ _ _ (log s1 _)) as [[result2|e|] s2] eqn:E2;
        destruct (Hw _ _ _ E2) as (d2 & Hd2 & Hn2 & Hf2); cbn [log hist] in Hd2;
        rewrite decide_False in Hn2 by exact Hnone.
      * unfold bind, now, ask, ret in H. injection H as <- <-.
        exists (EClock t0 :: d1 ++ EConfirm "Device not found. Try again?" true :: d2
                ++ [EClock (monotonic W (hist s2))]).
        split.
        { cbn [log hist]. rewrite Hd2, Hd1. rewrite <- !app_assoc. reflexivity. }
        change (EClock t0 :: ?l) with ([EClock t0] ++ l).
        change (EConfirm ?p ?b :: ?l) with ([EConfirm p b] ++ l).
        rewrite !requests_app.
        change (requests [EClock t0]) with 0%nat.
        change (requests [EConfirm "Device not found. Try again?" true]) with 0%nat.
        change (requests [EClock (monotonic W (hist s2))]) with 0%nat.
        split; [lia|]. split.
        { intros _. rewrite !elem_of_app. right. right. left. apply elem_of_cons. now left. }
        split; [discriminate|]. intros Hm. contradiction.
      * injection H as <- <-.
        exists (EClock t0 :: d1 ++ EConfirm "Device not found. Try again?" true :: d2).
        split.
        { rewrite Hd2, Hd1. rewrite <- !app_assoc. reflexivity. }
        change (EClock t0 :: ?l) with ([EClock t0] ++ l).
        change (EConfirm ?p ?b :: ?l) with ([EConfirm p b] ++ l).
        rewrite !requests_app.
        change (requests [EClock t0]) with 0%nat.
        change (requests [EConfirm "Device not found. Try again?" true]) with 0%nat.
        split; [lia|]. split.
        { intros _. rewrite !elem_of_app. right. right. left. apply elem_of_cons. now left. }
        split; [discriminate|]. intros Hm. contradiction.
      * injection H as <- <-.
        exists (EClock t0 :: d1 ++ EConfirm "Device not found. Try again?" true :: d2).
        split.
        { rewrite Hd2, Hd1. rewrite <- !app_assoc. reflexivity. }
        change (EClock t0 :: ?l) with ([EClock t0] ++ l).
        change (EConfirm ?p ?b :: ?l) with ([EConfirm p b] ++ l).
        rewrite !requests_app.
        change (requests [EClock t0]) with 0%nat.
        change (requests [EConfirm "Device not found. Try again?" true]) with 0%nat.
        split; [lia|]. split.
        { intros _. rewrite !elem_of_app. right. right. left. apply elem_of_cons. now left. }
        split; [discriminate|]. intros Hm. contradiction.
    + unfold bind, now, ask, ret in H. injection H as <- <-.
      exists (EClock t0 :: d1 ++ [EConfirm "Device not found. Try again?" false;
                                  EClock (monotonic W (hist s1
                                            ++ [EConfirm "Device not found. Try again?" false]))]).
      split.
      { cbn [log hist]. rewrite Hd1. rewrite <- !app_assoc. reflexivity. }
      change (EClock t0 :: ?l) with ([EClock t0] ++ l).
      rewrite !requests_app.
      change (requests [EClock t0]) with 0%nat.
      change (requests [EConfirm _ _; EClock _]) with 0%nat.
      split; [lia|]. split; [lia|]. split; [discriminate|]. intros Hm. contradiction.
  - unfold bind, now, ask, ret in H. injection H as <- <-.
    exists (EClock t0 :: d1 ++ [EClock (monotonic W (hist s1))]).
    split.
    { cbn [log hist]. rewrite Hd1. rewrite <- !app_assoc. reflexivity. }
    change (EClock t0 :: ?l) with ([EClock t0] ++ l).
    rewrite !requests_app.
    change (requests [EClock t0]) with 0%nat.
    change (requests [EClock _]) with 0%nat.
    split; [destruct (decide _); lia|]. split; [destruct (decide _); lia|].
    split.
    + intros _. split; [destruct (decide _); lia|].
      constructor; [reflexivity|]. apply Forall_app. split; [exact Hf1|].
      repeat constructor.
    + intros Hm. rewrite decide_True in Hn1 by exact Hm. lia.
Qed.

(** A CAN board that ignores the first request: the operator agrees to
    the retry and the second request is the last. *)
Lemma enter_bootloader_requests_witness :
  let W := agreeing (scripted_world [exits 1 ""; exits 0 ""]) in
  let entry := can_entry "48ca7afe7a44" "can" "katapult_can" in
  let run := enter_bootloader W 40 "" entry "~/klipper" "~/katapult" 5000 true
               start_state in
  (exists r, fst run = Ok r /\ br_success r = true)
  /\ requests (hist (snd run)) = 2%nat
  /\ exists added,
       hist (snd run) = hist start_state ++ added
       /\ (requests added <= 2)%nat
       /\ (requests added = 2%nat ->
           EConfirm "Device not found. Try again?" true ∈ added)
       /\ (true = false ->
           (requests added <= 1)%nat /\ Forall (fun e => is_confirm e = false) added)
       /\ (Str.opt_or (bootloader_method entry) "none" = "none" ->
           requests added = 0%nat).
Proof.
  intros W entry run. split; [eexists; split; vm_compute; reflexivity|].
  split; [vm_compute; reflexivity|].
  exact (enter_bootloader_requests W 40 "" entry "~/klipper" "~/katapult" 5000 true
           start_state (fst run) (snd run) (surjective_pairing run)).
Defined.

(** X14.  A method tag outside the dispatch table is turned down on the
    spot: the result is a failure that names the tag, and only the clock
    was read. *)
Theorem enter_bootloader_unknown_method (W : World) (fuel : nat) (device_path : string)
    (entry : DeviceEntry) (klipper katapult : string) (stagger : Z) (out : bool)
    (method : string) (s : State) :
  bootloader_method entry = Some method ->
  method <> "" ->
  method ∉ bootloader_methods ->
  exists r t0 t1,
    enter_bootloader W fuel device_path entry klipper katapult stagger out s
    = (Ok r, log (log s (EClock t0)) (EClock t1))
    /\ br_success r = false
    /\ br_device_path r = None
    /\ br_error_message r = Some ("Unknown bootloader method: " +:+ method)
    /\ br_elapsed_seconds r = (t1 - t0)%Z.
Proof.
  intros Hm Hne Hnot. unfold bootloader_methods in Hnot.
  apply not_elem_of_cons in Hnot as [N1 Hnot].
  apply not_elem_of_cons in Hnot as [N2 Hnot].
  apply not_elem_of_cons in Hnot as [N3 Hnot].
  apply not_elem_of_cons in Hnot as [N4 Hnot].
  apply not_elem_of_cons in Hnot as [N5 _].
  unfold enter_bootloader. rewrite Hm.
  assert (Ho : Str.opt_or (Some method) "none" = method).
  { destruct method; [contradiction | reflexivity]. }
  rewrite Ho. unfold dispatch.
  rewrite !decide_False by assumption.
  do 3 eexists. unfold bind, now, ask, ret. split; [reflexivity|].
  repeat split.
Qed.

Lemma enter_bootloader_unknown_method_witness :
  let entry := usb_entry "usb-Klipper_rp2040_30AB*" "dfu" "make_flash" in
  exists r t0 t1,
    enter_bootloader (quiet_world [] 0) 40 "/dev/serial/by-id/usb-Klipper_rp2040_30AB-if00"
      entry "~/klipper" "~/katapult" 2000 true start_state
    = (Ok r, log (log start_state (EClock t0)) (EClock t1))
    /\ br_success r = false
    /\ br_device_path r = None
    /\ br_error_message r = Some ("Unknown bootloader method: " +:+ "dfu")
    /\ br_elapsed_seconds r = (t1 - t0)%Z.
Proof.
  intros entry.
  apply (enter_bootloader_unknown_method (quiet_world [] 0) 40 _ entry "~/klipper"
           "~/katapult" 2000 true "dfu" start_state); [reflexivity|discriminate|].
  unfold bootloader_methods. rewrite !not_elem_of_cons.
  repeat split; try discriminate. apply not_elem_of_nil.
Defined.

(* ===================================================================== *)
(** * A service that does not stop *)
(* ===================================================================== *)

Section StopFacts.
Context (W : World).

Lemma stop_klipper_fails timeout s :
  stop_failed (run W (hist s) systemctl_stop) ->
  exists msg,
    _stop_klipper W timeout s
    = (Raise (ServiceError msg),
       log s (ERun systemctl_stop (run W (hist s) systemctl_stop))).
Proof.
  unfold _stop_klipper, try_except, bind, subprocess_run, ask, raise, stop_failed.
  destruct (run W (hist s) systemctl_stop) as [p|e].
  - intros Hp. apply Z.eqb_neq in Hp. rewrite Hp. cbn [negb]. eexists. reflexivity.
  - destruct e; try contradiction. intros _. eexists. reflexivity.
Qed.

Lemma is_service_active_state active s s1 :
  _is_service_active W s = (Ok active, s1) ->
  s1 = log s (ERun systemctl_is_active (run W (hist s) systemctl_is_active)).
Proof.
  unfold _is_service_active, try_except, bind, subprocess_run, ask, ret.
  destruct (run W (hist s) systemctl_is_active) as [p|e].
  - now intros [= _ <-].
  - destruct (is_Exception e); now intros [= _ <-].
Qed.

End StopFacts.

(** X17.  A service that is running and does not stop: the guarded scope
    raises [ServiceError] before its body has run.  Whatever the body is,
    the probe and the failed stop command are all there is on record; no
    start command is issued. *)
Theorem stop_failure_aborts_scope (W : World) (A : Type) (timeout : Z) (out : bool)
    (body : nat -> M A) (s s1 : State) :
  _is_service_active W s = (Ok true, s1) ->
  stop_failed (run W (hist s1) systemctl_stop) ->
  exists msg s',
    klipper_service_stopped W timeout out body s = (Raise (ServiceError msg), s')
    /\ hist s' = hist s
                 ++ [ERun systemctl_is_active (run W (hist s) systemctl_is_active);
                     ERun systemctl_stop (run W (hist s1) systemctl_stop)].
Proof.
  intros Ha Hstop.
  rewrite (klipper_service_stopped_unfold W timeout out body s s1 true Ha). cbn zeta.
  set (entered := snd (new_service_state _ s1)).
  assert (Hh : hist entered = hist s1) by reflexivity.
  destruct (stop_klipper_fails W timeout entered) as (msg & Hs).
  { now rewrite Hh. }
  rewrite Hs. exists msg. eexists. split; [reflexivity|].
  cbn [log hist]. rewrite Hh.
  rewrite (is_service_active_state W true s s1 Ha). cbn [log hist].
  now rewrite <- app_assoc.
Qed.

Lemma stop_failure_aborts_scope_witness :
  let W := stubborn_world ["usb-Klipper_rp2040_30AB-if00"] (exits 1 "") in
  let body := fun _ : nat => subprocess_run W ["make"; "flash"] in
  exists msg s',
    klipper_service_stopped W TIMEOUT_SERVICE true body start_state
    = (Raise (ServiceError msg), s')
    /\ hist s' = hist start_state
                 ++ [ERun systemctl_is_active (exits 0 "active");
                     ERun systemctl_stop (exits 1 "")].
Proof.
  intros W body.
  pose (probe := _is_service_active W start_state).
  assert (Ha : probe = (Ok true, snd probe)).
  { rewrite (surjective_pairing probe) at 1. f_equal; vm_compute; reflexivity. }
  destruct (stop_failure_aborts_scope W _ TIMEOUT_SERVICE true body start_state
              (snd probe) Ha) as (msg & s' & Hr & Hh).
  { vm_compute. discriminate. }
  exists msg, s'. split; [exact Hr|]. rewrite Hh. vm_compute. reflexivity.
Defined.

(** X18.  [cmd_flash] and a service that is running and does not stop:
    the command reports the error and exits with 1.  The clock reading,
    the probe, the failed stop command and the report are all there is on
    record: no board was asked to change mode and nothing was flashed. *)
Theorem cmd_flash_stop_failure (W : World)
    (verify_can : option string -> string -> string -> M (bool * option string))
    (fuel : nat) (device_key : string) (entry : DeviceEntry)
    (device_path firmware_path : string) (config : GlobalConfig) (s s1 : State) :
  let s0 := log s (EClock (monotonic W (hist s))) in
  _is_service_active W s0 = (Ok true, s1) ->
  stop_failed (run W (hist s1) systemctl_stop) ->
  exists msg s',
    cmd_flash_run W verify_can fuel device_key entry device_path firmware_path config s
    = (Ok 1%Z, s')
    /\ hist s' = hist s
                 ++ [EClock (monotonic W (hist s));
                     ERun systemctl_is_active (run W (hist s0) systemctl_is_active);
                     ERun systemctl_stop (run W (hist s1) systemctl_stop);
                     EOut "error_with_recovery"
                       ["Flash failed"; "Flash operation error: " +:+ msg]].
Proof.
  intros s0 Ha Hstop.
  set (entered := snd (new_service_state
                         {| was_active := true; will_restart := true;
                            restart_succeeded := None |} s1)).
  assert (Hh : hist entered = hist s1) by reflexivity.
  destruct (stop_klipper_fails W TIMEOUT_SERVICE entered) as (msg & Hs).
  { now rewrite Hh. }
  exists msg. eexists.
  unfold cmd_flash_run. unfold bind at 1. unfold now at 1, ask. fold s0.
  unfold bind at 1. unfold cmd_flash_scope, try_except. unfold bind at 1.
  rewrite (klipper_service_stopped_unfold W TIMEOUT_SERVICE true _ s0 s1 true Ha).
  cbn zeta. fold entered. rewrite Hs. cbn [is_Exception].
  unfold bind, say, emit, ret.
  split; [reflexivity|]. cbn [log hist exn_str]. rewrite Hh.
  rewrite (is_service_active_state W true s0 s1 Ha). unfold s0. cbn [log hist].
  rewrite <- !app_assoc. reflexivity.
Qed.

Lemma cmd_flash_stop_failure_witness :
  let W := stubborn_world ["usb-Klipper_rp2040_30AB-if00"] (RunRaises TimeoutExpired) in
  let entry := usb_entry "usb-Klipper_rp2040_30AB*" "usb" "katapult" in
  let run := cmd_flash_run W can_verified 40 "board" entry
               "/dev/serial/by-id/usb-Klipper_rp2040_30AB-if00" "out/klipper.bin"
               sample_config start_state in
  fst run = Ok 1%Z
  /\ commands (hist (snd run))
     = [(systemctl_is_active, exits 0 "active");
        (systemctl_stop, RunRaises TimeoutExpired)].
Proof.
  intros W entry run.
  pose (probe := _is_service_active W
                   (log start_state (EClock (monotonic W (hist start_state))))).
  assert (Ha : probe = (Ok true, snd probe)).
  { rewrite (surjective_pairing probe) at 1. f_equal; vm_compute; reflexivity. }
  destruct (cmd_flash_stop_failure W can_verified 40 "board" entry
              "/dev/serial/by-id/usb-Klipper_rp2040_30AB-if00" "out/klipper.bin"
              sample_config start_state (snd probe) Ha) as (msg & s' & Hr & Hh).
  { vm_compute. exact I. }
  fold run in Hr. rewrite Hr. split; [reflexivity|]. cbn [snd]. rewrite Hh.
  vm_compute. reflexivity.
Defined.

(* ===================================================================== *)
(** * What a flash result says *)
(* ===================================================================== *)

Ltac fr_step :=
  match goal with
  | |- obeys _ consistent (ret _) => apply obeys_ret; reflexivity
  | _ => fp_step
  end.

Ltac fr_auto := repeat fr_step.

Section ResultFacts.
Context (W : World).

Lemma run_once_consistent method start timeout argv m1 m2 m3 :
  obeys anything consistent (run_once W method start timeout argv m1 m2 m3).
Proof.
  unfold run_once. apply obeys_try_except; [fr_auto|].
  intros e h Hh. destruct e; try discriminate Hh; injection Hh as <-; fr_auto.
Qed.

Lemma can_attempts_consistent atts max start timeout argv last_error :
  obeys anything
    (fun r => match r with inl fr => consistent fr | inr _ => True end)
    (can_attempts W atts max start timeout argv last_error).
Proof.
  revert last_error. induction atts as [|attempt rest IH]; intros last_error;
    cbn [can_attempts]; [fr_auto|].
  eapply (obeys_bind _ (fun a => match a with
                                 | Returned fr => consistent fr
                                 | _ => True
                                 end)).
  { unfold can_attempt. apply obeys_try_except.
    - eapply (obeys_bind _ anything); [fr_auto|]. intros p _.
      destruct (returncode p =? 0)%Z; [|fr_auto].
      eapply (obeys_bind _ anything); [fr_auto|]. intros t _.
      apply obeys_ret. reflexivity.
    - intros e h Hh. destruct e; try discriminate Hh; injection Hh as <-; fr_auto. }
  intros [fr|e|e] Ha; [now apply obeys_ret | fr_auto |].
  eapply (obeys_bind _ anything); [fr_auto|]. intros _ _. apply IH.
Qed.

Lemma execute_flash_consistent fuel entry device_path firmware_path config timeout :
  obeys anything consistent
    (execute_flash W fuel entry device_path firmware_path config timeout).
Proof.
  unfold execute_flash. destruct (flash_command entry) as [c|]; [|fr_auto].
  case_decide.
  { unfold flash_katapult.
    eapply (obeys_bind _ anything); [fr_auto|]. intros start _.
    eapply (obeys_bind _ anything); [fr_auto|]. intros present _.
    destruct (negb present); [fr_auto|].
    apply obeys_try_except.
    - unfold _get_klippy_env_python. fr_auto.
    - intros e h Hh. destruct e; try discriminate Hh; injection Hh as <-; fr_auto. }
  case_decide.
  { destruct (is_can_device entry); [fr_auto|]. unfold flash_make.
    eapply (obeys_bind _ anything); [fr_auto|]. intros start _.
    apply run_once_consistent. }
  case_decide.
  { unfold flash_sdcard.
    eapply (obeys_bind _ anything); [fr_auto|]. intros start _.
    case_decide; [fr_auto|].
    eapply (obeys_bind _ anything); [fr_auto|]. intros present _.
    destruct (negb present); [fr_auto|]. apply run_once_consistent. }
  case_decide.
  { unfold flash_uf2.
    eapply (obeys_bind _ anything); [fr_auto|]. intros start _.
    eapply (obeys_bind _ anything); [fr_auto|]. intros t0 _.
    eapply (obeys_bind _ anything).
    { eapply obeys_weaken; [| |apply wait_uf2_mount_quiet]; [easy | eauto]. }
    intros [m|] _; [|fr_auto].
    eapply (obeys_bind _ anything); [fr_auto|]. intros present _.
    destruct (negb present); [fr_auto|].
    apply obeys_try_except; [fr_auto|].
    intros e h Hh. destruct e; try discriminate Hh; injection Hh as <-; fr_auto. }
  case_decide; [|fr_auto].
  destruct (negb (is_can_device entry)); [fr_auto|].
  case_decide; [fr_auto|]. unfold flash_katapult_can.
  eapply (obeys_bind _ anything); [fr_auto|]. intros start _.
  eapply (obeys_bind _ anything); [fr_auto|]. intros present _.
  destruct (negb present); [fr_auto|].
  eapply obeys_bind; [apply can_attempts_consistent|].
  intros [fr|e] Hr; [now apply obeys_ret | fr_auto].
Qed.

End ResultFacts.

(** X15.  Whatever strategy is configured and however it ends, the result
    of [execute_flash] says one thing only: it is a success without an
    error message or a failure with one. *)
Theorem execute_flash_result_consistent (W : World) (fuel : nat) (entry : DeviceEntry)
    (device_path firmware_path : string) (config : GlobalConfig) (timeout : Z)
    (s : State) (fr : FlashResult) (s' : State) :
  execute_flash W fuel entry device_path firmware_path config timeout s = (Ok fr, s') ->
  (fr_success fr = true <-> fr_error_message fr = None).
Proof.
  intros H.
  destruct (execute_flash_consistent W fuel entry device_path firmware_path config
              timeout s (Ok fr) s' H) as [_ Hq].
  specialize (Hq fr eq_refl). unfold consistent in Hq.
  destruct (fr_error_message fr); rewrite Hq; split; congruence.
Qed.

Lemma execute_flash_result_consistent_witness :
  let W := scripted_world [RunRaises (OSError "No such file: make")] in
  let entry := usb_entry "usb-Klipper_rp2040_30AB*" "none" "make_flash" in
  let run := execute_flash W 40 entry "/dev/serial/by-id/usb-Klipper_rp2040_30AB-if00"
               "out/klipper.bin" sample_config TIMEOUT_FLASH start_state in
  exists fr,
    fst run = Ok fr
    /\ fr_error_message fr = Some "Failed to run make flash: No such file: make"
    /\ (fr_success fr = true <-> fr_error_message fr = None).
Proof.
  intros W entry run.
  pose (fr := match fst run with Ok fr => fr | _ => flash_ok_result "" 0 end).
  assert (E : run = (Ok fr, snd run)).
  { rewrite (surjective_pairing run) at 1. f_equal; vm_compute; reflexivity. }
  exists fr. split; [now rewrite E|]. split; [vm_compute; reflexivity|].
  exact (execute_flash_result_consistent W 40 entry
           "/dev/serial/by-id/usb-Klipper_rp2040_30AB-if00" "out/klipper.bin"
           sample_config TIMEOUT_FLASH start_state fr (snd run) E).
Defined.

(* ===================================================================== *)
(** * A success stands on a transfer that worked *)
(* ===================================================================== *)

Lemma grounded_never {A} (ok : A -> Prop) (c : M A) :
  obeys anything (fun a => ok a -> False) c -> grounded ok c.
Proof.
  intros Hc s r s' H. destruct (Hc s r s' H) as [(added & Hh & _) Hq].
  exists added. split; [exact Hh|]. intros a Ha Hok. now destruct (Hq a Ha Hok).
Qed.

Lemma grounded_bind {A B} (okB : B -> Prop) (ok : A -> Prop) (c : M B) (k : B -> M A) :
  grounded okB c ->
  (forall b, (okB b /\ obeys anything anything (k b)) \/ grounded ok (k b)) ->
  grounded ok (bind c k).
Proof.
  intros Hc Hcase s r s' H. unfold bind in H.
  destruct (c s) as [[b|e|] s1] eqn:Ec; destruct (Hc _ _ _ Ec) as (d1 & Hd1 & Hw1).
  - destruct (Hcase b) as [[Hb Hk]|Hg].
    + destruct (Hk _ _ _ H) as [(d2 & Hd2 & _) _].
      exists (d1 ++ d2). split; [now rewrite Hd2, Hd1, app_assoc|].
      intros a Ha Hok. apply Exists_app. left. now apply (Hw1 b).
    + destruct (Hg _ _ _ H) as (d2 & Hd2 & Hw2).
      exists (d1 ++ d2). split; [now rewrite Hd2, Hd1, app_assoc|].
      intros a Ha Hok. apply Exists_app. right. now apply (Hw2 a).
  - injection H as <- <-. exists d1. split; [exact Hd1 | discriminate].
  - injection H as <- <-. exists d1. split; [exact Hd1 | discriminate].
Qed.

Lemma grounded_after {A B} (Q : B -> Prop) (ok : A -> Prop) (c : M B) (k : B -> M A) :
  obeys anything Q c -> (forall b, grounded ok (k b)) -> grounded ok (bind c k).
Proof.
  intros Hc Hk. eapply (grounded_bind (fun _ => False)).
  - intros s r s' H. destruct (Hc s r s' H) as [(added & Hh & _) _].
    exists added. split; [exact Hh | contradiction].
  - intros b. right. apply Hk.
Qed.

Lemma grounded_try_except {A} (ok : A -> Prop) (c : M A) handler :
  grounded ok c ->
  (forall e h, handler e = Some h -> grounded ok h) ->
  grounded ok (try_except c handler).
Proof.
  intros Hc Hh s r s' H. unfold try_except in H.
  destruct (c s) as [[a|e|] s1] eqn:Ec.
  - injection H as <- <-. eapply Hc, Ec.
  - destruct (handler e) as [h|] eqn:Eh.
    + destruct (Hc _ _ _ Ec) as (d1 & Hd1 & _).
      destruct (Hh e h Eh _ _ _ H) as (d2 & Hd2 & Hw2).
      exists (d1 ++ d2). split; [now rewrite Hd2, Hd1, app_assoc|].
      intros a Ha Hok. apply Exists_app. right. now apply (Hw2 a).
    + injection H as <- <-. eapply Hc, Ec.
  - injection H as <- <-. eapply Hc, Ec.
Qed.

Ltac never := apply grounded_never; fp_auto.
Ltac after := eapply (grounded_after anything); [fp_auto | intros ?].
Ltac handlers :=
  let e := fresh "e" in
  let h := fresh "h" in
  let Hh := fresh "Hh" in
  intros e h Hh; destruct e; try discriminate Hh; injection Hh as <-; never.

Section Grounded.
Context (W : World).

Lemma subprocess_run_grounded argv :
  grounded (fun p => returncode p = 0%Z) (subprocess_run W argv).
Proof.
  intros s r s' [= <- <-]. eexists. split; [reflexivity|].
  intros p Hp Hrc. constructor. destruct (run W (hist s) argv); [|discriminate].
  injection Hp as ->. exact Hrc.
Qed.

Lemma shutil_copy_grounded src dst :
  grounded anything (shutil_copy W src dst).
Proof.
  intros s r s' [= <- <-]. eexists. split; [reflexivity|].
  intros u Hu _. constructor. now destruct (copy W (hist s) src dst).
Qed.

(** A command, then the result by its exit code. *)
Lemma command_then_result_grounded argv (k : CompletedProcess -> M FlashResult) :
  (forall p, returncode p = 0%Z -> obeys anything anything (k p)) ->
  (forall p, returncode p <> 0%Z -> grounded (fun fr => fr_success fr = true) (k p)) ->
  grounded (fun fr => fr_success fr = true) (bind (subprocess_run W argv) k).
Proof.
  intros H0 H1. eapply grounded_bind; [apply subprocess_run_grounded|].
  intros p. destruct (Z.eq_dec (returncode p) 0%Z) as [E|E]; [left|right]; auto.
Qed.

Lemma run_once_grounded method start timeout argv m1 m2 m3 :
  grounded (fun fr => fr_success fr = true)
    (run_once W method start timeout argv m1 m2 m3).
Proof.
  unfold run_once. apply grounded_try_except; [|handlers].
  apply command_then_result_grounded; intros p Hp.
  - fp_auto.
  - apply Z.eqb_neq in Hp. rewrite Hp. never.
Qed.

Lemma can_attempts_grounded atts max start timeout argv last_error :
  grounded (fun r => match r with inl fr => fr_success fr = true | inr _ => False end)
    (can_attempts W atts max start timeout argv last_error).
Proof.
  revert last_error. induction atts as [|attempt rest IH]; intros last_error;
    cbn [can_attempts]; [never|].
  eapply (grounded_bind (fun a => match a with Returned _ => True | _ => False end)).
  - unfold can_attempt. apply grounded_try_except; [|handlers].
    eapply grounded_bind; [apply subprocess_run_grounded|].
    intros p. destruct (returncode p =? 0)%Z eqn:E.
    + left. split; [now apply Z.eqb_eq | fp_auto].
    + right. never.
  - intros [fr|e|e]; [left; split; [exact I | fp_auto] | right; never |].
    right. after. apply IH.
Qed.

Lemma execute_flash_grounded fuel entry device_path firmware_path config timeout :
  grounded (fun fr => fr_success fr = true)
    (execute_flash W fuel entry device_path firmware_path config timeout).
Proof.
  unfold execute_flash. destruct (flash_command entry) as [c|]; [|never].
  case_decide.
  { unfold flash_katapult. after. after.
    destruct (negb _); [never|].
    apply grounded_try_except; [|handlers].
    eapply (grounded_after anything);
      [unfold _get_klippy_env_python; fp_auto | intros python].
    apply command_then_result_grounded; intros p Hp.
    - fp_auto.
    - apply Z.eqb_neq in Hp. rewrite Hp. never. }
  case_decide.
  { destruct (is_can_device entry); [never|]. unfold flash_make. after.
    apply run_once_grounded. }
  case_decide.
  { unfold flash_sdcard. after. case_decide; [never|]. after.
    destruct (negb _); [never | apply run_once_grounded]. }
  case_decide.
  { unfold flash_uf2. after. after.
    eapply (grounded_after anything).
    { eapply obeys_weaken; [| |apply wait_uf2_mount_quiet]; [easy | eauto]. }
    intros [m|]; [|never]. after.
    destruct (negb _); [never|].
    apply grounded_try_except; [|handlers].
    eapply grounded_bind; [apply shutil_copy_grounded|].
    intros u. left. split; [exact I | fp_auto]. }
  case_decide; [|never].
  destruct (negb (is_can_device entry)); [never|].
  case_decide; [never|]. unfold flash_katapult_can. after. after.
  destruct (negb _); [never|].
  eapply grounded_bind; [apply can_attempts_grounded|].
  intros [fr|e]; [|right; never].
  destruct (fr_success fr) eqn:E.
  - left. split; [reflexivity | fp_auto].
  - right. apply grounded_never. apply obeys_ret. congruence.
Qed.

End Grounded.

(** X16.  [execute_flash] never reports a success that nothing stands
    behind: when the result is a success, a command that exited with 0 or
    a copy that raised nothing is among the events of the call. *)
Theorem execute_flash_success_is_grounded (W : World) (fuel : nat) (entry : DeviceEntry)
    (device_path firmware_path : string) (config : GlobalConfig) (timeout : Z)
    (s : State) (fr : FlashResult) (s' : State) :
  execute_flash W fuel entry device_path firmware_path config timeout s = (Ok fr, s') ->
  fr_success fr = true ->
  exists added,
    hist s' = hist s ++ added /\ Exists transfer_worked added.
Proof.
  intros H Hs.
  destruct (execute_flash_grounded W fuel entry device_path firmware_path config timeout
              s (Ok fr) s' H) as (added & Hh & Hw).
  exists added. split; [exact Hh|]. now apply (Hw fr).
Qed.

Lemma execute_flash_success_is_grounded_witness :
  let W := scripted_world [exits 1 ""; exits 0 ""] in
  let entry := can_entry "48ca7afe7a44" "can" "katapult_can" in
  let run := execute_flash W 40 entry "" "out/klipper.bin" sample_config
               TIMEOUT_CAN_FLASH start_state in
  exists fr,
    fst run = Ok fr
    /\ fr_success fr = true
    /\ exists added,
         hist (snd run) = hist start_state ++ added /\ Exists transfer_worked added.
Proof.
  intros W entry run.
  pose (fr := match fst run with Ok fr => fr | _ => flash_failure "" 0 "" end).
  assert (E : run = (Ok fr, snd run)).
  { rewrite (surjective_pairing run) at 1. f_equal; vm_compute; reflexivity. }
  exists fr. split; [now rewrite E|].
  assert (Hs : fr_success fr = true) by (vm_compute; reflexivity).
  split; [exact Hs|].
  exact (execute_flash_success_is_grounded W 40 entry "" "out/klipper.bin" sample_config
           TIMEOUT_CAN_FLASH start_state fr (snd run) E Hs).
Defined.

(* ===================================================================== *)
(** * One device at a time *)
(* ===================================================================== *)

Lemma returns_ret {A} (Q : A -> Prop) a : Q a -> returns Q (ret a).
Proof. intros Hq s x s' [= <- <-]. exact Hq. Qed.

Lemma returns_raise {A} (Q : A -> Prop) e : returns Q (raise e).
Proof. intros s x s' H. discriminate. Qed.

Lemma returns_anything {A} (c : M A) : returns anything c.
Proof. easy. Qed.

Lemma returns_bind {A B} (R : B -> Prop) (Q : A -> Prop) (c : M B) (k : B -> M A) :
  returns R c -> (forall b, R b -> returns Q (k b)) -> returns Q (bind c k).
Proof.
  intros Hc Hk s a s' H. unfold bind in H.
  destruct (c s) as [[b|e|] s1] eqn:Ec; try discriminate.
  eapply Hk; [eapply Hc, Ec | exact H].
Qed.

Lemma same_others_refl idx st : same_others idx st st.
Proof. split; reflexivity. Qed.

Lemma same_others_update idx f st0 st :
  same_others idx st0 st -> same_others idx st0 (update_result idx f st).
Proof.
  intros [Hl Ho]. split; cbn [update_result results].
  - now rewrite length_alter.
  - intros j Hj. rewrite list_lookup_alter_ne by congruence. now apply Ho.
Qed.

Lemma same_others_used_path idx p st0 st :
  same_others idx st0 st -> same_others idx st0 (with_used_path p st).
Proof. easy. Qed.

Lemma same_others_preflight idx k v st0 st :
  same_others idx st0 st -> same_others idx st0 (with_preflight k v st).
Proof. easy. Qed.

Lemma same_others_can_preflight idx k v st0 st :
  same_others idx st0 st -> same_others idx st0 (with_can_preflight k v st).
Proof. easy. Qed.

Lemma same_others_usb_devices idx d st0 st :
  same_others idx st0 st -> same_others idx st0 (with_usb_devices d st).
Proof. easy. Qed.

Ltac same :=
  repeat first [ assumption
               | apply same_others_refl
               | apply same_others_update
               | apply same_others_used_path
               | apply same_others_preflight
               | apply same_others_can_preflight
               | apply same_others_usb_devices ].

Ltac rt_step :=
  match goal with
  | |- returns _ (ret _) => apply returns_ret; same
  | |- returns _ (raise _) => apply returns_raise
  | |- returns _ (bind _ _) =>
      eapply (returns_bind anything); [apply returns_anything | intros ? _]
  | |- returns _ (if ?b then _ else _) => destruct b
  | |- returns _ (match ?x with _ => _ end) => destruct x
  | |- returns _ (let '(_, _) := ?x in _) => destruct x
  end.

Ltac rt_auto := repeat rt_step.

Section Isolation.
Context (W : World)
        (verify_can : option string -> string -> string -> M (bool * option string))
        (preflight_can : string -> M (bool * string))
        (config_issue : DeviceEntry -> option (string * string))
        (preflight : string -> string -> option string -> M bool)
        (extract_mcu : string -> option string)
        (config : GlobalConfig) (temp_dir : string).

Lemma cached_preflight_same idx entry st0 st :
  same_others idx st0 st ->
  returns (fun r => same_others idx st0 (snd r))
    (cached_preflight preflight config entry st).
Proof.
  intros Hs. unfold cached_preflight.
  destruct (preflight_cache st !! flash_command entry); rt_auto.
Qed.

Lemma flash_all_can_same fuel idx flash_idx flash_total entry st :
  returns (same_others idx st)
    (flash_all_can W verify_can preflight_can config_issue preflight config temp_dir
       fuel idx flash_idx flash_total entry st).
Proof.
  unfold flash_all_can.
  eapply (returns_bind (fun pre => match pre with
                                   | inl st' | inr st' => same_others idx st st'
                                   end)).
  { destruct (can_preflight_cache st !! _) as [[|]|]; rt_auto. }
  intros [st'|st'] Hs; [rt_auto|].
  destruct (config_issue entry) as [[error_type detail]|]; [rt_auto|].
  eapply returns_bind; [apply (cached_preflight_same idx entry st st' Hs)|].
  intros [ok st''] Hs'. cbn [snd] in Hs'.
  destruct (negb ok); rt_auto.
Qed.

Lemma flash_all_usb_found_same fuel idx flash_idx flash_total entry usb_device st :
  returns (same_others idx st)
    (flash_all_usb_found W config_issue preflight extract_mcu config temp_dir
       fuel idx flash_idx flash_total entry usb_device st).
Proof.
  unfold flash_all_usb_found.
  eapply (returns_bind anything); [apply returns_anything|]. intros real_path _.
  case_decide; [rt_auto|].
  destruct (match extract_mcu (filename usb_device) with
            | Some m => _
            | None => None
            end) as [m|]; [rt_auto|].
  destruct (config_issue entry) as [[error_type detail]|]; [rt_auto|].
  eapply returns_bind.
  { apply (cached_preflight_same idx entry st (with_used_path real_path st)). same. }
  intros [ok st'] Hs. cbn [snd] in Hs.
  destruct (negb ok); [rt_auto|].
  eapply (returns_bind (fun boot => match boot with
                                    | inl st'' => same_others idx st st''
                                    | inr (_, st'') => same_others idx st st''
                                    end)).
  { case_decide; rt_auto. }
  intros [st''|[boot_device_path st'']] Hs'; [rt_auto|].
  eapply (returns_bind anything); [apply returns_anything|]. intros flash_result _.
  destruct (fr_success flash_result); [|rt_auto].
  eapply (returns_bind anything); [apply returns_anything|]. intros [[verified p] reason] _.
  eapply (returns_bind (same_others idx st)).
  { destruct verified; rt_auto. }
  intros st3 Hs3. rt_auto.
Qed.

Lemma flash_all_device_same fuel idx flash_total ambiguous_keys entry st :
  returns (same_others idx st)
    (flash_all_device W verify_can preflight_can config_issue preflight extract_mcu
       config temp_dir fuel idx flash_total ambiguous_keys entry st).
Proof.
  unfold flash_all_device.
  eapply (returns_bind anything); [apply returns_anything|]. intros _ _.
  destruct (is_can_device entry); [apply flash_all_can_same|].
  unfold flash_all_usb. case_decide; [rt_auto|].
  destruct (serial_pattern entry) as [pattern|]; [|rt_auto].
  destruct (match_device pattern (usb_devices st)); [|rt_auto].
  apply flash_all_usb_found_same.
Qed.

(** The loop from position [idx] on leaves the results before [idx]
    alone. *)
Lemma flash_all_loop_before fuel idx flash_total ambiguous_keys entries st :
  returns (fun st' => length (results st') = length (results st)
                      /\ forall j, (j < idx)%nat -> results st' !! j = results st !! j)
    (flash_all_loop W verify_can preflight_can config_issue preflight extract_mcu
       config temp_dir fuel idx flash_total ambiguous_keys entries st).
Proof.
  revert idx st. induction entries as [|entry entries IH]; intros idx st;
    cbn [flash_all_loop].
  - apply returns_ret. split; reflexivity.
  - eapply returns_bind; [apply flash_all_device_same|].
    intros st1 [Hl1 Ho1] s st2 s' H.
    destruct (IH (S idx) st1 s st2 s' H) as [Hl2 Ho2].
    split; [congruence|]. intros j Hj.
    rewrite Ho2 by lia. apply Ho1. lia.
Qed.

(** The loop over [entries] from position [idx] on leaves the results
    from position [idx + length entries] on alone. *)
Lemma flash_all_loop_after fuel idx flash_total ambiguous_keys entries st :
  returns (fun st' => forall j, (idx + length entries <= j)%nat ->
                                results st' !! j = results st !! j)
    (flash_all_loop W verify_can preflight_can config_issue preflight extract_mcu
       config temp_dir fuel idx flash_total ambiguous_keys entries st).
Proof.
  revert idx st. induction entries as [|entry entries IH]; intros idx st;
    cbn [flash_all_loop].
  - apply returns_ret. reflexivity.
  - eapply returns_bind; [apply flash_all_device_same|].
    intros st1 [Hl1 Ho1] s st2 s' H j Hj. cbn [length] in Hj.
    rewrite (IH (S idx) st1 s st2 s' H) by lia. apply Ho1. lia.
Qed.

End Isolation.

(** X19.  One pass of the batch loop that returns touches the result of
    its own device only: whatever the device and whichever branch the pass
    took, every other result is as it was, and no result is added or
    dropped.  A pass that raises ends the loop with the exception, and the
    batch state is not handed on; nothing is said about such a pass. *)
Theorem flash_all_device_isolated (W : World)
    (verify_can : option string -> string -> string -> M (bool * option string))
    (preflight_can : string -> M (bool * string))
    (config_issue : DeviceEntry -> option (string * string))
    (preflight : string -> string -> option string -> M bool)
    (extract_mcu : string -> option string)
    (config : GlobalConfig) (temp_dir : string) (fuel idx flash_total : nat)
    (ambiguous_keys : gset string) (entry : DeviceEntry) (st : Batch) (s : State)
    (st' : Batch) (s' : State) :
  flash_all_device W verify_can preflight_can config_issue preflight extract_mcu
    config temp_dir fuel idx flash_total ambiguous_keys entry st s = (Ok st', s') ->
  length (results st') = length (results st)
  /\ forall j, j <> idx -> results st' !! j = results st !! j.
Proof.
  intros H.
  exact (flash_all_device_same W verify_can preflight_can config_issue preflight
           extract_mcu config temp_dir fuel idx flash_total ambiguous_keys entry st
           s st' s' H).
Qed.

Lemma flash_all_device_isolated_witness :
  let W := quiet_world ["usb-Klipper_rp2040_30AB-if00"] 0 in
  let entry := usb_entry "usb-Klipper_rp2040_30AB*" "none" "make_flash" in
  let other := can_entry "48ca7afe7a44" "can" "katapult_can" in
  let st := first_batch [{| path := "/dev/serial/by-id/usb-Klipper_rp2040_30AB-if00";
                            filename := "usb-Klipper_rp2040_30AB-if00" |}]
              [fresh_result other; fresh_result entry] in
  let run := flash_all_device W can_verified can_interface_ready no_config_issue
               preflight_passes mcu_unknown sample_config "/tmp/fw" 40 1 2 ∅ entry st
               start_state in
  exists st',
    fst run = Ok st'
    /\ (verify_ok <$> results st' !! 1%nat) = Some true
    /\ length (results st') = length (results st)
    /\ forall j, j <> 1%nat -> results st' !! j = results st !! j.
Proof.
  intros W entry other st run.
  pose (st' := match fst run with Ok b => b | _ => st end).
  assert (E : run = (Ok st', snd run)).
  { rewrite (surjective_pairing run) at 1. f_equal; vm_compute; reflexivity. }
  exists st'. split; [now rewrite E|]. split; [vm_compute; reflexivity|].
  exact (flash_all_device_isolated W can_verified can_interface_ready no_config_issue
           preflight_passes mcu_unknown sample_config "/tmp/fw" 40 1 2 ∅ entry st
           start_state st' (snd run) E).
Defined.

(** X20.  The ambiguity is still on the result when the batch is over:
    for a USB registration whose pattern matches more than one endpoint of
    the scan that opens the guarded scope, the result that the batch ends
    with is the one it started with, with the note of the ambiguity as its
    error message; no later device overwrites it. *)
Theorem flash_all_ambiguity_is_reported (W : World)
    (verify_can : option string -> string -> string -> M (bool * option string))
    (preflight_can : string -> M (bool * string))
    (config_issue : DeviceEntry -> option (string * string))
    (preflight : string -> string -> option string -> M bool)
    (extract_mcu : string -> option string)
    (config : GlobalConfig) (temp_dir : string) (fuel : nat)
    (before : list DeviceEntry) (entry : DeviceEntry) (after : list DeviceEntry)
    (built : list BatchDeviceResult) (usb : list DiscoveredDevice)
    (s s0 : State) (st_final : Batch) (s' : State) :
  is_can_device entry = false ->
  ambiguous entry usb ->
  scan_serial_devices W s = (Ok usb, s0) ->
  cmd_flash_all_guarded W verify_can preflight_can config_issue preflight extract_mcu
    config temp_dir fuel (before ++ entry :: after) built s = (Ok st_final, s') ->
  length (results st_final) = length built
  /\ results st_final !! length before
     = set_error_message AMBIGUOUS_PATTERN <$> built !! length before.
Proof.
  intros Hcan Hamb Hscan H.
  unfold cmd_flash_all_guarded in H. unfold bind at 1 in H. rewrite Hscan in H.
  set (entries := before ++ entry :: after) in *.
  set (ambiguous_keys := find_ambiguous_keys entries usb ∅) in *.
  fold (first_batch usb built) in H.
  assert (Hkey : key entry ∈ ambiguous_keys).
  { apply find_ambiguous_keys_complete; [|exact Hamb].
    apply elem_of_app. right. apply elem_of_cons. now left. }
  unfold entries at 2 in H. rewrite flash_all_loop_app in H. unfold bind at 1 in H.
  destruct (flash_all_loop _ _ _ _ _ _ _ _ fuel 0 _ _ before _ s0) as [[st1|e|] s1] eqn:E1;
    try discriminate.
  pose proof (flash_all_loop_before W verify_can preflight_can config_issue preflight
                extract_mcu config temp_dir fuel 0 (length entries) ambiguous_keys before
                (first_batch usb built) s0 st1 s1 E1) as [Hl1 _].
  pose proof (flash_all_loop_after W verify_can preflight_can config_issue preflight
                extract_mcu config temp_dir fuel 0 (length entries) ambiguous_keys before
                (first_batch usb built) s0 st1 s1 E1) as Ha1.
  cbn [Nat.add flash_all_loop] in H. unfold bind at 1 in H.
  rewrite (flash_all_device_ambiguous W verify_can preflight_can config_issue preflight
             extract_mcu config temp_dir fuel (length before) (length entries)
             ambiguous_keys entry st1 s1 Hcan Hkey) in H.
  pose proof (flash_all_loop_before W verify_can preflight_can config_issue preflight
                extract_mcu config temp_dir fuel (S (length before)) (length entries)
                ambiguous_keys after _ _ st_final s' H) as [Hl2 Hb2].
  cbn [update_result results] in Hl2, Hb2. rewrite length_alter in Hl2.
  split; [now rewrite Hl2, Hl1|].
  rewrite Hb2 by lia. rewrite list_lookup_alter, decide_True by reflexivity.
  rewrite (Ha1 (length before)) by (cbn; lia). reflexivity.
Qed.

Lemma flash_all_ambiguity_is_reported_witness :
  let W := quiet_world ["usb-Klipper_rp2040_30AB-if00"; "usb-katapult_rp2040_30AB-if00";
                        "usb-Klipper_stm32f446xx_11-if00"] 0 in
  let ambiguous_one := usb_entry "usb-Klipper_rp2040_30AB*" "none" "make_flash" in
  let last :=
    {| key := "mainboard"; name := "Mainboard"; mcu := "stm32f446";
       serial_pattern := Some "usb-Klipper_stm32f446xx_11*";
       flash_command := Some "make_flash"; bootloader_method := Some "none";
       canbus_uuid := None; canbus_interface := None; uf2_mount_path := None;
       sdcard_board := None; role := None |} in
  let built := [fresh_result ambiguous_one; fresh_result last] in
  let run :=
    cmd_flash_all_guarded W can_verified can_interface_ready no_config_issue
      preflight_passes mcu_unknown sample_config "/tmp/fw" 40
      ([] ++ ambiguous_one :: [last]) built start_state in
  exists st,
    fst run = Ok st
    /\ (verify_ok <$> results st !! 1%nat) = Some true
    /\ length (results st) = length built
    /\ results st !! 0%nat = set_error_message AMBIGUOUS_PATTERN <$> built !! 0%nat.
Proof.
  intros W ambiguous_one last built run.
  pose (scan := scan_serial_devices W start_state).
  pose (usb := match fst scan with Ok u => u | _ => [] end).
  assert (Hscan : scan = (Ok usb, snd scan)).
  { rewrite (surjective_pairing scan) at 1. f_equal; vm_compute; reflexivity. }
  pose (st := match fst run with Ok b => b | _ => first_batch [] [] end).
  assert (E : run = (Ok st, snd run)).
  { rewrite (surjective_pairing run) at 1. f_equal; vm_compute; reflexivity. }
  assert (Hamb : ambiguous ambiguous_one usb).
  { exists "usb-Klipper_rp2040_30AB*". split; [reflexivity|]. vm_compute. lia. }
  exists st. split; [now rewrite E|]. split; [vm_compute; reflexivity|].
  exact (flash_all_ambiguity_is_reported W can_verified can_interface_ready
           no_config_issue preflight_passes mcu_unknown sample_config "/tmp/fw" 40
           [] ambiguous_one [last] built usb start_state (snd scan) st (snd run)
           eq_refl Hamb Hscan E).
Defined.

(* ===================================================================== *)
(** * When the registry is written *)
(* ===================================================================== *)

Ltac nr_handler :=
  let e := fresh "e" in
  let h := fresh "h" in
  let Hh := fresh "Hh" in
  intros e h Hh;
  first [ destruct e; try discriminate Hh; injection Hh as <-
        | match type of Hh with
          | (if ?b then _ else _) = _ => destruct b; try discriminate Hh; injection Hh as <-
          end ].

Ltac nr_step :=
  match goal with
  | |- obeys _ _ (try_except _ _) => apply obeys_try_except; [ | nr_handler ]
  | _ => fp_step
  end.

Ltac nr_auto := repeat nr_step.

Lemma obeys_new_service_state P st : obeys P anything (new_service_state st).
Proof.
  intros s r s' [= <- <-]. split; [|easy].
  exists []. split; [cbn; now rewrite app_nil_r | constructor].
Qed.

Lemma obeys_modify_service_state P ref f : obeys P anything (modify_service_state ref f).
Proof.
  intros s r s' [= <- <-]. split; [|easy].
  exists []. split; [cbn; now rewrite app_nil_r | constructor].
Qed.

Lemma obeys_read_service_state P ref : obeys P anything (read_service_state ref).
Proof.
  intros s r s' [= <- <-]. split; [|easy].
  exists []. split; [cbn; now rewrite app_nil_r | constructor].
Qed.

Section RegistryFacts.
Context (W : World)
        (verify_can : option string -> string -> string -> M (bool * option string)).
Hypothesis verify_can_footprint :
  forall uuid interface katapult,
    obeys not_registry anything (verify_can uuid interface katapult).

Lemma poll_and_settle_nr fuel device_path entry stagger how :
  obeys not_registry anything (poll_and_settle W fuel device_path entry stagger how).
Proof.
  unfold poll_and_settle. eapply (obeys_bind _ anything).
  - eapply obeys_weaken; [| |apply poll_observes]; [|eauto]. intros []; easy.
  - intros [p|] _; nr_auto.
Qed.

Lemma dispatch_nr fuel method handler device_path entry klipper katapult stagger out :
  dispatch W fuel method = Some handler ->
  obeys not_registry anything (handler device_path entry klipper katapult stagger out).
Proof.
  unfold dispatch. intros H.
  repeat (case_decide; [injection H as <-|]); [..|discriminate].
  - unfold _enter_usb, _get_klippy_env_python.
    eapply (obeys_bind _ anything); [nr_auto|]. intros python _.
    eapply (obeys_bind _ anything); [nr_auto|]. intros [r|] _; [nr_auto|].
    apply poll_and_settle_nr.
  - unfold _enter_serial, _get_moonraker_env_python, discover_python_path.
    eapply (obeys_bind _ anything); [nr_auto|]. intros present _.
    destruct (negb present); [nr_auto|].
    eapply (obeys_bind _ anything); [nr_auto|]. intros python _.
    eapply (obeys_bind _ anything); [nr_auto|]. intros [r|] _; [nr_auto|].
    apply poll_and_settle_nr.
  - unfold _enter_manual.
    eapply (obeys_bind _ anything); [nr_auto|]. intros _ _.
    eapply (obeys_bind _ anything); [nr_auto|]. intros [r|] _; [nr_auto|].
    case_decide; [nr_auto | apply poll_and_settle_nr].
  - unfold _enter_none. nr_auto.
  - unfold _enter_can. nr_auto.
Qed.

Lemma enter_bootloader_nr fuel device_path entry klipper katapult stagger out :
  obeys not_registry anything
    (enter_bootloader W fuel device_path entry klipper katapult stagger out).
Proof.
  unfold enter_bootloader.
  eapply (obeys_bind _ anything); [nr_auto|]. intros start _.
  destruct (dispatch W fuel _) as [handler|] eqn:Ed; [|nr_auto].
  pose proof (dispatch_nr fuel _ handler device_path entry klipper katapult stagger out Ed)
    as Hh.
  eapply (obeys_bind _ anything); [exact Hh|]. intros result _.
  eapply (obeys_bind _ anything); [|intros; nr_auto].
  destruct (_ && _); [|nr_auto].
  eapply (obeys_bind _ anything); [nr_auto|]. intros [|] _; [exact Hh | nr_auto].
Qed.

Lemma run_once_nr method start timeout argv m1 m2 m3 :
  obeys not_registry anything (run_once W method start timeout argv m1 m2 m3).
Proof. unfold run_once. nr_auto. Qed.

Lemma first_dir_nr paths : obeys not_registry anything (first_dir W paths).
Proof. induction paths as [|p paths IH]; cbn [first_dir]; nr_auto. exact IH. Qed.

Lemma wait_uf2_mount_nr fuel mount user deadline :
  obeys not_registry anything (wait_uf2_mount W fuel mount user deadline).
Proof.
  induction fuel as [|fuel IH]; cbn [wait_uf2_mount]; [nr_auto|].
  eapply (obeys_bind _ anything); [nr_auto|]. intros t _.
  destruct (t <? deadline)%Z; [|nr_auto].
  eapply (obeys_bind _ anything).
  { unfold _find_uf2_mount. eapply (obeys_bind _ anything).
    - destruct mount; [case_decide|]; nr_auto.
    - intros [p|] _; [nr_auto | apply first_dir_nr]. }
  intros [m|] _; [nr_auto|].
  eapply (obeys_bind _ anything); [nr_auto|]. intros _ _. exact IH.
Qed.

Lemma can_attempts_nr atts max start timeout argv last_error :
  obeys not_registry anything (can_attempts W atts max start timeout argv last_error).
Proof.
  revert last_error. induction atts as [|attempt rest IH]; intros last_error;
    cbn [can_attempts]; [nr_auto|].
  eapply (obeys_bind _ anything); [unfold can_attempt; nr_auto|].
  intros [fr|e|e] _; [nr_auto..|].
  eapply (obeys_bind _ anything); [nr_auto|]. intros _ _. apply IH.
Qed.

Lemma execute_flash_nr fuel entry device_path firmware_path config timeout :
  obeys not_registry anything
    (execute_flash W fuel entry device_path firmware_path config timeout).
Proof.
  unfold execute_flash. destruct (flash_command entry) as [c|]; [|nr_auto].
  case_decide; [unfold flash_katapult, _get_klippy_env_python; nr_auto|].
  case_decide.
  { destruct (is_can_device entry); [nr_auto|]. unfold flash_make.
    eapply (obeys_bind _ anything); [nr_auto|]. intros start _. apply run_once_nr. }
  case_decide.
  { unfold flash_sdcard.
    eapply (obeys_bind _ anything); [nr_auto|]. intros start _.
    case_decide; [nr_auto|].
    eapply (obeys_bind _ anything); [nr_auto|]. intros present _.
    destruct (negb present); [nr_auto | apply run_once_nr]. }
  case_decide.
  { unfold flash_uf2.
    eapply (obeys_bind _ anything); [nr_auto|]. intros start _.
    eapply (obeys_bind _ anything); [nr_auto|]. intros t0 _.
    eapply (obeys_bind _ anything); [apply wait_uf2_mount_nr|].
    intros [m|] _; nr_auto. }
  case_decide; [|nr_auto].
  destruct (negb (is_can_device entry)); [nr_auto|].
  case_decide; [nr_auto|]. unfold flash_katapult_can.
  eapply (obeys_bind _ anything); [nr_auto|]. intros start _.
  eapply (obeys_bind _ anything); [nr_auto|]. intros present _.
  destruct (negb present); [nr_auto|].
  eapply (obeys_bind _ anything); [apply can_attempts_nr|].
  intros [fr|e] _; nr_auto.
Qed.

Lemma wait_for_device_nr fuel pattern timeout interval out :
  obeys not_registry anything (wait_for_device W fuel pattern timeout interval out).
Proof.
  unfold wait_for_device.
  eapply (obeys_bind _ anything); [nr_auto|]. intros start _.
  eapply (obeys_bind _ anything); [nr_auto|]. intros _ _.
  eapply obeys_weaken; [| |apply poll_devices_messages]; [|eauto]. intros []; easy.
Qed.

(** The body of the guarded scope writes nothing to the registry, and
    the only code it returns is 1. *)
Lemma cmd_flash_guarded_nr fuel entry device_path firmware_path config :
  obeys not_registry
    (fun r => match r with inl code => code = 1%Z | inr _ => True end)
    (cmd_flash_guarded W verify_can fuel entry device_path firmware_path config).
Proof.
  unfold cmd_flash_guarded.
  eapply (obeys_bind _ (fun boot => match boot with
                                    | inl code => code = 1%Z
                                    | inr _ => True
                                    end)).
  { case_decide; [nr_auto|].
    eapply (obeys_bind _ anything); [nr_auto|]. intros _ _.
    eapply (obeys_bind _ anything); [apply enter_bootloader_nr|]. intros boot_result _.
    destruct (negb _); [nr_auto|].
    eapply (obeys_bind _ anything); [nr_auto|]. intros _ _. nr_auto. }
  intros [code|boot_device_path] Hb; [now apply obeys_ret|].
  eapply (obeys_bind _ anything); [nr_auto|]. intros _ _.
  eapply (obeys_bind _ anything); [apply execute_flash_nr|]. intros flash_result _.
  destruct (fr_success flash_result); [|nr_auto].
  destruct (is_can_device entry).
  - eapply (obeys_bind _ anything); [nr_auto|]. intros _ _.
    eapply (obeys_bind _ anything); [apply verify_can_footprint|].
    intros [verified reason] _. nr_auto.
  - eapply (obeys_bind _ anything); [nr_auto|]. intros _ _.
    eapply (obeys_bind _ anything); [apply wait_for_device_nr|].
    intros [[verified p] reason] _. nr_auto.
Qed.

Lemma klipper_service_stopped_nr {A} (Q : A -> Prop) timeout out (body : nat -> M A) :
  (forall ref, obeys not_registry Q (body ref)) ->
  obeys not_registry (fun r => Q (snd r)) (klipper_service_stopped W timeout out body).
Proof.
  intros Hbody. unfold klipper_service_stopped, _is_service_active.
  eapply (obeys_bind _ anything); [nr_auto|]. intros active _.
  eapply (obeys_bind _ anything); [apply obeys_new_service_state|]. intros ref _.
  eapply (obeys_bind _ anything); [unfold _stop_klipper; nr_auto|]. intros _ _.
  apply obeys_try_finally.
  - eapply obeys_bind; [apply Hbody|]. intros a Ha. now apply obeys_ret.
  - destruct (should_restart_service active); [|nr_auto].
    eapply (obeys_bind _ anything).
    + unfold _start_klipper, report_start_failure. nr_auto.
    + intros ok _. apply obeys_modify_service_state.
Qed.

Lemma cmd_flash_scope_nr fuel device_key entry device_path firmware_path config :
  obeys not_registry
    (fun r => match r with inl code => code = 1%Z | inr _ => True end)
    (cmd_flash_scope W verify_can fuel device_key entry device_path firmware_path config).
Proof.
  unfold cmd_flash_scope. apply obeys_try_except.
  - eapply obeys_bind.
    + apply (klipper_service_stopped_nr
               (fun r => match r with inl code => code = 1%Z | inr _ => True end)).
      intros ref. apply cmd_flash_guarded_nr.
    + intros [ref [code|flashed]] Hr; cbn [snd] in Hr; [now apply obeys_ret|].
      eapply (obeys_bind _ anything); [apply obeys_read_service_state|]. intros st _.
      nr_auto.
  - intros e h Hh. destruct (is_Exception e); [|discriminate]. injection Hh as <-.
    eapply (obeys_bind _ anything); [nr_auto|]. intros _ _. now apply obeys_ret.
Qed.

End RegistryFacts.

Lemma not_registry_no_update added k o :
  Forall not_registry added -> ERegistryUpdate k o ∉ added.
Proof.
  intros Hf Hin. rewrite Forall_forall in Hf. exact (Hf _ Hin).
Qed.

(** X21.  [cmd_flash] exits with 0 exactly when it has written the time of
    the flash to the registry, and the entry of the device that was
    flashed is the only one it ever writes to.  This holds whatever the
    CAN verification does, as long as it leaves the registry alone. *)
Theorem cmd_flash_exit_code_and_registry (W : World)
    (verify_can : option string -> string -> string -> M (bool * option string))
    (fuel : nat) (device_key : string) (entry : DeviceEntry)
    (device_path firmware_path : string) (config : GlobalConfig)
    (s : State) (r : Res Z) (s' : State) :
  (forall uuid interface katapult,
     obeys not_registry anything (verify_can uuid interface katapult)) ->
  cmd_flash_run W verify_can fuel device_key entry device_path firmware_path config s
  = (r, s') ->
  exists added,
    hist s' = hist s ++ added
    /\ (r = Ok 0%Z <-> ERegistryUpdate device_key None ∈ added)
    /\ (forall k o, ERegistryUpdate k o ∈ added -> k = device_key)
    /\ (forall code, r = Ok code -> code = 0%Z \/ code = 1%Z).
Proof.
  intros Hv H. unfold cmd_flash_run in H. unfold bind at 1 in H.
  unfold now at 1, ask in H. set (t0 := monotonic W (hist s)) in *.
  unfold bind at 1 in H.
  destruct (cmd_flash_scope W verify_can fuel device_key entry device_path firmware_path
              config (log s (EClock t0))) as [guarded s1] eqn:Es.
  destruct (cmd_flash_scope_nr W verify_can Hv fuel device_key entry device_path
              firmware_path config _ _ _ Es) as [(d1 & Hd1 & Hf1) Hq].
  cbn [log hist] in Hd1.
  assert (Hpre : forall d2, hist s ++ [EClock t0] ++ d1 ++ d2
                            = (hist s ++ [EClock t0]) ++ d1 ++ d2)
    by (intros; now rewrite <- app_assoc).
  assert (Hn1 : forall k o, ERegistryUpdate k o ∉ [EClock t0] ++ d1).
  { intros k o. apply not_registry_no_update. apply Forall_app. split; [|exact Hf1].
    repeat constructor. }
  destruct guarded as [[code|[flashed failed]]|e|].
  - (* a return from inside the try block *)
    specialize (Hq _ eq_refl). cbn in Hq. subst code. injection H as <- <-.
    exists ([EClock t0] ++ d1). split; [now rewrite Hd1, <- app_assoc|].
    split; [split; [discriminate | intros Hin; now apply Hn1 in Hin]|].
    split; [intros k o Hin; now apply Hn1 in Hin|].
    intros code [= <-]. now right.
  - (* the summary *)
    destruct flashed as [[[flash_result verified] device_path_new] error_reason].
    unfold cmd_flash_summary in H. unfold bind at 1 in H. unfold now at 1, ask in H.
    set (t1 := monotonic W (hist s1)) in *.
    destruct failed.
    { injection H as <- <-. exists ([EClock t0] ++ d1 ++ [EClock t1]).
      split; [cbn [log hist]; rewrite Hd1; now rewrite <- !app_assoc|].
      assert (Hn : forall k o, ERegistryUpdate k o ∉ [EClock t0] ++ d1 ++ [EClock t1]).
      { intros k o. apply not_registry_no_update.
        repeat (apply Forall_app; split); try exact Hf1; repeat constructor. }
      split; [split; [discriminate | intros Hin; now apply Hn in Hin]|].
      split; [intros k o Hin; now apply Hn in Hin|].
      intros code [= <-]. now right. }
    destruct (fr_success flash_result && verified) eqn:Eok.
    + (* the registry is written *)
      unfold bind at 1 in H. unfold registry_update_device at 1, ask in H.
      set (o := update_device W (hist (log s1 (EClock t1))) device_key) in *.
      assert (Hadded : forall rest,
                 Forall is_message rest ->
                 let added := [EClock t0] ++ d1 ++ [EClock t1]
                              ++ [ERegistryUpdate device_key o] ++ rest in
                 (forall k o', ERegistryUpdate k o' ∈ added -> k = device_key /\ o' = o)).
      { intros rest Hrest added k o' Hin. unfold added in Hin.
        rewrite !elem_of_app in Hin.
        destruct Hin as [Hin|[Hin|[Hin|[Hin|Hin]]]].
        - apply list_elem_of_singleton in Hin. discriminate.
        - now apply (not_registry_no_update _ _ _ Hf1) in Hin.
        - apply list_elem_of_singleton in Hin. discriminate.
        - apply list_elem_of_singleton in Hin. injection Hin as -> ->. now split.
        - rewrite Forall_forall in Hrest. now apply Hrest in Hin. }
      destruct o as [e|] eqn:Eo.
      * injection H as <- <-.
        exists ([EClock t0] ++ d1 ++ [EClock t1] ++ [ERegistryUpdate device_key (Some e)] ++ []).
        split; [cbn [log hist]; rewrite Hd1, app_nil_r; now rewrite <- !app_assoc|].
        specialize (Hadded [] ltac:(constructor)). cbn zeta in Hadded.
        split; [split; [discriminate|]|].
        { intros Hin. apply Hadded in Hin as [_ Hin]. discriminate. }
        split; [intros k o' Hin; now apply Hadded in Hin | discriminate].
      * unfold bind at 1 in H. unfold say at 1, emit in H.
        unfold bind at 1 in H.
        match type of H with
        | context [log (log (log s1 _) _) ?m] => set (said := m) in *
        end.
        destruct (truthy device_path_new); [|destruct (is_can_device entry)];
          unfold say, emit, ret in H; injection H as <- <-.
        -- eexists ([EClock t0] ++ d1 ++ [EClock t1]
                    ++ [ERegistryUpdate device_key None] ++ [said; _]).
           split; [cbn [log hist]; rewrite Hd1; now rewrite <- !app_assoc|].
           assert (Hm : Forall is_message [said; EOut "phase"
                          ["Verify"; "Device confirmed at: " +:+ show_opt device_path_new]])
             by (repeat constructor).
           specialize (Hadded _ Hm). cbn zeta in Hadded.
           split; [split; [intros _|reflexivity]|].
           { rewrite !elem_of_app. right. right. right. left.
             now apply list_elem_of_singleton. }
           split; [intros k o' Hin; now apply Hadded in Hin|]. intros code [= <-]. now left.
        -- eexists ([EClock t0] ++ d1 ++ [EClock t1]
                    ++ [ERegistryUpdate device_key None] ++ [said; _]).
           split; [cbn [log hist]; rewrite Hd1; now rewrite <- !app_assoc|].
           assert (Hm : Forall is_message [said; EOut "phase"
                          ["Verify"; "Device confirmed on CAN bus ["
                                     +:+ show_opt (canbus_uuid entry) +:+ "]"]])
             by (repeat constructor).
           specialize (Hadded _ Hm). cbn zeta in Hadded.
           split; [split; [intros _|reflexivity]|].
           { rewrite !elem_of_app. right. right. right. left.
             now apply list_elem_of_singleton. }
           split; [intros k o' Hin; now apply Hadded in Hin|]. intros code [= <-]. now left.
        -- eexists ([EClock t0] ++ d1 ++ [EClock t1]
                    ++ [ERegistryUpdate device_key None] ++ [said]).
           split; [cbn [log hist]; rewrite Hd1; now rewrite <- !app_assoc|].
           assert (Hm : Forall is_message [said]) by (repeat constructor).
           specialize (Hadded _ Hm). cbn zeta in Hadded.
           split; [split; [intros _|reflexivity]|].
           { rewrite !elem_of_app. right. right. right. left.
             now apply list_elem_of_singleton. }
           split; [intros k o' Hin; now apply Hadded in Hin|]. intros code [= <-]. now left.
    + (* a failure is reported *)
      assert (Hfail : exists rest,
                 r = Ok 1%Z /\ hist s' = hist s1 ++ [EClock t1] ++ rest
                 /\ Forall is_message rest).
      { destruct (fr_success flash_result && negb verified).
        - unfold bind at 1 in H. unfold say at 1, emit in H. unfold bind at 1 in H.
          destruct (is_can_device entry); [|destruct (truthy device_path_new)];
            unfold say, emit, ret in H; injection H as <- <-;
            (eexists [_; _]; split; [reflexivity|];
             split; [cbn [log hist]; now rewrite <- !app_assoc | repeat constructor]).
        - unfold bind, say, emit, ret in H. injection H as <- <-.
          eexists [_]. split; [reflexivity|].
          split; [cbn [log hist]; now rewrite <- !app_assoc | repeat constructor]. }
      destruct Hfail as (rest & -> & Hh & Hm).
      exists ([EClock t0] ++ d1 ++ [EClock t1] ++ rest).
      split; [rewrite Hh, Hd1; now rewrite <- !app_assoc|].
      assert (Hn : forall k o, ERegistryUpdate k o ∉ [EClock t0] ++ d1 ++ [EClock t1] ++ rest).
      { intros k o Hin. rewrite !elem_of_app in Hin.
        destruct Hin as [Hin|[Hin|[Hin|Hin]]].
        - apply list_elem_of_singleton in Hin. discriminate.
        - now apply (not_registry_no_update _ _ _ Hf1) in Hin.
        - apply list_elem_of_singleton in Hin. discriminate.
        - rewrite Forall_forall in Hm. now apply Hm in Hin. }
      split; [split; [discriminate | intros Hin; now apply Hn in Hin]|].
      split; [intros k o Hin; now apply Hn in Hin|].
      intros code [= <-]. now right.
  - injection H as <- <-. exists ([EClock t0] ++ d1).
    split; [now rewrite Hd1, <- app_assoc|].
    split; [split; [discriminate | intros Hin; now apply Hn1 in Hin]|].
    split; [intros k o Hin; now apply Hn1 in Hin | discriminate].
  - injection H as <- <-. exists ([EClock t0] ++ d1).
    split; [now rewrite Hd1, <- app_assoc|].
    split; [split; [discriminate | intros Hin; now apply Hn1 in Hin]|].
    split; [intros k o Hin; now apply Hn1 in Hin | discriminate].
Qed.

Lemma cmd_flash_exit_code_and_registry_witness :
  let W := service_world ["usb-Klipper_rp2040_30AB-if00"] 0 in
  let entry := usb_entry "usb-Klipper_rp2040_30AB*" "none" "make_flash" in
  let run := cmd_flash_run W can_verified 40 "board" entry
               "/dev/serial/by-id/usb-Klipper_rp2040_30AB-if00" "out/klipper.bin"
               sample_config start_state in
  fst run = Ok 0%Z
  /\ exists added,
       hist (snd run) = hist start_state ++ added
       /\ (fst run = Ok 0%Z <-> ERegistryUpdate "board" None ∈ added)
       /\ (forall k o, ERegistryUpdate k o ∈ added -> k = "board")
       /\ (forall code, fst run = Ok code -> code = 0%Z \/ code = 1%Z).
Proof.
  intros W entry run. split; [vm_compute; reflexivity|].
  refine (cmd_flash_exit_code_and_registry W can_verified 40 "board" entry
            "/dev/serial/by-id/usb-Klipper_rp2040_30AB-if00" "out/klipper.bin"
            sample_config start_state (fst run) (snd run) _ (surjective_pairing run)).
  intros uuid interface katapult. unfold can_verified. now apply obeys_ret.
Defined.

(* ===================================================================== *)
(** * Polls come to an end *)
(* ===================================================================== *)

Section Termination.
Context (W : World).

Lemma scan_serial_devices_grows s :
  fst (scan_serial_devices W s) <> Diverge
  /\ (length (hist s) <= length (hist (snd (scan_serial_devices W s))))%nat.
Proof.
  split.
  - unfold scan_serial_devices, bind, is_dir, os_listdir, ask, ret, raise.
    destruct (negb _); [discriminate|]. cbn. now destruct (listdir W _ _).
  - destruct (scan_serial_devices W s) as [r s'] eqn:E.
    destruct (scan_serial_devices_observes W s r s' E) as [(added & Hh & _) _].
    cbn [snd]. rewrite Hh, length_app. lia.
Qed.

Lemma inspect_devices_grows pattern out devices found last s :
  fst (inspect_devices pattern out devices found last s) <> Diverge
  /\ (length (hist s)
      <= length (hist (snd (inspect_devices pattern out devices found last s))))%nat.
Proof.
  split.
  - revert found last. induction devices as [|d devices IH]; intros found last;
      cbn [inspect_devices]; [discriminate|].
    destruct pattern as [p|]; [|discriminate].
    destruct (any_variant_matches _ _); [|apply IH].
    destruct (Str.startswith _ "usb-klipper_").
    { unfold bind, when, say, emit, ret. now destruct (negb out). }
    destruct (Str.startswith _ "usb-katapult_"); [apply IH|].
    unfold bind, when, say, emit, ret. now destruct (negb out).
  - destruct (inspect_devices pattern out devices found last s) as [r s'] eqn:E.
    destruct (inspect_devices_messages pattern out devices found last s r s' E)
      as [(added & Hh & _) _].
    cbn [snd]. rewrite Hh, length_app. lia.
Qed.

Lemma before_scan_grows out dot s :
  (length (hist s) + 2 <= length (hist (before_scan W out dot s)))%nat.
Proof.
  unfold before_scan. cbn zeta. destruct (negb out && _); cbn [log hist];
    rewrite !length_app; cbn [length]; lia.
Qed.

Lemma poll_devices_returns n fuel pattern timeout interval out start dot last s :
  clock_passes W (start + timeout) n ->
  (n < length (hist s) + fuel)%nat ->
  (1 <= fuel)%nat ->
  fst (poll_devices W fuel pattern timeout interval out start dot last s) <> Diverge.
Proof.
  intros Hclock. revert dot last s.
  induction fuel as [|fuel IH]; intros dot last s Hn Hf; [lia|].
  rewrite poll_devices_S. cbn zeta.
  destruct (monotonic W (hist s) - start <? timeout)%Z eqn:Et; [|discriminate].
  apply Z.ltb_lt in Et.
  assert (Hlen : (length (hist s) < n)%nat).
  { destruct (Nat.lt_ge_cases (length (hist s)) n) as [H|H]; [exact H|].
    specialize (Hclock (hist s) H). lia. }
  pose proof (before_scan_grows out dot s) as Hb.
  pose proof (scan_serial_devices_grows (before_scan W out dot s)) as [Hs1 Hs2].
  destruct (scan_serial_devices W (before_scan W out dot s)) as [[devices|e|] s3];
    [|discriminate|contradiction].
  cbn [snd] in Hs2.
  pose proof (inspect_devices_grows pattern out devices false last s3) as [Hi1 Hi2].
  destruct (inspect_devices pattern out devices false last s3) as [[[v|[f l]]|e|] s4];
    [discriminate| |discriminate|contradiction].
  cbn [snd] in Hi2.
  apply IH; [|lia]. cbn [log hist]. rewrite length_app. cbn [length]. lia.
Qed.

End Termination.

(** X22.  The post-flash verification comes to an end: on a host whose
    clock has passed the deadline once [n] events are on record, a run
    with more than [n] units of fuel returns or raises, and never runs out
    of fuel. *)
Theorem wait_for_device_returns (W : World) (fuel : nat) (serial_pattern : option string)
    (timeout interval : Z) (out : bool) (s : State) (n : nat) :
  clock_passes W (monotonic W (hist s) + timeout) n ->
  (n < fuel)%nat ->
  fst (wait_for_device W fuel serial_pattern timeout interval out s) <> Diverge.
Proof.
  intros Hclock Hn. unfold wait_for_device. unfold bind at 1. unfold now at 1, ask.
  unfold bind at 1. unfold when, say, emit, ret.
  destruct (negb out); apply (poll_devices_returns W n); try exact Hclock; lia.
Qed.

Lemma wait_for_device_returns_witness :
  let W := quiet_world ["usb-katapult_rp2040_30AB-if00"] 0 in
  let run := wait_for_device W 80 (Some "usb-Klipper_rp2040_30AB*") 30000 500 true
               start_state in
  fst run = Ok (false, Some "/dev/serial/by-id/usb-katapult_rp2040_30AB-if00",
                Some "Device in bootloader mode (katapult)")
  /\ fst run <> Diverge.
Proof.
  intros W run. split; [vm_compute; reflexivity|].
  apply (wait_for_device_returns W 80 (Some "usb-Klipper_rp2040_30AB*") 30000 500 true
           start_state 30).
  - intros h Hh. cbn. lia.
  - lia.
Defined.

Section PollTermination.
Context (W : World).

Lemma wait_disappear_returns n fuel original deadline interval s :
  clock_passes W deadline n ->
  (n < length (hist s) + fuel)%nat ->
  (1 <= fuel)%nat ->
  exists b s',
    wait_disappear W fuel (default_scan_fn W) original deadline interval s = (Ok b, s')
    /\ (length (hist s) <= length (hist s'))%nat.
Proof.
  intros Hclock. revert s. induction fuel as [|fuel IH]; intros s Hn Hf; [lia|].
  rewrite wait_disappear_S. cbn zeta.
  destruct (monotonic W (hist s) <? deadline)%Z eqn:Et.
  - apply Z.ltb_lt in Et.
    assert (Hlen : (length (hist s) < n)%nat).
    { destruct (Nat.lt_ge_cases (length (hist s)) n) as [H|H]; [exact H|].
      specialize (Hclock (hist s) H). lia. }
    rewrite default_scan_fn_eq. destruct (negb _).
    + eexists _, _. split; [reflexivity|]. cbn [log hist]. rewrite !length_app. lia.
    + edestruct IH as (b & s' & Hr & Hl); [| |exists b, s'; split; [exact Hr|]].
      * destruct (0 <? interval)%Z; cbn [log hist]; rewrite !length_app; cbn [length]; lia.
      * lia.
      * revert Hl. destruct (0 <? interval)%Z; cbn [log hist]; rewrite !length_app;
          cbn [length]; lia.
  - eexists _, _. split; [reflexivity|]. cbn [log hist]. rewrite length_app. lia.
Qed.

Lemma wait_reappear_returns n fuel sig deadline interval s :
  clock_passes W deadline n ->
  (n < length (hist s) + fuel)%nat ->
  (1 <= fuel)%nat ->
  exists r s',
    wait_reappear W fuel (default_scan_fn W) sig deadline interval s = (Ok r, s').
Proof.
  intros Hclock. revert s. induction fuel as [|fuel IH]; intros s Hn Hf; [lia|].
  rewrite wait_reappear_S. cbn zeta.
  destruct (monotonic W (hist s) <? deadline)%Z eqn:Et; [|eexists _, _; reflexivity].
  apply Z.ltb_lt in Et.
  assert (Hlen : (length (hist s) < n)%nat).
  { destruct (Nat.lt_ge_cases (length (hist s)) n) as [H|H]; [exact H|].
    specialize (Hclock (hist s) H). lia. }
  rewrite default_scan_fn_eq. destruct (first_with_signature _ _).
  - eexists _, _. reflexivity.
  - apply IH; [|lia].
    destruct (0 <? interval)%Z; cbn [log hist]; rewrite !length_app; cbn [length]; lia.
Qed.

End PollTermination.

(** X23.  The two-phase poll comes to an end, with a result: on a host
    whose clock has passed the deadline once [n] events are on record, a
    run with more than [n] units of fuel returns; it neither raises nor
    runs out of fuel. *)
Theorem poll_for_reenumeration_returns (W : World) (fuel : nat)
    (original_path serial_pattern : string) (timeout interval : Z) (s : State) (n : nat) :
  clock_passes W (monotonic W (hist s) + timeout) n ->
  (n < fuel)%nat ->
  exists r s',
    _poll_for_reenumeration W fuel original_path serial_pattern timeout interval
      (default_scan_fn W) s = (Ok r, s').
Proof.
  intros Hclock Hn. rewrite poll_unfold. cbn zeta.
  destruct (wait_disappear_returns W n fuel (Str.basename original_path)
              (monotonic W (hist s) + timeout) interval
              (log s (EClock (monotonic W (hist s)))) Hclock)
    as (b & s1 & Hr & Hl); [lia | lia |].
  rewrite Hr. destruct b; [|eexists _, _; reflexivity].
  apply (wait_reappear_returns W n); [exact Hclock | | lia].
  cbn [log hist] in Hl. rewrite length_app in Hl. lia.
Qed.

Lemma poll_for_reenumeration_returns_witness :
  let W := quiet_world ["usb-Klipper_rp2040_30AB-if00"] 0 in
  exists r s',
    _poll_for_reenumeration W 40 "/dev/serial/by-id/usb-Klipper_rp2040_30AB-if00"
      "usb-Klipper_rp2040_30AB*" TIMEOUT_REENUMERATION POLL_INTERVAL
      (default_scan_fn W) start_state = (Ok r, s').
Proof.
  intros W.
  apply (poll_for_reenumeration_returns W 40
           "/dev/serial/by-id/usb-Klipper_rp2040_30AB-if00" "usb-Klipper_rp2040_30AB*"
           TIMEOUT_REENUMERATION POLL_INTERVAL start_state 10).
  - intros h Hh. cbn. unfold TIMEOUT_REENUMERATION. lia.
  - lia.
Defined.

(* ===================================================================== *)
(** * One device node, one flash *)
(* ===================================================================== *)

Section DuplicatePaths.
Context (W : World)
        (config_issue : DeviceEntry -> option (string * string))
        (preflight : string -> string -> option string -> M bool)
        (extract_mcu : string -> option string)
        (config : GlobalConfig) (temp_dir : string).

Lemma cached_preflight_paths U entry st :
  used_paths st = U ->
  returns (fun r => used_paths (snd r) = U) (cached_preflight preflight config entry st).
Proof.
  intros Hs. unfold cached_preflight.
  destruct (preflight_cache st !! flash_command entry); rt_auto; try exact Hs.
Qed.

Lemma flash_all_usb_found_paths fuel idx flash_idx flash_total entry usb_device st s st' s' :
  flash_all_usb_found W config_issue preflight extract_mcu config temp_dir
    fuel idx flash_idx flash_total entry usb_device st s = (Ok st', s') ->
  used_paths st' = {[ realpath W (hist s) (path usb_device) ]} ∪ used_paths st
  \/ (realpath W (hist s) (path usb_device) ∈ used_paths st
      /\ used_paths st' = used_paths st).
Proof.
  unfold flash_all_usb_found. unfold bind at 1. unfold os_realpath at 1, ask.
  set (real_path := realpath W (hist s) (path usb_device)).
  case_decide as Hdup.
  { unfold bind, say, emit, ret. intros [= <- <-]. right. now split. }
  intros H. left. revert H.
  generalize (log s (ERealpath (path usb_device) real_path)). intros s1 H.
  match type of H with
  | ?c s1 = _ =>
      assert (Hr : returns (fun b => used_paths b = {[ real_path ]} ∪ used_paths st) c);
        [|exact (Hr s1 st' s' H)]
  end.
  clear H.
  destruct (match extract_mcu (filename usb_device) with
            | Some m => _
            | None => None
            end) as [m|]; [rt_auto; try reflexivity|].
  destruct (config_issue entry) as [[error_type detail]|]; [rt_auto; try reflexivity|].
  eapply returns_bind.
  { apply (cached_preflight_paths ({[ real_path ]} ∪ used_paths st) entry
             (with_used_path real_path st)). reflexivity. }
  intros [ok st1] Hs. cbn [snd] in Hs.
  destruct (negb ok); [rt_auto; try exact Hs|].
  eapply (returns_bind (fun boot => match boot with
                                    | inl b => used_paths b = {[ real_path ]} ∪ used_paths st
                                    | inr (_, b) =>
                                        used_paths b = {[ real_path ]} ∪ used_paths st
                                    end)).
  { case_decide; rt_auto; try exact Hs. }
  intros [st2|[boot_device_path st2]] Hs2; [rt_auto; try exact Hs2|].
  eapply (returns_bind anything); [apply returns_anything|]. intros flash_result _.
  destruct (fr_success flash_result); [|rt_auto; try exact Hs2].
  eapply (returns_bind anything); [apply returns_anything|]. intros [[verified p] reason] _.
  eapply (returns_bind (fun b => used_paths b = {[ real_path ]} ∪ used_paths st)).
  { destruct verified; rt_auto; try exact Hs2. }
  intros st3 Hs3. rt_auto.
Qed.

End DuplicatePaths.

(** X24.  The duplicate-path guard of the batch loop.  When the device
    node that a registration resolves to was already flashed through in
    this batch, the pass only resolves the path, warns and writes the
    refusal on the result.  And a pass that returns has the node on the
    list of used ones from then on, so that no later registration gets
    past the guard with it. *)
Theorem flash_all_duplicate_path_guard (W : World)
    (config_issue : DeviceEntry -> option (string * string))
    (preflight : string -> string -> option string -> M bool)
    (extract_mcu : string -> option string)
    (config : GlobalConfig) (temp_dir : string)
    (fuel idx flash_idx flash_total : nat) (entry : DeviceEntry)
    (usb_device : DiscoveredDevice) (st : Batch) (s : State) :
  let real_path := realpath W (hist s) (path usb_device) in
  let run :=
    flash_all_usb_found W config_issue preflight extract_mcu config temp_dir
      fuel idx flash_idx flash_total entry usb_device st s in
  (real_path ∈ used_paths st ->
   run = (Ok (update_result idx (set_error_message DUPLICATE_PATH) st),
          log (log s (ERealpath (path usb_device) real_path))
            (EOut "warn" ["Skipping " +:+ name entry +:+ ": duplicate USB path"])))
  /\ (forall st' s', run = (Ok st', s') ->
        real_path ∈ used_paths st' /\ used_paths st ⊆ used_paths st').
Proof.
  intros real_path run. split.
  - intros Hin. unfold run, flash_all_usb_found. unfold bind at 1.
    unfold os_realpath at 1, ask. fold real_path.
    rewrite decide_True by exact Hin. reflexivity.
  - intros st' s' H.
    destruct (flash_all_usb_found_paths W config_issue preflight extract_mcu config
                temp_dir fuel idx flash_idx flash_total entry usb_device st s st' s' H)
      as [Hu|[Hin Hu]]; fold real_path in Hu |- *; rewrite Hu.
    + split; [apply elem_of_union; left; now apply elem_of_singleton|].
      intros x Hx. apply elem_of_union. now right.
    + fold real_path in Hin. split; [exact Hin | reflexivity].
Qed.

Lemma flash_all_duplicate_path_guard_witness :
  let W := quiet_world ["usb-Klipper_rp2040_30AB-if00"] 0 in
  let entry := usb_entry "usb-Klipper_rp2040_30AB*" "none" "make_flash" in
  let device := {| path := "/dev/serial/by-id/usb-Klipper_rp2040_30AB-if00";
                   filename := "usb-Klipper_rp2040_30AB-if00" |} in
  let st := with_used_path "/dev/serial/by-id/usb-Klipper_rp2040_30AB-if00"
              (first_batch [device] [fresh_result entry]) in
  let run := flash_all_usb_found W no_config_issue preflight_passes mcu_unknown
               sample_config "/tmp/fw" 40 0 1 1 entry device st start_state in
  fst run = Ok (update_result 0 (set_error_message DUPLICATE_PATH) st)
  /\ commands (hist (snd run)) = [].
Proof.
  intros W entry device st run.
  assert (Hin : realpath W (hist start_state) (path device) ∈ used_paths st).
  { apply elem_of_union. left. now apply elem_of_singleton. }
  pose proof (proj1 (flash_all_duplicate_path_guard W no_config_issue preflight_passes
                       mcu_unknown sample_config "/tmp/fw" 40 0 1 1 entry device st
                       start_state) Hin) as Hrun.
  fold run in Hrun. rewrite Hrun. split; reflexivity.
Defined.
